(** * General Coding Tools MCP: the content bundler

    A shallow embedding of [mcp-server/scripts/bundle-content.cjs]: the
    frontmatter parser, the catalog builder, the text generators, the
    serializer and the integrity digest.  The script never calls its
    [readDirRecursive]; the function is modelled on its own, after the rest.

    JavaScript strings are sequences of UTF-16 code units; they are modelled
    as lists of [N].  Files that are read are modelled by the text that
    [fs.readFileSync(path, 'utf8')] returns for them, files that are written
    by their bytes.  Statements that throw are modelled in an error monad. *)

From Stdlib Require Import List NArith ZArith Bool Arith Lia String Ascii Permutation.
Import ListNotations.

Set Warnings "-register-all".

Local Open Scope N_scope.
Local Open Scope list_scope.

(** ** Code units and strings *)

Abbreviation unit16 := N (only parsing).
Abbreviation jsstring := (list N) (only parsing).

(** An ASCII literal as a JavaScript string. *)
Definition js (s : string) : jsstring :=
  List.map N_of_ascii (list_ascii_of_string s).

Fixpoint jsstring_eqb (a b : jsstring) : bool :=
  match a, b with
  | [], [] => true
  | x :: a', y :: b' => (x =? y) && jsstring_eqb a' b'
  | _, _ => false
  end.

(** ECMAScript LineTerminator: LF, CR, LS, PS. *)
Definition is_line_terminator (c : unit16) : bool :=
  (c =? 10) || (c =? 13) || (c =? 8232) || (c =? 8233).

(** ECMAScript WhiteSpace together with LineTerminator: the class [\s] of
    regular expressions, and the characters [String.prototype.trim] removes. *)
Definition is_space (c : unit16) : bool :=
  (c =? 9) || (c =? 10) || (c =? 11) || (c =? 12) || (c =? 13) || (c =? 32)
  || (c =? 160) || (c =? 5760) || ((8192 <=? c) && (c <=? 8202))
  || (c =? 8232) || (c =? 8233) || (c =? 8239) || (c =? 8287)
  || (c =? 12288) || (c =? 65279).

(** The class [.] without the [s] flag. *)
Definition is_dot (c : unit16) : bool := negb (is_line_terminator c).

(** The class [[\s\S]]. *)
Definition is_any (c : unit16) : bool := is_space c || negb (is_space c).

(** The class of the two quote characters, U+0022 and U+0027. *)
Definition is_quote (c : unit16) : bool := (c =? 34) || (c =? 39).

Fixpoint trimStart (s : jsstring) : jsstring :=
  match s with
  | c :: s' => if is_space c then trimStart s' else s
  | [] => []
  end.

Definition trimEnd (s : jsstring) : jsstring := rev (trimStart (rev s)).

(** [String.prototype.trim]. *)
Definition trim (s : jsstring) : jsstring := trimEnd (trimStart s).

Fixpoint startsWith (s p : jsstring) {struct p} : bool :=
  match p, s with
  | [], _ => true
  | a :: p', b :: s' => (a =? b) && startsWith s' p'
  | _ :: _, [] => false
  end.

Definition endsWith (s p : jsstring) : bool := startsWith (rev s) (rev p).

(** [s.slice(1, -1)]: the string without its first and its last code unit,
    empty when [s] has fewer than two. *)
Definition slice_1_m1 (s : jsstring) : jsstring := removelast (tl s).

(** ** Exceptions *)

Inductive error : Type :=
  | ENOENT | ENOTDIR | EISDIR | EEXIST | TypeError | SyntaxError | IntegrityError.

Inductive result (A : Type) : Type :=
  | Ok (a : A)
  | Throw (e : error).
Arguments Ok {A} a.
Arguments Throw {A} e.

Definition bind {A B} (m : result A) (k : A -> result B) : result B :=
  match m with
  | Ok a => k a
  | Throw e => Throw e
  end.

Declare Scope result_scope.
Delimit Scope result_scope with result.
Notation "x <- m ;; k" := (bind m (fun x => k))
  (at level 61, m at next level, right associativity) : result_scope.

(** ** Regular expressions

    A backtracking matcher for the fragment of ECMAScript regular expressions
    the script uses: literals and classes, greedy and lazy repetition of a
    class, the assertions [^] and [$] (no [m] flag), one capturing group and
    alternation at top level. *)

Module RegExp.

Inductive atom : Type :=
  | Bol                               (* ^ *)
  | Eol                               (* $ *)
  | Cls (p : unit16 -> bool)          (* a class, one code unit *)
  | Star (p : unit16 -> bool)         (* p*  greedy *)
  | StarLazy (p : unit16 -> bool)     (* p*? lazy *)
  | Plus (p : unit16 -> bool)         (* p+  greedy *)
  | GOpen                             (* ( *)
  | GClose.                           (* ) *)

Definition Lit (c : unit16) : atom := Cls (N.eqb c).

Definition lits (s : string) : list atom := List.map Lit (js s).

(** One alternative is a sequence of atoms; a pattern is a disjunction. *)
Definition pattern := list (list atom).

(** The state of group 1: where it was opened, and its value once closed. *)
Record captures : Type := mkCaptures {
  opened : option jsstring;
  group1 : option jsstring
}.

Definition no_captures : captures := mkCaptures None None.

(** The result of a successful match: the input left after the match, and
    group 1. *)
Definition outcome : Type := (jsstring * captures)%type.

Fixpoint star (p : unit16 -> bool) (k : bool -> jsstring -> option outcome)
    (s : jsstring) (start : bool) : option outcome :=
  match s with
  | c :: s' =>
      if p c then
        match star p k s' false with
        | Some r => Some r
        | None => k start s
        end
      else k start s
  | [] => k start s
  end.

Fixpoint star_lazy (p : unit16 -> bool) (k : bool -> jsstring -> option outcome)
    (s : jsstring) (start : bool) : option outcome :=
  match k start s with
  | Some r => Some r
  | None =>
      match s with
      | c :: s' => if p c then star_lazy p k s' false else None
      | [] => None
      end
  end.

(** [run atoms caps start s]: match [atoms] against a prefix of [s];
    [start] tells whether [s] is the whole input. *)
Fixpoint run (atoms : list atom) (caps : captures) (start : bool) (s : jsstring)
    : option outcome :=
  match atoms with
  | [] => Some (s, caps)
  | a :: rest =>
      match a with
      | Bol => if start then run rest caps start s else None
      | Eol => match s with [] => run rest caps start s | _ :: _ => None end
      | Cls p =>
          match s with
          | c :: s' => if p c then run rest caps false s' else None
          | [] => None
          end
      | Star p => star p (run rest caps) s start
      | StarLazy p => star_lazy p (run rest caps) s start
      | Plus p =>
          match s with
          | c :: s' => if p c then star p (run rest caps) s' false else None
          | [] => None
          end
      | GOpen => run rest (mkCaptures (Some s) (group1 caps)) start s
      | GClose =>
          match opened caps with
          | Some s0 =>
              run rest
                (mkCaptures None (Some (firstn (List.length s0 - List.length s)%nat s0)))
                start s
          | None => run rest caps start s
          end
      end
  end.

(** The alternatives are tried in order. *)
Fixpoint run_alt (pat : pattern) (start : bool) (s : jsstring) : option outcome :=
  match pat with
  | [] => None
  | alt :: pat' =>
      match run alt no_captures start s with
      | Some r => Some r
      | None => run_alt pat' start s
      end
  end.

(** [String.prototype.match] with a pattern without the [g] flag: the
    leftmost match; the result is the array's element 1. *)
Fixpoint search (pat : pattern) (start : bool) (s : jsstring) : option (option jsstring) :=
  match run_alt pat start s with
  | Some (_, caps) => Some (group1 caps)
  | None =>
      match s with
      | _ :: s' => search pat false s'
      | [] => None
      end
  end.

Definition match_ (pat : pattern) (s : jsstring) : option (option jsstring) :=
  search pat true s.

(** [String.prototype.replace] with a global pattern whose matches are
    exactly one code unit long, and the empty replacement. *)
Fixpoint delete_all (pat : pattern) (start : bool) (s : jsstring) : jsstring :=
  match s with
  | [] => []
  | c :: s' =>
      match run_alt pat start s with
      | Some _ => delete_all pat false s'
      | None => c :: delete_all pat false s'
      end
  end.

End RegExp.

Import RegExp.

(** ** The frontmatter parser *)

(** [/^---\s*\n([\s\S]*?)\n---/] *)
Definition re_frontmatter : pattern :=
  [ [Bol] ++ lits "---" ++ [Star is_space; Lit 10; GOpen; StarLazy is_any; GClose; Lit 10]
    ++ lits "---" ].

(** [/name:\s*(.+)/] *)
Definition re_name : pattern :=
  [ lits "name:" ++ [Star is_space; GOpen; Plus is_dot; GClose] ].

(** [/description:\s*(.+)/] *)
Definition re_description : pattern :=
  [ lits "description:" ++ [Star is_space; GOpen; Plus is_dot; GClose] ].

(** [/^[\x22']|[\x22']$/g], writing \x22 for the double quote. *)
Definition re_quotes : pattern := [ [Bol; Cls is_quote]; [Cls is_quote; Eol] ].

Record Frontmatter : Type := mkFrontmatter {
  fm_name : option jsstring;
  fm_description : option jsstring
}.

(** [m[1].trim()]: a [TypeError] when the group is [undefined]. *)
Definition group_trim (g : option jsstring) : result jsstring :=
  match g with
  | Some v => Ok (trim v)
  | None => Throw TypeError
  end.

(** A string is truthy when it is not empty. *)
Definition truthy (s : jsstring) : bool :=
  match s with [] => false | _ :: _ => true end.

Definition extractFrontmatter (content : jsstring) : result Frontmatter :=
  match match_ re_frontmatter content with
  | None => Ok (mkFrontmatter None None)
  | Some g =>
      match g with
      | None => Throw TypeError
      | Some block =>
          let nameMatch := match_ re_name block in
          let descMatch := match_ re_description block in
          (name <- match nameMatch with
                   | Some g1 =>
                       (t <- group_trim g1 ;;
                        Ok (Some (delete_all re_quotes true t)))
                   | None => Ok None
                   end ;;
           desc <- match descMatch with
                   | Some g1 => (t <- group_trim g1 ;; Ok (Some t))
                   | None => Ok None
                   end ;;
           let desc :=
             match desc with
             | Some d =>
                 if truthy d && (startsWith d [34] || startsWith d [39])
                 then Some (slice_1_m1 d) else Some d
             | None => None
             end in
           Ok (mkFrontmatter name desc))%result
      end
  end.

Definition extractNameFromFrontmatter (content : jsstring) : result (option jsstring) :=
  (fm <- extractFrontmatter content ;; Ok (fm_name fm))%result.

(** ** Ordinary objects used as maps

    An object is its list of own properties in the order of their creation.
    [Object.keys], [Object.values] and [Object.entries] list the properties
    whose key is an array index first, in ascending numeric order, then the
    others in creation order. *)

Module JSObject.

Definition obj (V : Type) : Type := list (jsstring * V).

Definition is_digit (c : unit16) : bool := (48 <=? c) && (c <=? 57).

Definition digits_value (k : jsstring) : N :=
  fold_left (fun acc c => 10 * acc + (c - 48)) k 0.

(** The array index a key denotes, if any: a canonical decimal numeral of
    an integer below 2^32 - 1. *)
Definition array_index (k : jsstring) : option N :=
  match k with
  | [] => None
  | c :: k' =>
      if forallb is_digit k
         && ((negb (c =? 48)) || match k' with [] => true | _ :: _ => false end)
         && (digits_value k <? 4294967295)
      then Some (digits_value k) else None
  end.

Definition is_index (k : jsstring) : bool :=
  match array_index k with Some _ => true | None => false end.

Definition index_of (k : jsstring) : N :=
  match array_index k with Some i => i | None => 0 end.

Section Obj.
Context {V : Type}.

(** The own property [k]. *)
Fixpoint get (o : obj V) (k : jsstring) : option V :=
  match o with
  | [] => None
  | (k', v) :: o' => if jsstring_eqb k' k then Some v else get o' k
  end.

(** CreateDataProperty: an existing own property keeps its place. *)
Fixpoint define (o : obj V) (k : jsstring) (v : V) : obj V :=
  match o with
  | [] => [(k, v)]
  | (k', v') :: o' =>
      if jsstring_eqb k' k then (k, v) :: o' else (k', v') :: define o' k v
  end.

(** The assignment [o[k] = v] on an object created by [{}], for [v] an
    object: the key [__proto__] reaches the accessor inherited from
    [Object.prototype], which replaces the prototype and creates no own
    property. *)
Definition set (o : obj V) (k : jsstring) (v : V) : obj V :=
  if jsstring_eqb k (js "__proto__") then o else define o k v.

Fixpoint insert_by_index (p : jsstring * V) (l : list (jsstring * V)) : list (jsstring * V) :=
  match l with
  | [] => [p]
  | q :: l' =>
      if index_of (fst p) <=? index_of (fst q) then p :: l
      else q :: insert_by_index p l'
  end.

Definition sort_by_index (l : list (jsstring * V)) : list (jsstring * V) :=
  fold_right insert_by_index [] l.

Definition entries (o : obj V) : list (jsstring * V) :=
  sort_by_index (filter (fun p => is_index (fst p)) o)
  ++ filter (fun p => negb (is_index (fst p))) o.

Definition keys (o : obj V) : list jsstring := List.map fst (entries o).
Definition values (o : obj V) : list V := List.map snd (entries o).

End Obj.

(** [Object.fromEntries]. *)
Definition fromEntries {V} (l : list (jsstring * V)) : obj V :=
  fold_left (fun o p => define o (fst p) (snd p)) l [].

End JSObject.

(** ** The file system

    A directory maps names to files and directories.  *)

Inductive node : Type :=
  | File (text : jsstring)
  | Dir (children : list (jsstring * node)).

Definition dirents := list (jsstring * node).

Fixpoint lookup (name : jsstring) (es : dirents) : option node :=
  match es with
  | [] => None
  | (n, x) :: es' => if jsstring_eqb n name then Some x else lookup name es'
  end.

(** [fs.existsSync] of a path one step below a directory. *)
Definition existsSync (name : jsstring) (es : dirents) : bool :=
  match lookup name es with Some _ => true | None => false end.

(** [fs.readFileSync(path, 'utf8')]. *)
Definition readFileSync (x : option node) : result jsstring :=
  match x with
  | Some (File text) => Ok text
  | Some (Dir _) => Throw EISDIR
  | None => Throw ENOENT
  end.

(** [fs.readdirSync]. *)
Definition readdirSync (x : option node) : result dirents :=
  match x with
  | Some (Dir es) => Ok es
  | Some (File _) => Throw ENOTDIR
  | None => Throw ENOENT
  end.

Definition isDirectory (e : jsstring * node) : bool :=
  match snd e with Dir _ => true | File _ => false end.

(** [path.basename(f, '.md')] for a file name [f] (no separator in it). *)
Definition basename_md (f : jsstring) : jsstring :=
  if jsstring_eqb f (js ".md") then []
  else if endsWith f (js ".md") then firstn (List.length f - 3)%nat f
  else f.

(** The parsed [package.json]: absent properties are [undefined]. *)
Record PackageJson : Type := mkPackageJson {
  pkg_name : option jsstring;
  pkg_description : option jsstring;
  pkg_version : option jsstring
}.

(** What a build reads: the directory [mcp-server], and the outcome of
    [JSON.parse(fs.readFileSync(pkgPath, 'utf8'))]. *)
Record BuildInput : Type := mkBuildInput {
  ROOT : dirents;
  package_json : result PackageJson
}.

(** ** The catalog builder *)

Record SkillRecord : Type := mkSkillRecord {
  sr_id : jsstring;
  sr_name : jsstring;
  sr_description : jsstring;
  sr_content : jsstring;
  sr_reference : option jsstring
}.

Record SkillMeta : Type := mkSkillMeta {
  sm_id : jsstring;
  sm_name : jsstring;
  sm_hasReference : bool
}.

Record SubagentRecord : Type := mkSubagentRecord {
  ar_id : jsstring;
  ar_name : jsstring;
  ar_description : jsstring;
  ar_content : jsstring
}.

Record SubagentMeta : Type := mkSubagentMeta {
  am_id : jsstring;
  am_name : jsstring
}.

(** [a || b] for [a] a string or [null]. *)
Definition or_else (a : option jsstring) (b : jsstring) : jsstring :=
  match a with
  | Some (c :: s) => c :: s
  | Some [] => b
  | None => b
  end.

(** [!!a] for [a] a string or [null]. *)
Definition to_boolean (a : option jsstring) : bool :=
  match a with
  | Some (_ :: _) => true
  | Some [] => false
  | None => false
  end.

(** The two source directories, below [ROOT]. *)
Abbreviation SKILLS_DIR := (js "skills").
Abbreviation SUBAGENTS_DIR := (js "subagents").

(** The fixed names of the primary and of the reference document. *)
Definition SKILL_md : jsstring := js "SKILL.md".
Definition REFERENCE_md : jsstring := js "REFERENCE.md".

(** The body of the loop of [buildSkills], for the directory [d]. *)
Definition skill_step (byName : JSObject.obj SkillRecord) (d : jsstring * node)
    : result (JSObject.obj SkillRecord) :=
  match snd d with
  | File _ => Ok byName
  | Dir children =>
      if negb (existsSync SKILL_md children) then Ok byName
      else
        (skillContent <- readFileSync (lookup SKILL_md children) ;;
         fm <- extractFrontmatter skillContent ;;
         let name := or_else (fm_name fm) (fst d) in
         reference <- (if existsSync REFERENCE_md children
                       then (r <- readFileSync (lookup REFERENCE_md children) ;; Ok (Some r))
                       else Ok None) ;;
         Ok (JSObject.set byName name
               (mkSkillRecord (fst d) name (or_else (fm_description fm) [])
                  skillContent reference)))%result
  end.

(** A loop whose body may throw. *)
Fixpoint for_of {A S} (body : S -> A -> result S) (l : list A) (s : S) : result S :=
  match l with
  | [] => Ok s
  | a :: l' => (s' <- body s a ;; for_of body l' s')%result
  end.

Record SkillsData : Type := mkSkillsData {
  sd_skills : list SkillMeta;
  sd_byName : JSObject.obj SkillRecord
}.

Definition skill_meta (s : SkillRecord) : SkillMeta :=
  mkSkillMeta (sr_id s) (sr_name s) (to_boolean (sr_reference s)).

Definition buildSkills (root : dirents) : result SkillsData :=
  if negb (existsSync SKILLS_DIR root) then Ok (mkSkillsData [] [])
  else
    (es <- readdirSync (lookup SKILLS_DIR root) ;;
     let skillDirs := filter isDirectory es in
     byName <- for_of skill_step skillDirs [] ;;
     Ok (mkSkillsData (List.map skill_meta (JSObject.values byName)) byName))%result.

Definition subagent_step (dir : dirents) (byName : JSObject.obj SubagentRecord)
    (f : jsstring) : result (JSObject.obj SubagentRecord) :=
  (content <- readFileSync (lookup f dir) ;;
   fm <- extractFrontmatter content ;;
   let name := or_else (fm_name fm) (basename_md f) in
   let id := basename_md f in
   Ok (JSObject.set byName name
         (mkSubagentRecord id name (or_else (fm_description fm) []) content)))%result.

Record SubagentsData : Type := mkSubagentsData {
  sd_subagents : list SubagentMeta;
  sa_byName : JSObject.obj SubagentRecord
}.

Definition subagent_meta (s : SubagentRecord) : SubagentMeta :=
  mkSubagentMeta (ar_id s) (ar_name s).

Definition buildSubagents (root : dirents) : result SubagentsData :=
  if negb (existsSync SUBAGENTS_DIR root) then Ok (mkSubagentsData [] [])
  else
    (es <- readdirSync (lookup SUBAGENTS_DIR root) ;;
     let files := filter (fun f => endsWith f (js ".md")) (List.map fst es) in
     byName <- for_of (subagent_step es) files [] ;;
     Ok (mkSubagentsData (List.map subagent_meta (JSObject.values byName)) byName))%result.

(** ** The catalog and overview texts *)

(** [lines.join(sep)]. *)
Fixpoint join (sep : jsstring) (lines : list jsstring) : jsstring :=
  match lines with
  | [] => []
  | [l] => l
  | l :: ls => l ++ sep ++ join sep ls
  end.

(** The template literal of a catalog line; U+2014 is the dash. *)
Definition catalog_line (name id desc : jsstring) : jsstring :=
  js "- **" ++ name ++ js "** (id: `" ++ id ++ js "`) " ++ [8212] ++ js " " ++ desc.

Definition no_description : jsstring := js "(no description)".

Definition buildCatalog (skillsData : SkillsData) (subagentsData : SubagentsData) : jsstring :=
  let lines := [js "# Catalog"; []; js "## Skills"; []] in
  let lines := lines ++
    List.map (fun s =>
      let entry := JSObject.get (sd_byName skillsData) (sm_name s) in
      let desc := or_else (option_map sr_description entry) no_description in
      catalog_line (sm_name s) (sm_id s) desc) (sd_skills skillsData) in
  let lines := lines ++ [[]; js "## Subagents"; []] in
  let lines := lines ++
    List.map (fun a =>
      let entry := JSObject.get (sa_byName subagentsData) (am_name a) in
      let desc := or_else (option_map ar_description entry) no_description in
      catalog_line (am_name a) (am_id a) desc) (sd_subagents subagentsData) in
  join [10] lines.

Definition readWhenToUse (root : dirents) : result jsstring :=
  match lookup (js "docs") root with
  | Some (Dir docs) =>
      if existsSync (js "when-to-use.md") docs
      then readFileSync (lookup (js "when-to-use.md") docs)
      else Ok []
  | _ => Ok []
  end.

(** A property in a template literal: [undefined] prints as its name. *)
Definition to_string (a : option jsstring) : jsstring :=
  match a with Some s => s | None => js "undefined" end.

Definition buildOverview (input : BuildInput) : result jsstring :=
  (pkg <- package_json input ;;
   let lines :=
     [ js "# Overview";
       [];
       js "**" ++ to_string (pkg_name pkg) ++ js "** " ++ [8212] ++ js " "
         ++ to_string (pkg_description pkg);
       [];
       js "Version: `" ++ or_else (pkg_version pkg) (js "unknown") ++ js "`";
       [];
       js "Use the **catalog** resource for a list of skills and subagents. Use **when-to-use** to choose the right one for the request." ] in
   Ok (join [10] lines))%result.

(** ** The bundle *)

Record SkillContent : Type := mkSkillContent {
  sc_content : jsstring;
  sc_reference : option jsstring
}.

Record SubagentContent : Type := mkSubagentContent {
  ac_content : jsstring
}.

Record Content : Type := mkContent {
  c_skills : JSObject.obj SkillContent;
  c_subagents : JSObject.obj SubagentContent;
  c_catalog : jsstring;
  c_whenToUse : jsstring;
  c_overview : jsstring
}.

Record Bundle : Type := mkBundle {
  skills : list SkillMeta;
  subagents : list SubagentMeta;
  content : Content
}.

Definition map_entries {V W} (f : V -> W) (o : JSObject.obj V) : JSObject.obj W :=
  JSObject.fromEntries
    (List.map (fun kv => (fst kv, f (snd kv))) (JSObject.entries o)).

Definition output (input : BuildInput) : result Bundle :=
  (skillsData <- buildSkills (ROOT input) ;;
   subagentsData <- buildSubagents (ROOT input) ;;
   let catalog := buildCatalog skillsData subagentsData in
   whenToUse <- readWhenToUse (ROOT input) ;;
   overview <- buildOverview input ;;
   Ok (mkBundle (sd_skills skillsData) (sd_subagents subagentsData)
         (mkContent
            (map_entries (fun v => mkSkillContent (sr_content v) (sr_reference v))
               (sd_byName skillsData))
            (map_entries (fun v => mkSubagentContent (ar_content v))
               (sa_byName subagentsData))
            catalog whenToUse overview)))%result.

(** ** JSON.stringify *)

Inductive json : Type :=
  | JNull
  | JBool (b : bool)
  | JString (s : jsstring)
  | JArray (items : list json)
  | JObject (members : list (jsstring * json)).

Definition is_high_surrogate (c : unit16) : bool := (55296 <=? c) && (c <=? 56319).
Definition is_low_surrogate (c : unit16) : bool := (56320 <=? c) && (c <=? 57343).

(** A lowercase hexadecimal digit. *)
Definition hex_digit (n : N) : unit16 := if n <? 10 then 48 + n else 87 + n.

(** UnicodeEscape: a backslash, [u] and four lowercase hexadecimal digits. *)
Definition unicode_escape (c : unit16) : jsstring :=
  [92; 117; hex_digit ((c / 4096) mod 16); hex_digit ((c / 256) mod 16);
   hex_digit ((c / 16) mod 16); hex_digit (c mod 16)].

(** The escape of one code unit that is not part of a surrogate pair. *)
Definition quote_unit (c : unit16) : jsstring :=
  if c =? 8 then [92; 98]
  else if c =? 9 then [92; 116]
  else if c =? 10 then [92; 110]
  else if c =? 12 then [92; 102]
  else if c =? 13 then [92; 114]
  else if c =? 34 then [92; 34]
  else if c =? 92 then [92; 92]
  else if (c <? 32) || is_high_surrogate c || is_low_surrogate c then unicode_escape c
  else [c].

Fixpoint quote_units (s : jsstring) : jsstring :=
  match s with
  | [] => []
  | c :: s' =>
      if is_high_surrogate c then
        match s' with
        | d :: s'' =>
            if is_low_surrogate d then c :: d :: quote_units s''
            else quote_unit c ++ quote_units s'
        | [] => quote_unit c
        end
      else quote_unit c ++ quote_units s'
  end.

(** QuoteJSONString. *)
Definition QuoteJSONString (s : jsstring) : jsstring := [34] ++ quote_units s ++ [34].

(** SerializeJSONProperty, SerializeJSONObject and SerializeJSONArray with
    the current indentation [indent] and the unit of indentation [gap]. *)
Fixpoint serialize (gap indent : jsstring) (v : json) : jsstring :=
  match v with
  | JNull => js "null"
  | JBool true => js "true"
  | JBool false => js "false"
  | JString s => QuoteJSONString s
  | JArray items =>
      let stepback := indent in
      let indent := indent ++ gap in
      let partial := List.map (serialize gap indent) items in
      match partial with
      | [] => js "[]"
      | _ :: _ =>
          match gap with
          | [] => js "[" ++ join (js ",") partial ++ js "]"
          | _ :: _ =>
              js "[" ++ [10] ++ indent ++ join (js "," ++ [10] ++ indent) partial
                ++ [10] ++ stepback ++ js "]"
          end
      end
  | JObject members =>
      let stepback := indent in
      let indent := indent ++ gap in
      let partial :=
        List.map (fun m =>
          QuoteJSONString (fst m) ++ js ":"
            ++ match gap with [] => [] | _ :: _ => js " " end
            ++ serialize gap indent (snd m)) members in
      match partial with
      | [] => js "{}"
      | _ :: _ =>
          match gap with
          | [] => js "{" ++ join (js ",") partial ++ js "}"
          | _ :: _ =>
              js "{" ++ [10] ++ indent ++ join (js "," ++ [10] ++ indent) partial
                ++ [10] ++ stepback ++ js "}"
          end
      end
  end.

(** [JSON.stringify(value, null, space)] for a number [space]: the gap is
    [min(10, space)] spaces. *)
Definition JSON_stringify (v : json) (space : N) : jsstring :=
  serialize (repeat 32 (N.to_nat (N.min 10 space))) [] v.

Definition json_of_option (a : option jsstring) : json :=
  match a with Some s => JString s | None => JNull end.

Definition json_of_skill_meta (m : SkillMeta) : json :=
  JObject [ (js "id", JString (sm_id m)); (js "name", JString (sm_name m));
            (js "hasReference", JBool (sm_hasReference m)) ].

Definition json_of_subagent_meta (m : SubagentMeta) : json :=
  JObject [ (js "id", JString (am_id m)); (js "name", JString (am_name m)) ].

Definition json_of_skill_content (c : SkillContent) : json :=
  JObject [ (js "content", JString (sc_content c));
            (js "reference", json_of_option (sc_reference c)) ].

Definition json_of_subagent_content (c : SubagentContent) : json :=
  JObject [ (js "content", JString (ac_content c)) ].

Definition json_of_obj {V} (f : V -> json) (o : JSObject.obj V) : json :=
  JObject (List.map (fun kv => (fst kv, f (snd kv))) (JSObject.entries o)).

Definition json_of_bundle (b : Bundle) : json :=
  JObject
    [ (js "skills", JArray (List.map json_of_skill_meta (skills b)));
      (js "subagents", JArray (List.map json_of_subagent_meta (subagents b)));
      (js "content",
        JObject
          [ (js "skills", json_of_obj json_of_skill_content (c_skills (content b)));
            (js "subagents", json_of_obj json_of_subagent_content (c_subagents (content b)));
            (js "catalog", JString (c_catalog (content b)));
            (js "whenToUse", JString (c_whenToUse (content b)));
            (js "overview", JString (c_overview (content b))) ]) ].

(** ** UTF-8 *)

Abbreviation byte := N (only parsing).

(** The encoding Node applies to a string written or hashed as ['utf8']: a
    surrogate pair is one code point, a lone surrogate becomes U+FFFD. *)
Fixpoint utf8 (s : jsstring) : list byte :=
  match s with
  | [] => []
  | c :: s' =>
      if c <? 128 then c :: utf8 s'
      else if c <? 2048 then (192 + c / 64) :: (128 + c mod 64) :: utf8 s'
      else if is_high_surrogate c then
        match s' with
        | d :: s'' =>
            if is_low_surrogate d then
              let cp := 65536 + (c - 55296) * 1024 + (d - 56320) in
              (240 + cp / 262144) :: (128 + (cp / 4096) mod 64)
                :: (128 + (cp / 64) mod 64) :: (128 + cp mod 64) :: utf8 s''
            else 239 :: 191 :: 189 :: utf8 s'
        | [] => [239; 191; 189]
        end
      else if is_low_surrogate c then 239 :: 191 :: 189 :: utf8 s'
      else (224 + c / 4096) :: (128 + (c / 64) mod 64) :: (128 + c mod 64) :: utf8 s'
  end.

(** ** SHA-256 (FIPS 180-4), as [crypto.createHash('sha256')] computes it *)

Module SHA256.

Definition w32 (x : N) : N := x mod 4294967296.

Definition add32 (x y : N) : N := w32 (x + y).

Definition rotr (n x : N) : N :=
  N.lor (N.shiftr x n) (w32 (N.shiftl x (32 - n))).

Definition not32 (x : N) : N := N.lxor x 4294967295.

Definition Ch (x y z : N) : N := N.lxor (N.land x y) (N.land (not32 x) z).
Definition Maj (x y z : N) : N :=
  N.lxor (N.lxor (N.land x y) (N.land x z)) (N.land y z).
Definition Sigma0 (x : N) : N := N.lxor (N.lxor (rotr 2 x) (rotr 13 x)) (rotr 22 x).
Definition Sigma1 (x : N) : N := N.lxor (N.lxor (rotr 6 x) (rotr 11 x)) (rotr 25 x).
Definition sigma0 (x : N) : N := N.lxor (N.lxor (rotr 7 x) (rotr 18 x)) (N.shiftr x 3).
Definition sigma1 (x : N) : N := N.lxor (N.lxor (rotr 17 x) (rotr 19 x)) (N.shiftr x 10).

Definition is_prime (n : N) : bool :=
  (2 <=? n)
  && forallb (fun d => negb (n mod N.of_nat d =? 0)) (seq 2 (N.to_nat n - 2)).

(** The first sixty-four primes. *)
Definition primes : list N :=
  Eval vm_compute in filter is_prime (List.map N.of_nat (seq 0 312)).

(** The integer cube root of a number below 2^108. *)
Definition cbrt (n : N) : N :=
  fold_left (fun r b => let r' := r + 2 ^ N.of_nat b in
                        if r' * r' * r' <=? n then r' else r)
            (rev (seq 0 36)) 0.

(** The round constants: the first thirty-two bits of the fractional parts
    of the cube roots of the first sixty-four primes. *)
Definition K : list N :=
  Eval vm_compute in List.map (fun p => w32 (cbrt (p * 2 ^ 96))) primes.

(** The initial hash value: the same of the square roots of the first
    eight primes. *)
Definition H0 : list N :=
  Eval vm_compute in List.map (fun p => w32 (N.sqrt (p * 2 ^ 64))) (firstn 8 primes).

(** The big-endian bytes of a number, [n] of them. *)
Fixpoint be_bytes (n : nat) (x : N) : list N :=
  match n with
  | O => []
  | S n' => be_bytes n' (x / 256) ++ [x mod 256]
  end.

(** The message, the byte 0x80, zeros up to 56 modulo 64, and the length in
    bits on eight bytes. *)
Definition pad (msg : list N) : list N :=
  let len := List.length msg in
  let zeros := ((119 - len mod 64) mod 64)%nat in
  msg ++ [128] ++ repeat 0 zeros ++ be_bytes 8 (8 * N.of_nat len).

Fixpoint words (n : nat) (bs : list N) : list N :=
  match n, bs with
  | S n', b0 :: b1 :: b2 :: b3 :: bs' =>
      (((b0 * 256 + b1) * 256 + b2) * 256 + b3) :: words n' bs'
  | _, _ => []
  end.

Definition at_ (ws : list N) (i : nat) : N := nth i ws 0.

Fixpoint schedule (n : nat) (ws : list N) : list N :=
  match n with
  | O => ws
  | S n' =>
      let i := List.length ws in
      let w := add32 (add32 (sigma1 (at_ ws (i - 2))) (at_ ws (i - 7)))
                     (add32 (sigma0 (at_ ws (i - 15))) (at_ ws (i - 16))) in
      schedule n' (ws ++ [w])
  end.

Record regs : Type := mkRegs { ra : N; rb : N; rc : N; rd : N; re : N; rf : N; rg : N; rh : N }.

Definition round (r : regs) (kw : N * N) : regs :=
  let t1 := add32 (add32 (add32 (rh r) (Sigma1 (re r))) (Ch (re r) (rf r) (rg r)))
                  (add32 (fst kw) (snd kw)) in
  let t2 := add32 (Sigma0 (ra r)) (Maj (ra r) (rb r) (rc r)) in
  mkRegs (add32 t1 t2) (ra r) (rb r) (rc r) (add32 (rd r) t1) (re r) (rf r) (rg r).

Definition regs_of (h : list N) : regs :=
  mkRegs (at_ h 0) (at_ h 1) (at_ h 2) (at_ h 3) (at_ h 4) (at_ h 5) (at_ h 6) (at_ h 7).

Definition compress (h : list N) (block : list N) : list N :=
  let ws := schedule 48 (words 16 block) in
  let r := fold_left round (combine K ws) (regs_of h) in
  [ add32 (at_ h 0) (ra r); add32 (at_ h 1) (rb r); add32 (at_ h 2) (rc r);
    add32 (at_ h 3) (rd r); add32 (at_ h 4) (re r); add32 (at_ h 5) (rf r);
    add32 (at_ h 6) (rg r); add32 (at_ h 7) (rh r) ].

Fixpoint blocks (n : nat) (h : list N) (bs : list N) : list N :=
  match n with
  | O => h
  | S n' =>
      match bs with
      | [] => h
      | _ :: _ => blocks n' (compress h (firstn 64 bs)) (skipn 64 bs)
      end
  end.

(** The digest: eight 32-bit words. *)
Definition digest (msg : list N) : list N :=
  let p := pad msg in
  blocks (List.length p) H0 p.

(** A 32-bit word as eight lowercase hexadecimal digits. *)
Definition hex32 (x : N) : jsstring :=
  List.map (fun i => hex_digit ((x / 16 ^ i) mod 16)) [7; 6; 5; 4; 3; 2; 1; 0].

(** [.digest('hex')] *)
Definition hexdigest (msg : list N) : jsstring :=
  flat_map hex32 (digest msg).

End SHA256.

(** ** The script *)

(** [path.join(OUT_DIR, 'content.json')], below [mcp-server]. *)
Definition OUT_FILE : jsstring := js "dist/content.json".

Definition jsonContent (out : Bundle) : jsstring :=
  JSON_stringify (json_of_bundle out) 0.

Definition hash (out : Bundle) : jsstring :=
  SHA256.hexdigest (utf8 (jsonContent out)).

(** [path.join(__dirname, '..', 'dist')], below [mcp-server]. *)
Definition OUT_DIR : jsstring := js "dist".

(** [fs.mkdirSync(dir, { recursive: true })]: the entries of the directory,
    which is created when it is absent; a file in its place is an error. *)
Definition mkdirSync (x : option node) : result dirents :=
  match x with
  | Some (Dir es) => Ok es
  | Some (File _) => Throw EEXIST
  | None => Ok []
  end.

(** [fs.writeFileSync(path, data, 'utf8')] at a path one step below a
    directory: the file is created or replaced; a directory in its place is
    an error. *)
Definition writeFileSync (x : option node) : result unit :=
  match x with
  | Some (Dir _) => Throw EISDIR
  | _ => Ok tt
  end.

(** A run of the script: the files it has written, in order, each with its
    path below [mcp-server] and its bytes, and how it ends.  The bundle is
    built before anything is written; the sidecar is written after the
    artifact. *)
Definition script (input : BuildInput) : list (jsstring * list byte) * result unit :=
  match output input with
  | Throw e => ([], Throw e)
  | Ok out =>
      match mkdirSync (lookup OUT_DIR (ROOT input)) with
      | Throw e => ([], Throw e)
      | Ok dist =>
          match writeFileSync (lookup (js "content.json") dist) with
          | Throw e => ([], Throw e)
          | Ok _ =>
              let artifact := (OUT_FILE, utf8 (jsonContent out)) in
              match writeFileSync (lookup (js "content.json.sha256") dist) with
              | Throw e => ([artifact], Throw e)
              | Ok _ =>
                  ([artifact; (OUT_FILE ++ js ".sha256", utf8 (hash out ++ [10]))],
                   Ok tt)
              end
          end
      end
  end.

(** The files of a run that ends without an exception. *)
Definition main (input : BuildInput) : result (list (jsstring * list byte)) :=
  match script input with
  | (files, Ok _) => Ok files
  | (_, Throw e) => Throw e
  end.


(** ** Specification predicates *)

Definition is_dir (x : option node) : bool :=
  match x with Some (Dir _) => true | _ => false end.

Definition is_file (x : option node) : bool :=
  match x with Some (File _) => true | _ => false end.

(** The output directory takes the two files: it is absent or a
    directory, and neither of the two paths is a directory. *)
Definition dist_writable (root : dirents) : bool :=
  match lookup (js "dist") root with
  | None => true
  | Some (File _) => false
  | Some (Dir dist) =>
      negb (is_dir (lookup (js "content.json") dist))
      && negb (is_dir (lookup (js "content.json.sha256") dist))
  end.

(** Whether the input is still whole after the prefix [pre] was consumed. *)
Definition start_after (start : bool) (pre : jsstring) : bool :=
  match pre with [] => start | _ :: _ => false end.

(** The document opens with a metadata block: the marker, white space up to
    a line feed, the block, a line feed and the marker again. *)
Definition has_frontmatter (content : jsstring) : Prop :=
  exists ws block rest,
    content = js "---" ++ ws ++ [10] ++ block ++ [10] ++ js "---" ++ rest
    /\ Forall (fun c => is_space c = true) ws.

(** The block declares the field [key]: the key and a colon, white space,
    and at least one character of a value on a line. *)
Definition declares (key : string) (block : jsstring) : Prop :=
  exists pre ws c post,
    block = pre ++ js key ++ js ":" ++ ws ++ c :: post
    /\ Forall (fun c => is_space c = true) ws
    /\ is_dot c = true.

(** The block the parser reads its fields from. *)
Definition leading_block (content : jsstring) : option jsstring :=
  match match_ re_frontmatter content with
  | Some (Some block) => Some block
  | _ => None
  end.

(** The stripping rule of the name, after the trim. *)
Definition strip_name (t : jsstring) : jsstring := delete_all re_quotes true t.

(** The stripping rule of the description, after the trim. *)
Definition strip_description (t : jsstring) : jsstring :=
  if truthy t && (startsWith t [34] || startsWith t [39]) then slice_1_m1 t else t.

Definition starts_with_quote (t : jsstring) : bool := is_quote (hd 0 t).
Definition ends_with_quote (t : jsstring) : bool := is_quote (last t 0).

(** A quote character at both ends, or at neither. *)
Definition evenly_quoted (t : jsstring) : Prop :=
  starts_with_quote t = ends_with_quote t.

(** Whether the text [p] occurs in [s]. *)
Fixpoint occurs (p s : jsstring) : bool :=
  match s with
  | [] => startsWith [] p
  | _ :: s' => startsWith s p || occurs p s'
  end.

(** The stripping rule in the words of the specification: the quote
    characters that surround the value are removed. *)
Definition strip_quotes (t : jsstring) : jsstring :=
  if starts_with_quote t && ends_with_quote t then removelast (tl t) else t.

(** A document whose block declares [name: v] and [description: v]. *)
Definition field_doc (v : jsstring) : jsstring :=
  join [10] [js "---"; js "name: " ++ v; js "description: " ++ v; js "---"; js "# Body"].

(** What the second alternative of the quote pattern deletes. *)
Fixpoint drop_last_quote (s : jsstring) : jsstring :=
  match s with
  | [] => []
  | c :: s' =>
      match s' with
      | [] => if is_quote c then [] else [c]
      | _ :: _ => c :: drop_last_quote s'
      end
  end.

(** ** The record of a source

    What the loop of [buildSkills] assigns for a directory entry: nothing
    for an entry that is skipped, else the record; and the same for a
    subagent file. *)

Definition skill_record (d : jsstring * node) : result (option SkillRecord) :=
  match snd d with
  | File _ => Ok None
  | Dir children =>
      match lookup SKILL_md children with
      | None => Ok None
      | Some x =>
          (skillContent <- readFileSync (Some x) ;;
           fm <- extractFrontmatter skillContent ;;
           reference <- match lookup REFERENCE_md children with
                        | Some r => (t <- readFileSync (Some r) ;; Ok (Some t))
                        | None => Ok None
                        end ;;
           Ok (Some (mkSkillRecord (fst d) (or_else (fm_name fm) (fst d))
                       (or_else (fm_description fm) []) skillContent reference)))%result
      end
  end.

Definition subagent_record (dir : dirents) (f : jsstring) : result SubagentRecord :=
  (content <- readFileSync (lookup f dir) ;;
   fm <- extractFrontmatter content ;;
   Ok (mkSubagentRecord (basename_md f) (or_else (fm_name fm) (basename_md f))
         (or_else (fm_description fm) []) content))%result.

(** The key [__proto__]. *)
Definition proto : jsstring := js "__proto__".

(** Filing records one after the other under their names. *)
Definition file_all {V} (name : V -> jsstring) (rs : list V) (o : JSObject.obj V)
    : JSObject.obj V :=
  fold_left (fun o r => JSObject.set o (name r) r) rs o.

(** The records among [rs], in order. *)
Definition somes {V} (rs : list (option V)) : list V :=
  flat_map (fun r => match r with Some v => [v] | None => [] end) rs.

(** ** Sample inputs *)

(** A document: a metadata block of the given fields, and a body. *)
Definition document (fields : list jsstring) (body : jsstring) : jsstring :=
  join [10] ([js "---"] ++ fields ++ [js "---"; body]).

Definition sample_pkg : PackageJson :=
  mkPackageJson (Some (js "general-coding-tools-mcp"))
    (Some (js "Skills and subagents for coding workflows")) (Some (js "1.0.0")).

(** One skill with a reference, one without frontmatter, a directory that
    is no skill, a file beside them; one subagent. *)
Definition sample_skills : dirents :=
  [ (js "foo",
      Dir [ (js "SKILL.md",
              File (document [js "name: bar"; js "description: " ++ [34] ++ js "does bar" ++ [34]]
                      (js "# Bar")));
            (js "REFERENCE.md", File (js "# Bar, in detail")) ]);
    (js "plain", Dir [ (js "SKILL.md", File (js "# Plain")) ]);
    (js "drafts", Dir [ (js "notes.md", File (js "todo")) ]);
    (js "README.md", File (js "Skills live here.")) ].

Definition sample_subagents : dirents :=
  [ (js "verifier.md",
      File (document [js "name: verifier"; js "description: Checks the work"] (js "# Verifier")));
    (js "notes.txt", File (js "not a subagent")) ].

Definition sample_input : BuildInput :=
  mkBuildInput
    [ (js "skills", Dir sample_skills);
      (js "subagents", Dir sample_subagents);
      (js "docs", Dir [ (js "when-to-use.md", File (js "# When to use")) ]) ]
    (Ok sample_pkg).

(** Two directories that declare the same name. *)
Definition shared_a : dirents :=
  [ (js "SKILL.md", File (document [js "name: shared"] (js "# A"))) ].
Definition shared_b : dirents :=
  [ (js "SKILL.md", File (document [js "name: shared"] (js "# B"))) ].
Definition shared_input : BuildInput :=
  mkBuildInput [ (js "skills", Dir [ (js "a", Dir shared_a); (js "b", Dir shared_b) ]) ]
    (Ok sample_pkg).

(** Two directories and a subagent that declare the name [""]. *)
Definition quoted_empty : jsstring := document [js "name: " ++ [34; 34]] (js "# Body").
Definition empty_name_skills : dirents :=
  [ (js "a", Dir [ (js "SKILL.md", File quoted_empty) ]);
    (js "b", Dir [ (js "SKILL.md", File quoted_empty) ]) ].
Definition empty_name_subagents : dirents :=
  [ (js "verifier.md", File quoted_empty) ].
Definition empty_name_input : BuildInput :=
  mkBuildInput [ (js "skills", Dir empty_name_skills);
                 (js "subagents", Dir empty_name_subagents) ]
    (Ok sample_pkg).

(** A skill whose reference document is empty. *)
Definition empty_reference_skills : dirents :=
  [ (js "a", Dir [ (js "SKILL.md", File (js "# A")); (js "REFERENCE.md", File []) ]) ].
Definition empty_reference_input : BuildInput :=
  mkBuildInput [ (js "skills", Dir empty_reference_skills) ] (Ok sample_pkg).

(** Neither root is there. *)
Definition bare_input : BuildInput := mkBuildInput [] (Ok sample_pkg).

Definition empty_bundle : Bundle := mkBundle [] [] (mkContent [] [] [] [] []).

(** The bundle of an input whose build succeeds. *)
Definition bundle_of (input : BuildInput) : Bundle :=
  match output input with
  | Ok b => b
  | Throw _ => empty_bundle
  end.

(** ** The lexical structure of the artifact *)

Definition is_lower_hex (c : unit16) : bool :=
  ((48 <=? c) && (c <=? 57)) || ((97 <=? c) && (c <=? 102)).

(** The code units of a JSON text that lie outside its string literals:
    [in_string] tells whether the scan is inside a literal, [escaped] whether
    the last unit was a backslash. *)
Fixpoint outside_strings (in_string escaped : bool) (s : jsstring) : jsstring :=
  match s with
  | [] => []
  | c :: s' =>
      if in_string then
        if escaped then outside_strings true false s'
        else if c =? 92 then outside_strings true true s'
        else if c =? 34 then outside_strings false false s'
        else outside_strings true false s'
      else if c =? 34 then outside_strings true false s'
      else c :: outside_strings false false s'
  end.

(** No white space between the tokens of a JSON text. *)
Definition no_space_between_tokens (s : jsstring) : Prop :=
  Forall (fun c => is_space c = false) (outside_strings false false s).

(** The files of an input whose run succeeds. *)
Definition files_of (input : BuildInput) : list (jsstring * list byte) :=
  match main input with
  | Ok files => files
  | Throw _ => []
  end.

(** ** The runtime loader

    The source of the server that loads the bundle is not among the files of
    the build script.  The loader, the index and the Get adapter below follow
    sections 4.5 and 4.6 of the specification; the decoder and the parser
    follow the platform ([Buffer.toString('utf8')], [JSON.parse]). *)

Module Loader.

(** *** UTF-8 decoding *)

Definition is_cont (b : byte) : bool := (128 <=? b) && (b <? 192).

Definition units_of_code_point (cp : N) : jsstring :=
  if cp <? 65536 then [cp]
  else [55296 + (cp - 65536) / 1024; 56320 + (cp - 65536) mod 1024].

(** Modelled from the spec: the artifact bytes read as text.  Well-formed
    sequences give their code point, as one code unit or as a surrogate pair;
    anything else gives U+FFFD and the scan goes on after the offending
    byte. *)
Fixpoint utf8_decode (bs : list byte) : jsstring :=
  match bs with
  | [] => []
  | b0 :: bs1 =>
      if b0 <? 128 then b0 :: utf8_decode bs1
      else if (194 <=? b0) && (b0 <? 224) then
        match bs1 with
        | b1 :: bs2 =>
            if is_cont b1 then ((b0 - 192) * 64 + (b1 - 128)) :: utf8_decode bs2
            else 65533 :: utf8_decode bs1
        | [] => [65533]
        end
      else if (224 <=? b0) && (b0 <? 240) then
        match bs1 with
        | b1 :: b2 :: bs3 =>
            let cp := ((b0 - 224) * 64 + (b1 - 128)) * 64 + (b2 - 128) in
            if is_cont b1 && is_cont b2 && (2048 <=? cp)
               && negb ((55296 <=? cp) && (cp <? 57344))
            then cp :: utf8_decode bs3
            else 65533 :: utf8_decode bs1
        | _ => 65533 :: utf8_decode bs1
        end
      else if (240 <=? b0) && (b0 <? 245) then
        match bs1 with
        | b1 :: b2 :: b3 :: bs4 =>
            let cp := (((b0 - 240) * 64 + (b1 - 128)) * 64 + (b2 - 128)) * 64 + (b3 - 128) in
            if is_cont b1 && is_cont b2 && is_cont b3
               && (65536 <=? cp) && (cp <? 1114112)
            then units_of_code_point cp ++ utf8_decode bs4
            else 65533 :: utf8_decode bs1
        | _ => 65533 :: utf8_decode bs1
        end
      else 65533 :: utf8_decode bs1
  end.

(** *** JSON.parse, for texts without numbers *)

Definition is_json_space (c : unit16) : bool :=
  (c =? 32) || (c =? 9) || (c =? 10) || (c =? 13).

Fixpoint skip_space (s : jsstring) : jsstring :=
  match s with
  | c :: s' => if is_json_space c then skip_space s' else s
  | [] => []
  end.

(** The value of a hexadecimal digit, of either case. *)
Definition hex_value (c : unit16) : option N :=
  if (48 <=? c) && (c <=? 57) then Some (c - 48)
  else if (97 <=? c) && (c <=? 102) then Some (c - 87)
  else if (65 <=? c) && (c <=? 70) then Some (c - 55)
  else None.

(** The character a one-letter escape stands for. *)
Definition simple_escape (c : unit16) : option unit16 :=
  if c =? 34 then Some 34
  else if c =? 92 then Some 92
  else if c =? 47 then Some 47
  else if c =? 98 then Some 8
  else if c =? 102 then Some 12
  else if c =? 110 then Some 10
  else if c =? 114 then Some 13
  else if c =? 116 then Some 9
  else None.

(** A string literal, after its opening quote: the value and what follows
    the closing quote. *)
Fixpoint parse_string (s : jsstring) : option (jsstring * jsstring) :=
  match s with
  | [] => None
  | c :: r =>
      if c =? 34 then Some ([], r)
      else if c =? 92 then
        match r with
        | [] => None
        | e :: r1 =>
            if e =? 117 then
              match r1 with
              | h1 :: h2 :: h3 :: h4 :: r2 =>
                  match hex_value h1, hex_value h2, hex_value h3, hex_value h4 with
                  | Some d1, Some d2, Some d3, Some d4 =>
                      match parse_string r2 with
                      | Some (v, rest) =>
                          Some ((((d1 * 16 + d2) * 16 + d3) * 16 + d4) :: v, rest)
                      | None => None
                      end
                  | _, _, _, _ => None
                  end
              | _ => None
              end
            else
              match simple_escape e with
              | Some x =>
                  match parse_string r1 with
                  | Some (v, rest) => Some (x :: v, rest)
                  | None => None
                  end
              | None => None
              end
        end
      else if c <? 32 then None
      else
        match parse_string r with
        | Some (v, rest) => Some (c :: v, rest)
        | None => None
        end
  end.

(** A value, the elements of an array after its opening bracket, and the
    members of an object after its opening brace. *)
Fixpoint parse_value (fuel : nat) (s : jsstring) {struct fuel} : option (json * jsstring) :=
  match fuel with
  | O => None
  | S fuel' =>
      match skip_space s with
      | 110 :: 117 :: 108 :: 108 :: r => Some (JNull, r)
      | 116 :: 114 :: 117 :: 101 :: r => Some (JBool true, r)
      | 102 :: 97 :: 108 :: 115 :: 101 :: r => Some (JBool false, r)
      | 34 :: r =>
          match parse_string r with
          | Some (v, rest) => Some (JString v, rest)
          | None => None
          end
      | 91 :: r =>
          match skip_space r with
          | 93 :: rest => Some (JArray [], rest)
          | _ =>
              match parse_elements fuel' r with
              | Some (items, rest) => Some (JArray items, rest)
              | None => None
              end
          end
      | 123 :: r =>
          match skip_space r with
          | 125 :: rest => Some (JObject [], rest)
          | _ =>
              match parse_members fuel' r with
              | Some (members, rest) => Some (JObject members, rest)
              | None => None
              end
          end
      | _ => None
      end
  end
with parse_elements (fuel : nat) (s : jsstring) {struct fuel} : option (list json * jsstring) :=
  match fuel with
  | O => None
  | S fuel' =>
      match parse_value fuel' s with
      | Some (v, r) =>
          match skip_space r with
          | 93 :: rest => Some ([v], rest)
          | 44 :: r' =>
              match parse_elements fuel' r' with
              | Some (vs, rest) => Some (v :: vs, rest)
              | None => None
              end
          | _ => None
          end
      | None => None
      end
  end
with parse_members (fuel : nat) (s : jsstring) {struct fuel}
    : option (list (jsstring * json) * jsstring) :=
  match fuel with
  | O => None
  | S fuel' =>
      match skip_space s with
      | 34 :: r =>
          match parse_string r with
          | Some (k, r1) =>
              match skip_space r1 with
              | 58 :: r2 =>
                  match parse_value fuel' r2 with
                  | Some (v, r3) =>
                      match skip_space r3 with
                      | 125 :: rest => Some ([(k, v)], rest)
                      | 44 :: r4 =>
                          match parse_members fuel' r4 with
                          | Some (ms, rest) => Some ((k, v) :: ms, rest)
                          | None => None
                          end
                      | _ => None
                      end
                  | None => None
                  end
              | _ => None
              end
          | None => None
          end
      | _ => None
      end
  end.

(** Modelled from the spec: the parse of the artifact, [JSON.parse]: one
    value, and nothing but white space after it.  Numbers, which no bundle
    holds, are not read. *)
Definition JSON_parse (text : jsstring) : result json :=
  match parse_value (S (List.length text)) text with
  | Some (v, rest) =>
      match skip_space rest with
      | [] => Ok v
      | _ :: _ => Throw SyntaxError
      end
  | None => Throw SyntaxError
  end.

(** *** The structures of the bundle, read back *)

(** The property [k] of a parsed object: of two members with the same key
    the later one counts. *)
Definition field (k : string) (v : json) : option json :=
  match v with
  | JObject members => JSObject.get (JSObject.fromEntries members) (js k)
  | _ => None
  end.

Definition as_string (v : option json) : option jsstring :=
  match v with Some (JString s) => Some s | _ => None end.

Definition as_bool (v : option json) : option bool :=
  match v with Some (JBool b) => Some b | _ => None end.

(** A string or [null]. *)
Definition as_nullable (v : option json) : option (option jsstring) :=
  match v with
  | Some (JString s) => Some (Some s)
  | Some JNull => Some None
  | _ => None
  end.

Fixpoint all_some {A} (l : list (option A)) : option (list A) :=
  match l with
  | [] => Some []
  | Some a :: l' => option_map (cons a) (all_some l')
  | None :: _ => None
  end.

Definition as_array {A} (f : json -> option A) (v : option json) : option (list A) :=
  match v with
  | Some (JArray items) => all_some (List.map f items)
  | _ => None
  end.

Definition as_object {A} (f : json -> option A) (v : option json) : option (JSObject.obj A) :=
  match v with
  | Some (JObject members) =>
      option_map JSObject.fromEntries
        (all_some (List.map (fun m => option_map (pair (fst m)) (f (snd m))) members))
  | _ => None
  end.

Definition skill_meta_of_json (v : json) : option SkillMeta :=
  match as_string (field "id" v), as_string (field "name" v),
        as_bool (field "hasReference" v) with
  | Some id, Some name, Some flag => Some (mkSkillMeta id name flag)
  | _, _, _ => None
  end.

Definition subagent_meta_of_json (v : json) : option SubagentMeta :=
  match as_string (field "id" v), as_string (field "name" v) with
  | Some id, Some name => Some (mkSubagentMeta id name)
  | _, _ => None
  end.

Definition skill_content_of_json (v : json) : option SkillContent :=
  match as_string (field "content" v), as_nullable (field "reference" v) with
  | Some c, Some r => Some (mkSkillContent c r)
  | _, _ => None
  end.

Definition subagent_content_of_json (v : json) : option SubagentContent :=
  match as_string (field "content" v) with
  | Some c => Some (mkSubagentContent c)
  | None => None
  end.

Definition content_of_json (v : json) : option Content :=
  match as_object skill_content_of_json (field "skills" v),
        as_object subagent_content_of_json (field "subagents" v),
        as_string (field "catalog" v), as_string (field "whenToUse" v),
        as_string (field "overview" v) with
  | Some s, Some a, Some c, Some w, Some o => Some (mkContent s a c w o)
  | _, _, _, _, _ => None
  end.

(** Modelled from the spec: the parsed artifact as the structures of
    section 3. *)
Definition bundle_of_json (v : json) : option Bundle :=
  match as_array skill_meta_of_json (field "skills" v),
        as_array subagent_meta_of_json (field "subagents" v),
        field "content" v with
  | Some s, Some a, Some c =>
      match content_of_json c with
      | Some c' => Some (mkBundle s a c')
      | None => None
      end
  | _, _, _ => None
  end.

(** *** The index *)

Record SkillEntry : Type := mkSkillEntry {
  se_id : jsstring;
  se_name : jsstring;
  se_content : jsstring;
  se_reference : option jsstring
}.

Record SubagentEntry : Type := mkSubagentEntry {
  ae_id : jsstring;
  ae_name : jsstring;
  ae_content : jsstring
}.

(** A [Map] from strings: [put] is [Map.prototype.set]. *)
Definition Map (V : Type) : Type := list (jsstring * V).
Definition put {V} (m : Map V) (k : jsstring) (v : V) : Map V := JSObject.define m k v.
Definition find {V} (m : Map V) (k : jsstring) : option V := JSObject.get m k.

Definition index_by {V} (key : V -> jsstring) (l : list V) : Map V :=
  fold_left (fun m v => put m (key v) v) l [].

Record Index : Type := mkIndex {
  listed_skills : list SkillMeta;
  listed_subagents : list SubagentMeta;
  skills_by_id : Map SkillEntry;
  skills_by_name : Map SkillEntry;
  subagents_by_id : Map SubagentEntry;
  subagents_by_name : Map SubagentEntry
}.

(** The listed skills that have an entry in the content map, with it. *)
Definition skill_entries (b : Bundle) : list SkillEntry :=
  flat_map (fun m =>
    match JSObject.get (c_skills (content b)) (sm_name m) with
    | Some c => [mkSkillEntry (sm_id m) (sm_name m) (sc_content c) (sc_reference c)]
    | None => []
    end) (skills b).

Definition subagent_entries (b : Bundle) : list SubagentEntry :=
  flat_map (fun m =>
    match JSObject.get (c_subagents (content b)) (am_name m) with
    | Some c => [mkSubagentEntry (am_id m) (am_name m) (ac_content c)]
    | None => []
    end) (subagents b).

(** Modelled from the spec: the in-memory index, two lookup maps per
    collection, by id and by name. *)
Definition index_of_bundle (b : Bundle) : Index :=
  mkIndex (skills b) (subagents b)
    (index_by se_id (skill_entries b)) (index_by se_name (skill_entries b))
    (index_by ae_id (subagent_entries b)) (index_by ae_name (subagent_entries b)).

(** *** Verification and loading *)

(** ASCII lower case, for the comparison of hexadecimal digests. *)
Definition lower (c : unit16) : unit16 :=
  if (65 <=? c) && (c <=? 90) then c + 32 else c.

Definition same_hex (a b : jsstring) : bool :=
  jsstring_eqb (List.map lower a) (List.map lower b).

(** Modelled from the spec: the loader and verifier.  The digest of the
    bytes read must be the value of the sidecar, compared as hexadecimal text
    without regard to case; then the same bytes are decoded, parsed and
    indexed. *)
Definition load (artifact sidecar : list byte) : result Index :=
  if same_hex (SHA256.hexdigest artifact) (trim (utf8_decode sidecar)) then
    (v <- JSON_parse (utf8_decode artifact) ;;
     match bundle_of_json v with
     | Some b => Ok (index_of_bundle b)
     | None => Throw TypeError
     end)%result
  else Throw IntegrityError.

(** *** Get *)

(** Modelled from the spec: Get, by id first, then by name; [None] is
    the not-found condition. *)
Definition get_skill (idx : Index) (x : jsstring) : option SkillEntry :=
  match find (skills_by_id idx) x with
  | Some e => Some e
  | None => find (skills_by_name idx) x
  end.

(** Modelled from the spec: Get for subagents, by id first, then by name. *)
Definition get_subagent (idx : Index) (x : jsstring) : option SubagentEntry :=
  match find (subagents_by_id idx) x with
  | Some e => Some e
  | None => find (subagents_by_name idx) x
  end.

End Loader.

(** The index of an input whose run succeeds and whose files load. *)
Definition index_of (input : BuildInput) : option Loader.Index :=
  match files_of input with
  | [(_, artifact); (_, sidecar)] =>
      match Loader.load artifact sidecar with
      | Ok idx => Some idx
      | Throw _ => None
      end
  | _ => None
  end.

(** A skill named after another skill's directory. *)
Definition crossed_skills : dirents :=
  [ (js "a", Dir [ (js "SKILL.md", File (document [js "name: b"] (js "# A"))) ]);
    (js "b", Dir [ (js "SKILL.md", File (document [js "name: c"] (js "# B"))) ]) ].
Definition crossed_input : BuildInput :=
  mkBuildInput [ (js "skills", Dir crossed_skills) ] (Ok sample_pkg).

(** The number of values in a JSON value, the members' and the elements'
    places counted: a bound on the fuel its text needs. *)
Fixpoint json_size (v : json) : nat :=
  match v with
  | JArray items => S (list_sum (List.map (fun x => S (json_size x)) items))
  | JObject members => S (list_sum (List.map (fun m => S (json_size (snd m))) members))
  | _ => 1
  end.

(** A value whose text reads back as the value, whatever follows it. *)
Definition parses (v : json) : Prop :=
  forall fuel rest, (json_size v <= fuel)%nat ->
    Loader.parse_value fuel (serialize [] [] v ++ rest) = Some (v, rest).

(** The text of a member of an object. *)
Definition member_text (m : jsstring * json) : jsstring :=
  QuoteJSONString (fst m) ++ js ":" ++ [] ++ serialize [] [] (snd m).

(** The bundle as the loader holds it: the content maps rebuilt from their
    entries. *)
Definition reloaded (b : Bundle) : Bundle :=
  mkBundle (skills b) (subagents b)
    (mkContent
       (JSObject.fromEntries (JSObject.entries (c_skills (content b))))
       (JSObject.fromEntries (JSObject.entries (c_subagents (content b))))
       (c_catalog (content b)) (c_whenToUse (content b)) (c_overview (content b))).

(** No surrogate stands alone. *)
Fixpoint paired (s : jsstring) : bool :=
  match s with
  | [] => true
  | c :: s' =>
      if is_high_surrogate c then
        match s' with
        | d :: s'' => is_low_surrogate d && paired s''
        | [] => false
        end
      else negb (is_low_surrogate c) && paired s'
  end.

(** Every element is a code unit. *)
Definition code_units (s : jsstring) : Prop := Forall (fun c => c < 65536) s.

(** ** The alternatives of the patterns, atom by atom *)

(** The only alternative of the frontmatter pattern. *)
Definition alt_frontmatter : list atom :=
  Bol :: List.map Lit (js "---")
      ++ [Star is_space; Lit 10; GOpen; StarLazy is_any; GClose; Lit 10]
      ++ List.map Lit (js "---").

(** A field pattern: a literal, [\s*] and the group [(.+)]. *)
Definition alt_field (l : jsstring) : list atom :=
  List.map Lit l ++ [Star is_space; GOpen; Plus is_dot; GClose].


(** Every record of the map is filed under its own name. *)
Definition named {V} (name : V -> jsstring) (o : JSObject.obj V) : Prop :=
  forall k v, In (k, v) o -> name v = k.

(** ** Well-formed inputs

    Every name and every text of the input is a JavaScript string: each of
    its elements is a 16-bit code unit. *)

Fixpoint wf_node (x : node) : Prop :=
  match x with
  | File text => code_units text
  | Dir children =>
      (fix all (es : list (jsstring * node)) : Prop :=
         match es with
         | [] => True
         | (n, y) :: es' => code_units n /\ wf_node y /\ all es'
         end) children
  end.

Definition wf_dirents (es : dirents) : Prop :=
  Forall (fun e => code_units (fst e) /\ wf_node (snd e)) es.

Definition code_units_opt (a : option jsstring) : Prop :=
  match a with Some s => code_units s | None => True end.

Definition wf_input (input : BuildInput) : Prop :=
  wf_dirents (ROOT input)
  /\ forall pkg, package_json input = Ok pkg ->
       code_units_opt (pkg_name pkg) /\ code_units_opt (pkg_description pkg)
       /\ code_units_opt (pkg_version pkg).

Definition wf_skill_record (r : SkillRecord) : Prop :=
  code_units (sr_id r) /\ code_units (sr_name r) /\ code_units (sr_description r)
  /\ code_units (sr_content r) /\ code_units_opt (sr_reference r).

Definition wf_subagent_record (r : SubagentRecord) : Prop :=
  code_units (ar_id r) /\ code_units (ar_name r) /\ code_units (ar_description r)
  /\ code_units (ar_content r).

(** Every string of a JSON value is made of code units. *)
Fixpoint wf_json (v : json) : Prop :=
  match v with
  | JString s => code_units s
  | JArray items =>
      (fix all (l : list json) : Prop :=
         match l with [] => True | x :: l' => wf_json x /\ all l' end) items
  | JObject members =>
      (fix all (l : list (jsstring * json)) : Prop :=
         match l with
         | [] => True
         | (k, x) :: l' => code_units k /\ wf_json x /\ all l'
         end) members
  | _ => True
  end.

(** The same, as a check that computes. *)
Definition valid_string (s : jsstring) : bool := forallb (fun c => c <? 65536) s.

Fixpoint valid_node (x : node) : bool :=
  match x with
  | File text => valid_string text
  | Dir children =>
      (fix all (es : list (jsstring * node)) : bool :=
         match es with
         | [] => true
         | (n, y) :: es' => valid_string n && valid_node y && all es'
         end) children
  end.

Definition valid_opt (a : option jsstring) : bool :=
  match a with Some s => valid_string s | None => true end.

Definition valid_input (input : BuildInput) : bool :=
  valid_node (Dir (ROOT input))
  && match package_json input with
     | Ok pkg =>
         valid_opt (pkg_name pkg) && valid_opt (pkg_description pkg)
         && valid_opt (pkg_version pkg)
     | Throw _ => true
     end.

(** ** Lines *)

(** A text without a line terminator. *)
Definition one_line (s : jsstring) : Prop :=
  Forall (fun c => is_line_terminator c = false) s.

(** The closing marker of a metadata block, with the line feed before it. *)
Definition closing_marker : jsstring := [10] ++ js "---".

(** The text up to the first closing marker that follows it. *)
Fixpoint upto_marker (u : jsstring) : jsstring :=
  match u with
  | [] => []
  | a :: u' =>
      if startsWith (u ++ closing_marker) closing_marker then []
      else a :: upto_marker u'
  end.

(** ** What a build can read *)

(** A skill directory whose primary document, or whose reference beside a
    primary document, is a directory. *)
Definition unreadable_skill (d : jsstring * node) : bool :=
  match snd d with
  | Dir children =>
      is_dir (lookup SKILL_md children)
      || (existsSync SKILL_md children && is_dir (lookup REFERENCE_md children))
  | File _ => false
  end.

(** A directory among the subagent files. *)
Definition unreadable_subagent (es : dirents) (f : jsstring) : bool :=
  endsWith f (js ".md") && is_dir (lookup f es).

Definition skills_readable (root : dirents) : bool :=
  match lookup (js "skills") root with
  | None => true
  | Some (File _) => false
  | Some (Dir es) => negb (existsb unreadable_skill es)
  end.

Definition subagents_readable (root : dirents) : bool :=
  match lookup (js "subagents") root with
  | None => true
  | Some (File _) => false
  | Some (Dir es) => negb (existsb (unreadable_subagent es) (List.map fst es))
  end.

Definition when_to_use_readable (root : dirents) : bool :=
  match lookup (js "docs") root with
  | Some (Dir docs) => negb (is_dir (lookup (js "when-to-use.md") docs))
  | _ => true
  end.

(** The inputs on which the bundle is built. *)
Definition buildable (input : BuildInput) : bool :=
  skills_readable (ROOT input) && subagents_readable (ROOT input)
  && when_to_use_readable (ROOT input)
  && match package_json input with Ok _ => true | Throw _ => false end.

(** The output directory takes the artifact and not the sidecar: it is a
    directory in which [content.json] is no directory and
    [content.json.sha256] is one. *)
Definition sidecar_blocked (root : dirents) : bool :=
  match lookup (js "dist") root with
  | Some (Dir dist) =>
      negb (is_dir (lookup (js "content.json") dist))
      && is_dir (lookup (js "content.json.sha256") dist)
  | _ => false
  end.

(** ** The order of the properties of an object *)

(** The array indices of the keys do not decrease along the list. *)
Fixpoint ascending {V} (l : list (jsstring * V)) : Prop :=
  match l with
  | [] => True
  | p :: l' =>
      match l' with
      | [] => True
      | q :: _ => JSObject.index_of (fst p) <= JSObject.index_of (fst q)
      end /\ ascending l'
  end.

(** ** The texts of a bundle, line by line *)

(** [s.split('\n')]. *)
Fixpoint lines_of (s : jsstring) : list jsstring :=
  match s with
  | [] => [[]]
  | c :: s' =>
      if c =? 10 then [] :: lines_of s'
      else match lines_of s' with
           | l :: ls => (c :: l) :: ls
           | [] => [[c]]
           end
  end.

(** A text without a line feed. *)
Definition no_line_feed (s : jsstring) : Prop :=
  Forall (fun c => (c =? 10) = false) s.

(** The description the catalog shows for a stored document. *)
Definition shown_description (text : option jsstring) : jsstring :=
  match text with
  | Some t =>
      match extractFrontmatter t with
      | Ok fm => or_else (fm_description fm) no_description
      | Throw _ => no_description
      end
  | None => no_description
  end.

(** The catalog, read off the listing and the stored contents of a bundle. *)
Definition catalog_lines (b : Bundle) : list jsstring :=
  [js "# Catalog"; []; js "## Skills"; []]
  ++ List.map (fun m =>
       catalog_line (sm_name m) (sm_id m)
         (shown_description
            (option_map sc_content (JSObject.get (c_skills (content b)) (sm_name m)))))
       (skills b)
  ++ [[]; js "## Subagents"; []]
  ++ List.map (fun m =>
       catalog_line (am_name m) (am_id m)
         (shown_description
            (option_map ac_content (JSObject.get (c_subagents (content b)) (am_name m)))))
       (subagents b).

(** The text of [docs/when-to-use.md], when it is a file. *)
Definition when_to_use_file (root : dirents) : option jsstring :=
  match lookup (js "docs") root with
  | Some (Dir docs) =>
      match lookup (js "when-to-use.md") docs with
      | Some (File t) => Some t
      | _ => None
      end
  | _ => None
  end.

(** A property of [package.json] without a line feed, as it prints in a
    template literal. *)
Definition prints_on_one_line (a : option jsstring) : Prop :=
  match a with Some s => no_line_feed s | None => True end.

(** ** The shape of the files *)

(** A text without a control character below U+0020. *)
Definition no_control (s : jsstring) : Prop := Forall (fun c => 32 <= c) s.

(** A sequence of bytes. *)
Definition bytes (bs : list byte) : Prop := Forall (fun b => b < 256) bs.

(** An input whose docs directory is there and empty. *)
Definition empty_docs_input : BuildInput :=
  mkBuildInput [ (js "docs", Dir []) ] (Ok sample_pkg).

(** ** The records of a directory, in the order it is read *)

(** A name that is filed where it arrives: no array index, and not the
    key [__proto__]. *)
Definition plain_name (n : jsstring) : Prop :=
  JSObject.is_index n = false /\ n <> proto.

(** The records of the skills of a directory whose documents are read. *)
Definition skill_records_of (es : dirents) : list SkillRecord :=
  somes (List.map (fun d => match skill_record d with Ok r => r | Throw _ => None end)
           (filter isDirectory es)).

(** The records of the subagents of a directory whose documents are read. *)
Definition subagent_records_of (es : dirents) : list SubagentRecord :=
  flat_map (fun f => match subagent_record es f with Ok r => [r] | Throw _ => [] end)
    (filter (fun f => endsWith f (js ".md")) (List.map fst es)).

(** ** The recursive reader

    [readDirRecursive] collects the markdown files below a directory.  A
    path below the directory is the list of its names; [path.relative] joins
    them with the separator of the platform, and the key of a file is that
    text with every backslash turned into a slash.  The entries of a directory
    are files and directories. *)

(** [path.sep] *)
Definition path_sep (win32 : bool) : unit16 := if win32 then 92 else 47.

(** [rel.replace(/\\/g, '/')] *)
Definition to_slashes (s : jsstring) : jsstring :=
  List.map (fun c => if c =? 92 then 47 else c) s.

(** [e.name.endsWith('.md') || e.name.endsWith('.markdown')] *)
Definition is_markdown (name : jsstring) : bool :=
  endsWith name (js ".md") || endsWith name (js ".markdown").

(** The key of the file at a path. *)
Definition path_key (win32 : bool) (path : list jsstring) : jsstring :=
  to_slashes (join [path_sep win32] path).

(** [Object.assign(target, source)] *)
Definition assign {V} (target source : JSObject.obj V) : JSObject.obj V :=
  fold_left (fun o p => JSObject.set o (fst p) (snd p)) (JSObject.entries source) target.

(** The call on the directory [x], at the path [rel] below the base. *)
Fixpoint readDir (win32 : bool) (x : node) (rel : list jsstring) {struct x}
    : JSObject.obj jsstring :=
  match x with
  | File _ => []
  | Dir children =>
      fold_left (fun result e =>
                   match snd e with
                   | Dir _ => assign result (readDir win32 (snd e) (rel ++ [fst e]))
                   | File text =>
                       if is_markdown (fst e)
                       then JSObject.set result (path_key win32 (rel ++ [fst e])) text
                       else result
                   end) children []
  end.

(** [readDirRecursive(dir)]: [fs.readdirSync] throws on what is no
    directory. *)
Definition readDirRecursive (win32 : bool) (dir : option node)
    : result (JSObject.obj jsstring) :=
  (es <- readdirSync dir ;; Ok (readDir win32 (Dir es) []))%result.

(** The file at a path below a node. *)
Fixpoint file_at (path : list jsstring) (x : node) (text : jsstring) : Prop :=
  match path with
  | [] => x = File text
  | n :: path' =>
      exists children y, x = Dir children /\ In (n, y) children /\ file_at path' y text
  end.

(** What the reader holds after a call: distinct keys, and every entry is
    a markdown file below the directory, under the key of its path. *)
Definition read_sound (win32 : bool) (x : node) (rel : list jsstring)
    (o : JSObject.obj jsstring) : Prop :=
  NoDup (List.map fst o)
  /\ forall k v, In (k, v) o ->
       exists path,
         path <> [] /\ file_at path x v
         /\ is_markdown (last path []) = true
         /\ k = path_key win32 (rel ++ path).

(** ** What a run reads *)

(** The entries of a directory under one of the given names. *)
Definition keep_names (names : list jsstring) (es : dirents) : dirents :=
  filter (fun e => existsb (jsstring_eqb (fst e)) names) es.

(** A skill directory, cut down to its two documents. *)
Definition read_skill (d : jsstring * node) : jsstring * node :=
  match snd d with
  | Dir children => (fst d, Dir (keep_names [SKILL_md; REFERENCE_md] children))
  | File _ => d
  end.

Definition read_skills (x : node) : node :=
  match x with
  | Dir es => Dir (List.map read_skill (filter isDirectory es))
  | File _ => x
  end.

Definition read_subagents (x : node) : node :=
  match x with
  | Dir es => Dir (filter (fun e => endsWith (fst e) (js ".md")) es)
  | File _ => x
  end.

Definition read_docs (x : node) : node :=
  match x with
  | Dir es => Dir (keep_names [js "when-to-use.md"] es)
  | File _ => x
  end.

Definition entry_of (name : jsstring) (x : option node) : dirents :=
  match x with Some y => [(name, y)] | None => [] end.

(** The output directory, cut down to the two paths that are written. *)
Definition read_dist (x : node) : node :=
  match x with
  | Dir es => Dir (keep_names [js "content.json"; js "content.json.sha256"] es)
  | File _ => x
  end.

(** The part of the directory [mcp-server] that a run touches: the
    directories of the skills root with their two documents, the entries
    [*.md] of the subagents root, [docs/when-to-use.md], and in the output
    directory the two paths it writes to. *)
Definition read_set (root : dirents) : dirents :=
  entry_of (js "skills") (option_map read_skills (lookup (js "skills") root))
  ++ entry_of (js "subagents") (option_map read_subagents (lookup (js "subagents") root))
  ++ entry_of (js "docs") (option_map read_docs (lookup (js "docs") root))
  ++ entry_of (js "dist") (option_map read_dist (lookup (js "dist") root)).
(** * Properties *)

(** ** Strings *)

Lemma jsstring_eqb_eq a b : jsstring_eqb a b = true <-> a = b.
Proof.
  revert b. induction a as [|x a IH]; intros [|y b]; simpl; split; try congruence.
  - intros H. apply andb_true_iff in H. destruct H as [H1 H2].
    apply N.eqb_eq in H1. apply IH in H2. congruence.
  - intros H. inversion H; subst. rewrite N.eqb_refl. apply IH. reflexivity.
Qed.

Lemma jsstring_eqb_refl a : jsstring_eqb a a = true.
Proof. apply jsstring_eqb_eq. reflexivity. Qed.

Lemma jsstring_eqb_neq a b : jsstring_eqb a b = false <-> a <> b.
Proof.
  destruct (jsstring_eqb a b) eqn:E.
  - apply jsstring_eqb_eq in E. split; congruence.
  - split; [|reflexivity]. intros _ H. apply jsstring_eqb_eq in H. congruence.
Qed.

(** ** Test vectors of the digest *)

Example sha256_abc :
  SHA256.hexdigest (utf8 (js "abc"))
  = js "ba7816bf8f01cfea414140de5dae2223b00361a396177a9cb410ff61f20015ad".
Proof. vm_compute. reflexivity. Qed.

Example sha256_empty :
  SHA256.hexdigest []
  = js "e3b0c44298fc1c149afbf4c8996fb92427ae41e4649b934ca495991b7852b855".
Proof. vm_compute. reflexivity. Qed.

Example sha256_two_blocks :
  SHA256.hexdigest (utf8 (js "abcdbcdecdefdefgefghfghighijhijkijkljklmklmnlmnomnopnopq"))
  = js "248d6a61d20638b8e5c026930c3e6039a33ce45964ff2167f6ecedd419db06c1".
Proof. vm_compute. reflexivity. Qed.


(** ** The matcher *)

Section MatcherFacts.

Variable p : unit16 -> bool.
Variable k : bool -> jsstring -> option outcome.

Lemma start_after_app start a b :
  start_after (start_after start a) b = start_after start (a ++ b).
Proof. destruct a, b; reflexivity. Qed.

Lemma star_sound s : forall start r,
  star p k s start = Some r ->
  exists ws s', s = ws ++ s' /\ Forall (fun c => p c = true) ws
                /\ k (start_after start ws) s' = Some r.
Proof.
  induction s as [|c s IH]; intros start r H; simpl in H.
  - exists [], []. auto.
  - destruct (p c) eqn:Hc.
    + destruct (star p k s false) as [r'|] eqn:Hs.
      * inversion H; subst r'. destruct (IH _ _ Hs) as (ws & s' & -> & Hws & Hk).
        exists (c :: ws), s'. repeat split; auto.
        destruct ws; exact Hk.
      * exists [], (c :: s). auto.
    + exists [], (c :: s). auto.
Qed.

Lemma star_complete ws : forall s' start r,
  Forall (fun c => p c = true) ws ->
  k (start_after start ws) s' = Some r ->
  exists r', star p k (ws ++ s') start = Some r'.
Proof.
  induction ws as [|c ws IH]; intros s' start r Hws Hk; simpl in *.
  - destruct s' as [|c s']; simpl; eauto.
    destruct (p c); eauto. destruct (star p k s' false); eauto.
  - inversion Hws; subst. rewrite H1.
    destruct (IH s' false r H2) as [r' Hr'].
    + destruct ws; exact Hk.
    + rewrite Hr'. eauto.
Qed.

Lemma star_lazy_sound s : forall start r,
  star_lazy p k s start = Some r ->
  exists ws s', s = ws ++ s' /\ Forall (fun c => p c = true) ws
                /\ k (start_after start ws) s' = Some r.
Proof.
  induction s as [|c s IH]; intros start r H; simpl in H.
  - destruct (k start []) eqn:Hk; [|discriminate].
    exists [], []. inversion H; subst. auto.
  - destruct (k start (c :: s)) eqn:Hk.
    + inversion H; subst. exists [], (c :: s). auto.
    + destruct (p c) eqn:Hc; [|discriminate].
      destruct (IH _ _ H) as (ws & s' & -> & Hws & Hk').
      exists (c :: ws), s'. repeat split; auto.
      destruct ws; exact Hk'.
Qed.

Lemma star_lazy_complete ws : forall s' start r,
  Forall (fun c => p c = true) ws ->
  k (start_after start ws) s' = Some r ->
  exists r', star_lazy p k (ws ++ s') start = Some r'.
Proof.
  induction ws as [|c ws IH]; intros s' start r Hws Hk; simpl in *.
  - destruct s'; simpl; rewrite Hk; eauto.
  - destruct (k start (c :: ws ++ s')); eauto.
    inversion Hws; subst. rewrite H1.
    apply (IH s' false r H2). destruct ws; exact Hk.
Qed.

End MatcherFacts.

Lemma run_lits l : forall tail caps start s r,
  run (List.map Lit l ++ tail) caps start s = Some r <->
  exists s', s = l ++ s' /\ run tail caps (start_after start l) s' = Some r.
Proof.
  induction l as [|c l IH]; intros tail caps start s r; simpl.
  - split; [intros H; exists s; auto | intros (s' & -> & H); exact H].
  - destruct s as [|c' s].
    + split; [discriminate | intros (s' & H & _); discriminate].
    + destruct (N.eqb_spec c c') as [->|Hne].
      * rewrite IH. split; intros (s' & Hs & Hr).
        -- subst. exists s'. split; auto. destruct l; exact Hr.
        -- inversion Hs; subst. exists s'. split; auto. destruct l; exact Hr.
      * split; [discriminate | intros (s' & Hs & _); congruence].
Qed.

Lemma search_sound pat s : forall start g,
  search pat start s = Some g ->
  exists pre s' rest caps,
    s = pre ++ s' /\ run_alt pat (start_after start pre) s' = Some (rest, caps)
    /\ g = group1 caps.
Proof.
  induction s as [|c s IH]; intros start g H; simpl in H.
  - destruct (run_alt pat start []) as [[rest caps]|] eqn:Hr; [|discriminate].
    inversion H; subst. exists [], [], rest, caps. auto.
  - destruct (run_alt pat start (c :: s)) as [[rest caps]|] eqn:Hr.
    + inversion H; subst. exists [], (c :: s), rest, caps. auto.
    + destruct (IH _ _ H) as (pre & s' & rest & caps & -> & Hrun & ->).
      exists (c :: pre), s', rest, caps. repeat split; auto.
      destruct pre; exact Hrun.
Qed.

Lemma search_complete pat pre : forall s' start r,
  run_alt pat (start_after start pre) s' = Some r ->
  exists g, search pat start (pre ++ s') = Some g.
Proof.
  induction pre as [|c pre IH]; intros s' start r H; simpl in *.
  - destruct s'; simpl; rewrite H; destruct r; eauto.
  - destruct (run_alt pat start (c :: pre ++ s')) as [[rest caps]|]; eauto.
    apply (IH s' false r). destruct pre; exact H.
Qed.

(** One step of [run], atom by atom. *)

Lemma run_Bol rest caps start s :
  run (Bol :: rest) caps start s = if start then run rest caps start s else None.
Proof. reflexivity. Qed.

Lemma run_Cls p rest caps start s r :
  run (Cls p :: rest) caps start s = Some r <->
  exists c s', s = c :: s' /\ p c = true /\ run rest caps false s' = Some r.
Proof.
  simpl. destruct s as [|c s].
  - split; [discriminate | intros (c & s' & H & _); discriminate].
  - destruct (p c) eqn:Hc.
    + split; [intros H; exists c, s; auto | intros (c' & s' & H & _ & Hr); congruence].
    + split; [discriminate | intros (c' & s' & H & Hc' & _); congruence].
Qed.

Lemma run_Lit c0 rest caps start s r :
  run (Lit c0 :: rest) caps start s = Some r <->
  exists s', s = c0 :: s' /\ run rest caps false s' = Some r.
Proof.
  unfold Lit. rewrite run_Cls. split.
  - intros (c & s' & -> & Hc & Hr). apply N.eqb_eq in Hc. subst. eauto.
  - intros (s' & -> & Hr). exists c0, s'. rewrite N.eqb_refl. auto.
Qed.

Lemma run_Star p rest caps start s :
  run (Star p :: rest) caps start s = star p (run rest caps) s start.
Proof. reflexivity. Qed.

Lemma run_StarLazy p rest caps start s :
  run (StarLazy p :: rest) caps start s = star_lazy p (run rest caps) s start.
Proof. reflexivity. Qed.

Lemma run_Plus p rest caps start s r :
  run (Plus p :: rest) caps start s = Some r <->
  exists c s', s = c :: s' /\ p c = true /\ star p (run rest caps) s' false = Some r.
Proof.
  simpl. destruct s as [|c s].
  - split; [discriminate | intros (c & s' & H & _); discriminate].
  - destruct (p c) eqn:Hc.
    + split; [intros H; exists c, s; auto | intros (c' & s' & H & _ & Hr); congruence].
    + split; [discriminate | intros (c' & s' & H & Hc' & _); congruence].
Qed.

Lemma run_GOpen rest caps start s :
  run (GOpen :: rest) caps start s
  = run rest (mkCaptures (Some s) (group1 caps)) start s.
Proof. reflexivity. Qed.

Lemma run_GClose rest g start block s :
  run (GClose :: rest) (mkCaptures (Some (block ++ s)) g) start s
  = run rest (mkCaptures None (Some block)) start s.
Proof.
  simpl. do 3 f_equal.
  rewrite length_app.
  replace (List.length block + List.length s - List.length s)%nat
    with (List.length block) by lia.
  rewrite firstn_app, firstn_all, Nat.sub_diag. simpl. apply app_nil_r.
Qed.

Lemma run_nil caps start s : run [] caps start s = Some (s, caps).
Proof. reflexivity. Qed.

Lemma forall_is_any s : Forall (fun c => is_any c = true) s.
Proof.
  apply Forall_forall. intros c _. unfold is_any. destruct (is_space c); reflexivity.
Qed.

(** ** The three patterns of the parser *)

Lemma run_frontmatter_sound start s rest caps :
  run alt_frontmatter no_captures start s = Some (rest, caps) ->
  start = true /\
  exists ws block,
    s = js "---" ++ ws ++ [10] ++ block ++ [10] ++ js "---" ++ rest
    /\ Forall (fun c => is_space c = true) ws
    /\ caps = mkCaptures None (Some block).
Proof.
  unfold alt_frontmatter. rewrite run_Bol.
  destruct start; [|discriminate]. intros H. split; [reflexivity|].
  apply run_lits in H. destruct H as (s1 & -> & H).
  cbn [app] in H. rewrite run_Star in H.
  apply star_sound in H. destruct H as (ws & s2 & -> & Hws & H).
  apply run_Lit in H. destruct H as (s3 & -> & H).
  rewrite run_GOpen, run_StarLazy in H.
  apply star_lazy_sound in H. destruct H as (block & s4 & -> & _ & H).
  rewrite run_GClose in H.
  apply run_Lit in H. destruct H as (s5 & -> & H).
  apply (run_lits (js "---") []) in H. destruct H as (s6 & -> & H).
  rewrite run_nil in H. inversion H; subst.
  exists ws, block. auto.
Qed.

Lemma run_frontmatter_complete ws block rest :
  Forall (fun c => is_space c = true) ws ->
  exists r,
    run alt_frontmatter no_captures true
      (js "---" ++ ws ++ [10] ++ block ++ [10] ++ js "---" ++ rest) = Some r.
Proof.
  intros Hws. unfold alt_frontmatter. rewrite run_Bol.
  assert (Hk : exists r,
    run [Lit 10; GOpen; StarLazy is_any; GClose; Lit 10; Lit 45; Lit 45; Lit 45]
      no_captures false ([10] ++ block ++ [10] ++ js "---" ++ rest) = Some r).
  { assert (Hl : exists r,
      star_lazy is_any (run [GClose; Lit 10; Lit 45; Lit 45; Lit 45]
        (mkCaptures (Some (block ++ [10] ++ js "---" ++ rest)) None))
        (block ++ [10] ++ js "---" ++ rest) false = Some r).
    { eapply star_lazy_complete; [apply forall_is_any|].
      rewrite run_GClose. apply run_Lit. eexists; split; [reflexivity|].
      apply (run_lits (js "---") []). eexists; split; [reflexivity|].
      apply run_nil. }
    destruct Hl as [r Hl]. exists r.
    apply run_Lit. eexists; split; [reflexivity|].
    rewrite run_GOpen, run_StarLazy. exact Hl. }
  destruct Hk as [r Hk].
  assert (Hs : exists r',
    star is_space
      (run [Lit 10; GOpen; StarLazy is_any; GClose; Lit 10; Lit 45; Lit 45; Lit 45] no_captures)
      (ws ++ [10] ++ block ++ [10] ++ js "---" ++ rest) false = Some r').
  { eapply star_complete; [exact Hws|].
    replace (start_after false ws) with false by (destruct ws; reflexivity).
    exact Hk. }
  destruct Hs as [r' Hs]. exists r'.
  apply run_lits. eexists; split; [reflexivity|].
  cbn [app start_after js]. rewrite run_Star. exact Hs.
Qed.

Lemma match_frontmatter_eq s :
  match_ re_frontmatter s
  = match run alt_frontmatter no_captures true s with
    | Some (_, caps) => Some (group1 caps)
    | None => None
    end.
Proof.
  unfold match_, re_frontmatter.
  change ([Bol] ++ lits "---" ++ [Star is_space; Lit 10; GOpen; StarLazy is_any; GClose; Lit 10] ++ lits "---")
    with alt_frontmatter.
  assert (Hf : forall t, search [alt_frontmatter] false t = None).
  { induction t as [|c t IH]; simpl; auto. }
  destruct s as [|c s]; cbn [search run_alt];
    destruct (run alt_frontmatter no_captures true _) as [[rest caps]|]; auto.
Qed.

Lemma match_frontmatter_sound s g :
  match_ re_frontmatter s = Some g ->
  exists ws block rest,
    s = js "---" ++ ws ++ [10] ++ block ++ [10] ++ js "---" ++ rest
    /\ Forall (fun c => is_space c = true) ws
    /\ g = Some block.
Proof.
  rewrite match_frontmatter_eq.
  destruct (run alt_frontmatter no_captures true s) as [[rest caps]|] eqn:Hr; [|discriminate].
  intros H. inversion H; subst.
  apply run_frontmatter_sound in Hr. destruct Hr as (_ & ws & block & -> & Hws & ->).
  exists ws, block, rest. auto.
Qed.

Lemma match_frontmatter_iff s :
  match_ re_frontmatter s <> None <-> has_frontmatter s.
Proof.
  split.
  - destruct (match_ re_frontmatter s) as [g|] eqn:Hm; [|congruence].
    intros _. apply match_frontmatter_sound in Hm.
    destruct Hm as (ws & block & rest & -> & Hws & _).
    exists ws, block, rest. auto.
  - intros (ws & block & rest & -> & Hws).
    rewrite match_frontmatter_eq.
    destruct (run_frontmatter_complete ws block rest Hws) as [[r caps] Hr].
    rewrite Hr. discriminate.
Qed.

Lemma run_field_sound l start s rest caps :
  run (alt_field l) no_captures start s = Some (rest, caps) ->
  exists ws v,
    s = l ++ ws ++ v ++ rest
    /\ Forall (fun c => is_space c = true) ws
    /\ v <> [] /\ Forall (fun c => is_dot c = true) v
    /\ caps = mkCaptures None (Some v).
Proof.
  unfold alt_field. intros H.
  apply run_lits in H. destruct H as (s1 & -> & H).
  rewrite run_Star in H.
  apply star_sound in H. destruct H as (ws & s2 & -> & Hws & H).
  rewrite run_GOpen in H.
  apply run_Plus in H. destruct H as (c & s3 & -> & Hc & H).
  apply star_sound in H. destruct H as (vs & s4 & -> & Hvs & H).
  change (c :: vs ++ s4) with ((c :: vs) ++ s4) in H.
  rewrite run_GClose, run_nil in H. inversion H; subst.
  exists ws, (c :: vs). repeat split; auto. discriminate.
Qed.

Lemma run_field_complete l start ws c post :
  Forall (fun c => is_space c = true) ws ->
  is_dot c = true ->
  exists r, run (alt_field l) no_captures start (l ++ ws ++ c :: post) = Some r.
Proof.
  intros Hws Hc. unfold alt_field.
  assert (Hv : forall s0 g s st, exists r,
    star is_dot (run [GClose] (mkCaptures (Some s0) g)) s st = Some r).
  { intros s0 g s.
    assert (Hk0 : forall st t, exists r,
      run [GClose] (mkCaptures (Some s0) g) st t = Some r) by (simpl; eauto).
    induction s as [|d s IH]; intros st; cbn [star]; auto.
    destruct (is_dot d); auto.
    destruct (IH false) as [r Hr]. rewrite Hr. eauto. }
  assert (Hk : exists r,
    run [GOpen; Plus is_dot; GClose] no_captures (start_after (start_after start l) ws)
      (c :: post) = Some r).
  { rewrite run_GOpen.
    destruct (Hv (c :: post) (group1 no_captures) post false) as [r Hr].
    exists r. apply run_Plus. exists c, post. auto. }
  destruct Hk as [r Hk].
  destruct (star_complete is_space _ ws (c :: post) _ r Hws Hk) as [r' Hr'].
  exists r'. apply run_lits. eexists; split; [reflexivity|].
  rewrite run_Star. exact Hr'.
Qed.

Lemma match_field_sound l s g :
  match_ [alt_field l] s = Some g ->
  exists pre ws v post,
    s = pre ++ l ++ ws ++ v ++ post
    /\ Forall (fun c => is_space c = true) ws
    /\ v <> [] /\ Forall (fun c => is_dot c = true) v
    /\ g = Some v.
Proof.
  unfold match_. intros H.
  apply search_sound in H.
  destruct H as (pre & s' & rest & caps & -> & Hrun & ->).
  simpl in Hrun.
  destruct (run (alt_field l) no_captures _ s') as [[rest' caps']|] eqn:Hr; [|discriminate].
  inversion Hrun; subst.
  apply run_field_sound in Hr.
  destruct Hr as (ws & v & -> & Hws & Hne & Hv & ->).
  exists pre, ws, v, rest. auto.
Qed.

Lemma match_field_complete l pre ws c post :
  Forall (fun c => is_space c = true) ws ->
  is_dot c = true ->
  match_ [alt_field l] (pre ++ l ++ ws ++ c :: post) <> None.
Proof.
  intros Hws Hc. unfold match_.
  destruct (run_field_complete l (start_after true pre) ws c post Hws Hc) as [r Hr].
  destruct (search_complete [alt_field l] pre (l ++ ws ++ c :: post) true r) as [g Hg].
  - simpl. rewrite Hr. reflexivity.
  - rewrite Hg. discriminate.
Qed.

Lemma re_name_field : re_name = [alt_field (js "name:")].
Proof. reflexivity. Qed.

Lemma re_description_field : re_description = [alt_field (js "description:")].
Proof. reflexivity. Qed.

Lemma match_name_iff block :
  match_ re_name block <> None <-> declares "name" block.
Proof.
  rewrite re_name_field. split.
  - destruct (match_ _ block) as [g|] eqn:Hm; [|congruence]. intros _.
    apply match_field_sound in Hm.
    destruct Hm as (pre & ws & v & post & -> & Hws & Hne & Hv & _).
    destruct v as [|c v]; [congruence|]. inversion Hv; subst.
    exists pre, ws, c, (v ++ post). auto.
  - intros (pre & ws & c & post & -> & Hws & Hc).
    apply (match_field_complete (js "name:")); auto.
Qed.

Lemma match_description_iff block :
  match_ re_description block <> None <-> declares "description" block.
Proof.
  rewrite re_description_field. split.
  - destruct (match_ _ block) as [g|] eqn:Hm; [|congruence]. intros _.
    apply match_field_sound in Hm.
    destruct Hm as (pre & ws & v & post & -> & Hws & Hne & Hv & _).
    destruct v as [|c v]; [congruence|]. inversion Hv; subst.
    exists pre, ws, c, (v ++ post). auto.
  - intros (pre & ws & c & post & -> & Hws & Hc).
    apply (match_field_complete (js "description:")); auto.
Qed.

(** ** The frontmatter parser *)

Lemma match_field_group l s g :
  match_ [alt_field l] s = Some g -> exists v, g = Some v.
Proof.
  intros H. apply match_field_sound in H.
  destruct H as (_ & _ & v & _ & _ & _ & _ & _ & ->). eauto.
Qed.

(** The parser on a document with a block, field by field. *)
Lemma extractFrontmatter_block content block :
  leading_block content = Some block ->
  exists fm,
    extractFrontmatter content = Ok fm
    /\ fm_name fm
       = match match_ re_name block with
         | Some (Some v) => Some (delete_all re_quotes true (trim v))
         | _ => None
         end
    /\ fm_description fm
       = match match_ re_description block with
         | Some (Some v) =>
             let d := trim v in
             if truthy d && (startsWith d [34] || startsWith d [39])
             then Some (slice_1_m1 d) else Some d
         | _ => None
         end.
Proof.
  unfold leading_block, extractFrontmatter.
  destruct (match_ re_frontmatter content) as [[b|]|]; try discriminate.
  intros H. inversion H; subst b. clear H.
  destruct (match_ re_name block) as [g1|] eqn:Hn.
  - rewrite re_name_field in Hn. destruct (match_field_group _ _ _ Hn) as [v ->].
    destruct (match_ re_description block) as [g2|] eqn:Hd.
    + rewrite re_description_field in Hd. destruct (match_field_group _ _ _ Hd) as [w ->].
      simpl. eexists. split; [reflexivity|]. simpl. split; reflexivity.
    + simpl. eexists. split; [reflexivity|]. simpl. split; reflexivity.
  - destruct (match_ re_description block) as [g2|] eqn:Hd.
    + rewrite re_description_field in Hd. destruct (match_field_group _ _ _ Hd) as [w ->].
      simpl. eexists. split; [reflexivity|]. simpl. split; reflexivity.
    + simpl. eexists. split; [reflexivity|]. simpl. split; reflexivity.
Qed.

Lemma leading_block_iff content :
  has_frontmatter content <-> exists block, leading_block content = Some block.
Proof.
  rewrite <- match_frontmatter_iff. unfold leading_block. split.
  - destruct (match_ re_frontmatter content) as [g|] eqn:Hm; [|congruence].
    intros _. destruct (match_frontmatter_sound _ _ Hm) as (_ & block & _ & _ & _ & ->).
    eauto.
  - intros [block H]. destruct (match_ re_frontmatter content); congruence.
Qed.

(** The parser returns on every document.  Without a leading block both
    fields are null; with one, a field is null exactly when its pattern finds
    no match in the block. *)
Lemma extractFrontmatter_total :
  forall content,
  exists fm,
    extractFrontmatter content = Ok fm
    /\ (~ has_frontmatter content -> fm = mkFrontmatter None None)
    /\ (has_frontmatter content ->
        exists block,
          leading_block content = Some block
          /\ (fm_name fm = None <-> ~ declares "name" block)
          /\ (fm_description fm = None <-> ~ declares "description" block)).
Proof.
  intros content.
  destruct (leading_block content) as [block|] eqn:Hb.
  - destruct (extractFrontmatter_block _ _ Hb) as (fm & Hfm & Hname & Hdesc).
    exists fm. split; [exact Hfm|]. split.
    + intros Hno. exfalso. apply Hno. apply leading_block_iff. eauto.
    + intros _. exists block. split; [reflexivity|]. split.
      * rewrite <- match_name_iff, Hname.
        destruct (match_ re_name block) as [g|] eqn:Hn.
        -- rewrite re_name_field in Hn. destruct (match_field_group _ _ _ Hn) as [v ->].
           split; [discriminate | intros H; exfalso; apply H; discriminate].
        -- split; auto.
      * rewrite <- match_description_iff, Hdesc.
        destruct (match_ re_description block) as [g|] eqn:Hd.
        -- rewrite re_description_field in Hd. destruct (match_field_group _ _ _ Hd) as [v ->].
           cbv zeta. destruct (truthy _ && _);
           (split; [discriminate | intros H; exfalso; apply H; discriminate]).
        -- split; auto.
  - assert (Hno : ~ has_frontmatter content).
    { intros H. apply leading_block_iff in H. destruct H as [b H]. congruence. }
    exists (mkFrontmatter None None). split.
    + unfold leading_block in Hb. unfold extractFrontmatter.
      destruct (match_ re_frontmatter content) as [g|] eqn:Hm; [|reflexivity].
      destruct (match_frontmatter_sound _ _ Hm) as (_ & block & _ & _ & _ & ->).
      discriminate.
    + split; [reflexivity | intros H; contradiction].
Qed.

(** C7: the parser does not resolve a malformed name to null whatever
    else the block holds.  A block whose only line is [name:] gives a null
    name; with the line [description: foo] after it, the white space the name
    pattern allows after the colon runs over the line feed, and the name is the
    text of the next line. *)
Theorem empty_name_takes_next_line :
  extractFrontmatter (document [js "name:"] (js "# Body"))
  = Ok (mkFrontmatter None None)
  /\ extractFrontmatter (document [js "name:"; js "description: foo"] (js "# Body"))
     = Ok (mkFrontmatter (Some (js "description: foo")) (Some (js "foo"))).
Proof. split; vm_compute; reflexivity. Qed.

(** ** The two stripping rules *)

Lemma delete_all_quotes_false s :
  delete_all re_quotes false s = drop_last_quote s.
Proof.
  induction s as [|c s IH]; [reflexivity|].
  cbn [delete_all drop_last_quote]. rewrite IH.
  unfold re_quotes. cbn [run_alt]. rewrite run_Bol.
  destruct s as [|d s].
  - simpl. destruct (is_quote c); reflexivity.
  - simpl. destruct (is_quote c); reflexivity.
Qed.

Lemma drop_last_quote_spec s :
  drop_last_quote s = if is_quote (last s 0) then removelast s else s.
Proof.
  induction s as [|c s IH]; [reflexivity|].
  destruct s as [|d s].
  - simpl. destruct (is_quote c); reflexivity.
  - change (drop_last_quote (c :: d :: s)) with (c :: drop_last_quote (d :: s)).
    rewrite IH. change (last (c :: d :: s) 0) with (last (d :: s) 0).
    change (removelast (c :: d :: s)) with (c :: removelast (d :: s)).
    destruct (is_quote _); reflexivity.
Qed.

Lemma strip_name_spec t :
  strip_name t
  = match t with
    | [] => []
    | c :: t' => (if is_quote c then [] else [c]) ++ drop_last_quote t'
    end.
Proof.
  unfold strip_name. destruct t as [|c t']; [reflexivity|].
  cbn [delete_all]. rewrite delete_all_quotes_false.
  unfold re_quotes. cbn [run_alt]. rewrite run_Bol.
  destruct t' as [|d t']; simpl; destruct (is_quote c); reflexivity.
Qed.

Lemma strip_description_spec t :
  strip_description t = if starts_with_quote t then slice_1_m1 t else t.
Proof.
  unfold strip_description, starts_with_quote. destruct t as [|c t]; [reflexivity|].
  cbn [truthy startsWith hd andb]. unfold is_quote.
  rewrite (N.eqb_sym 34), (N.eqb_sym 39).
  destruct (c =? 34), (c =? 39); reflexivity.
Qed.

Lemma strip_rules_agree t :
  evenly_quoted t -> strip_name t = strip_description t.
Proof.
  unfold evenly_quoted. rewrite strip_name_spec, strip_description_spec.
  destruct t as [|c t]; [reflexivity|].
  unfold starts_with_quote, ends_with_quote, slice_1_m1. cbn [hd tl].
  destruct t as [|d t].
  - simpl. destruct (is_quote c); reflexivity.
  - change (last (c :: d :: t) 0) with (last (d :: t) 0).
    rewrite drop_last_quote_spec. intros <-.
    destruct (is_quote c); reflexivity.
Qed.

(** ** The extent of the metadata block *)

Lemma run_lits_eq l : forall caps start s,
  run (List.map Lit l) caps start s
  = if startsWith s l then Some (skipn (List.length l) s, caps) else None.
Proof.
  induction l as [|a l IH]; intros caps start s; [reflexivity|].
  destruct s as [|b s]; [reflexivity|].
  cbn [List.map run Lit startsWith List.length skipn].
  destruct (a =? b); [apply IH | reflexivity].
Qed.

Lemma star_greedy p k ws : forall s start r,
  Forall (fun c => p c = true) ws ->
  star p k s (start_after start ws) = Some r ->
  star p k (ws ++ s) start = Some r.
Proof.
  induction ws as [|c ws IH]; intros s start r Hws H; [exact H|].
  inversion Hws; subst. cbn [app star]. rewrite H2.
  rewrite (IH s false r H3); [reflexivity|].
  destruct ws; exact H.
Qed.

Lemma closing_marker_eq : closing_marker = [10; 45; 45; 45].
Proof. reflexivity. Qed.

(** Whether a closing marker begins inside [u] does not depend on what
    follows the marker after [u]. *)
Lemma marker_inside u rest :
  startsWith (u ++ closing_marker ++ rest) closing_marker
  = startsWith (u ++ closing_marker) closing_marker.
Proof.
  rewrite closing_marker_eq.
  destruct u as [|a [|b [|c [|d u]]]]; simpl; try reflexivity.
Qed.

Lemma lazy_upto_marker g u : forall pre rest st,
  exists rem,
    star_lazy is_any
      (run (GClose :: List.map Lit closing_marker)
         (mkCaptures (Some (pre ++ u ++ closing_marker ++ rest)) g))
      (u ++ closing_marker ++ rest) st
    = Some (rem, mkCaptures None (Some (pre ++ upto_marker u))).
Proof.
  induction u as [|a u IH]; intros pre rest st.
  - cbn [app upto_marker]. rewrite app_nil_r.
    exists rest. rewrite closing_marker_eq. cbn [app star_lazy].
    rewrite (run_GClose _ g st pre). reflexivity.
  - cbn [upto_marker]. rewrite <- (marker_inside (a :: u) rest).
    cbn [app star_lazy].
    change (pre ++ a :: u ++ closing_marker ++ rest)
      with (pre ++ (a :: u ++ closing_marker ++ rest)).
    rewrite (run_GClose _ g st pre), run_lits_eq.
    destruct (startsWith (a :: u ++ closing_marker ++ rest) closing_marker) eqn:Hs.
    + rewrite app_nil_r. eauto.
    + assert (Ha : is_any a = true) by (unfold is_any; destruct (is_space a); reflexivity).
      rewrite Ha.
      destruct (IH (pre ++ [a]) rest false) as [rem Hrem].
      rewrite <- !app_assoc in Hrem. cbn [app] in Hrem.
      exists rem. exact Hrem.
Qed.

(** The match of the frontmatter pattern on a document whose block begins
    with a character that is no white space. *)
Lemma match_frontmatter_block ws c block rest :
  Forall (fun c => is_space c = true) ws ->
  is_space c = false ->
  match_ re_frontmatter
    (js "---" ++ ws ++ [10] ++ (c :: block) ++ closing_marker ++ rest)
  = Some (Some (upto_marker (c :: block))).
Proof.
  intros Hws Hc. rewrite match_frontmatter_eq.
  assert (Hne : (10 =? c) = false).
  { apply N.eqb_neq. intros <-. discriminate. }
  destruct (lazy_upto_marker None (c :: block) [] rest false) as [rem Hrem].
  cbn [app] in Hrem.
  assert (Hrun : run alt_frontmatter no_captures true
                   (js "---" ++ ws ++ [10] ++ (c :: block) ++ closing_marker ++ rest)
                 = Some (rem, mkCaptures None (Some (upto_marker (c :: block))))).
  { unfold alt_frontmatter. rewrite run_Bol.
    apply run_lits. eexists. split; [reflexivity|].
    cbn [start_after js List.map list_ascii_of_string app]. rewrite run_Star.
    apply star_greedy; [exact Hws|].
    cbn [app star].
    replace (is_space 10) with true by reflexivity.
    rewrite Hc.
    replace (run _ no_captures false (c :: block ++ closing_marker ++ rest))
      with (@None outcome) by (cbn [run Lit]; rewrite Hne; reflexivity).
    cbn [run Lit]. rewrite N.eqb_refl.
    exact Hrem. }
  rewrite Hrun. reflexivity.
Qed.

(** ** The fields of a document of two fields *)

Lemma run_lits_fail l : forall tail caps start s,
  startsWith s l = false -> run (List.map Lit l ++ tail) caps start s = None.
Proof.
  induction l as [|a l IH]; intros tail caps start s H; [discriminate|].
  destruct s as [|b s]; [reflexivity|].
  cbn [List.map app run Lit]. cbn [startsWith] in H.
  destruct (a =? b); [apply IH; exact H | reflexivity].
Qed.

Lemma startsWith_before_line_feed l : forall b s,
  Forall (fun c => (c =? 10) = false) l ->
  startsWith b l = false -> startsWith (b ++ 10 :: s) l = false.
Proof.
  induction l as [|a l IH]; intros b s Hl H; [discriminate|].
  inversion Hl as [|? ? Ha Hl']; subst.
  destruct b as [|x b]; cbn [app startsWith] in *.
  - rewrite Ha. reflexivity.
  - destruct (a =? x); [apply IH; assumption | reflexivity].
Qed.

(** The search passes over a text in which the key does not occur. *)
Lemma search_passes l v : forall s start,
  l <> [] ->
  Forall (fun c => (c =? 10) = false) l ->
  occurs l v = false ->
  search [alt_field l] start (v ++ 10 :: s) = search [alt_field l] false s.
Proof.
  induction v as [|c v IH]; intros s start Hne Hl Ho.
  - cbn [app search run_alt]. unfold alt_field.
    rewrite run_lits_fail; [reflexivity|].
    destruct l as [|a l]; [congruence|]. inversion Hl as [|? ? Ha Hl']; subst.
    cbn [startsWith]. rewrite Ha. reflexivity.
  - cbn [occurs] in Ho. apply orb_false_iff in Ho. destruct Ho as [Hs Ho].
    cbn [app search run_alt]. unfold alt_field at 1.
    rewrite run_lits_fail; [apply IH; assumption|].
    apply (startsWith_before_line_feed l (c :: v) s Hl Hs).
Qed.

(** The value a field pattern reads at the key: the rest of the line after
    the white space. *)
Lemma run_field_line l ws c w rest start :
  Forall (fun c => is_space c = true) ws ->
  is_space c = false -> is_dot c = true ->
  Forall (fun c => is_dot c = true) w ->
  match rest with [] => True | d :: _ => is_dot d = false end ->
  run (alt_field l) no_captures start (l ++ ws ++ c :: w ++ rest)
  = Some (rest, mkCaptures None (Some (c :: w))).
Proof.
  intros Hws Hc Hd Hw Hrest. unfold alt_field.
  apply run_lits. eexists. split; [reflexivity|].
  rewrite run_Star. apply star_greedy; [exact Hws|].
  cbn [star]. rewrite Hc.
  rewrite run_GOpen. apply run_Plus. exists c, (w ++ rest).
  split; [reflexivity|]. split; [exact Hd|].
  apply star_greedy; [exact Hw|].
  change (c :: w ++ rest) with ((c :: w) ++ rest).
  destruct rest as [|d rest].
  - cbn [star]. rewrite run_GClose. reflexivity.
  - cbn [star]. rewrite Hrest. rewrite run_GClose. reflexivity.
Qed.

Lemma trimStart_split v :
  trimStart v <> [] ->
  exists ws c w, v = ws ++ c :: w /\ Forall (fun c => is_space c = true) ws
                 /\ is_space c = false /\ trimStart v = c :: w.
Proof.
  induction v as [|a v IH]; intros H; [exfalso; apply H; reflexivity|].
  cbn [trimStart] in *. destruct (is_space a) eqn:Ha.
  - destruct (IH H) as (ws & c & w & -> & Hws & Hc & Ht).
    exists (a :: ws), c, w. repeat split; auto.
  - exists [], a, v. repeat split; auto.
Qed.

Lemma trim_nonempty v : trim v <> [] -> trimStart v <> [].
Proof. unfold trim, trimEnd. intros H E. rewrite E in H. apply H. reflexivity. Qed.

Lemma upto_marker_line a : forall s,
  Forall (fun c => (c =? 10) = false) a ->
  upto_marker (a ++ s) = a ++ upto_marker s.
Proof.
  induction a as [|c a IH]; intros s H; [reflexivity|].
  inversion H as [|? ? Hc Ha]; subst.
  cbn [app upto_marker].
  replace (startsWith (c :: (a ++ s) ++ closing_marker) closing_marker) with false.
  - f_equal. apply IH, Ha.
  - rewrite closing_marker_eq. cbn [startsWith]. rewrite N.eqb_sym, Hc. reflexivity.
Qed.

Lemma one_line_dots v : one_line v -> Forall (fun c => is_dot c = true) v.
Proof.
  intros H. eapply Forall_impl; [|exact H].
  intros c Hc. unfold is_dot. cbv beta in Hc. rewrite Hc. reflexivity.
Qed.

Lemma one_line_lf v : one_line v -> Forall (fun c => (c =? 10) = false) v.
Proof.
  intros H. eapply Forall_impl; [|exact H].
  intros c Hc. cbv beta in Hc. unfold is_line_terminator in Hc.
  destruct (c =? 10); [discriminate | reflexivity].
Qed.

Lemma upto_marker_plain a :
  Forall (fun c => (c =? 10) = false) a -> upto_marker a = a.
Proof.
  intros H. pose proof (upto_marker_line a [] H) as E.
  rewrite app_nil_r in E. rewrite E. cbn [upto_marker]. apply app_nil_r.
Qed.

Lemma upto_marker_feed c s :
  (45 =? c) = false -> upto_marker (10 :: c :: s) = 10 :: upto_marker (c :: s).
Proof.
  intros H. cbn [upto_marker].
  replace (startsWith ((10 :: c :: s) ++ closing_marker) closing_marker) with false;
    [reflexivity|].
  rewrite closing_marker_eq. cbn [app startsWith]. rewrite H. reflexivity.
Qed.

(** The block of a document of two fields. *)
Lemma field_doc_block v :
  one_line v ->
  leading_block (field_doc v)
  = Some (js "name: " ++ v ++ [10] ++ js "description: " ++ v).
Proof.
  intros Hv. pose proof (one_line_lf v Hv) as Hlf.
  unfold leading_block, field_doc.
  replace (join [10] [js "---"; js "name: " ++ v; js "description: " ++ v; js "---"; js "# Body"])
    with (js "---" ++ [] ++ [10]
            ++ (110 :: (js "ame: " ++ v) ++ [10] ++ (js "description: " ++ v))
            ++ closing_marker ++ [10] ++ js "# Body").
  2:{ cbn [join]. unfold closing_marker.
      change (110 :: (js "ame: " ++ v) ++ [10] ++ js "description: " ++ v)
        with ((js "name: " ++ v) ++ [10] ++ js "description: " ++ v).
      rewrite <- !app_assoc. reflexivity. }
  rewrite match_frontmatter_block; [|constructor|reflexivity].
  cbv beta iota. f_equal.
  change (110 :: (js "ame: " ++ v) ++ [10] ++ js "description: " ++ v)
    with ((js "name: " ++ v) ++ 10 :: 100 :: (js "escription: " ++ v)).
  rewrite upto_marker_line.
  2:{ apply Forall_app. split; [repeat constructor | exact Hlf]. }
  rewrite (upto_marker_feed 100 (js "escription: " ++ v)) by reflexivity.
  rewrite (upto_marker_plain (100 :: js "escription: " ++ v)).
  - rewrite <- !app_assoc. reflexivity.
  - apply (Forall_app _ (js "description: ") v). split; [repeat constructor | exact Hlf].
Qed.

Lemma search_here pat start s rest caps :
  run_alt pat start s = Some (rest, caps) -> search pat start s = Some (group1 caps).
Proof. intros H. destruct s; cbn [search]; rewrite H; reflexivity. Qed.

Lemma occurs_mismatch a l c s :
  (a =? c) = false -> occurs (a :: l) (c :: s) = occurs (a :: l) s.
Proof. intros H. cbn [occurs startsWith]. rewrite H. reflexivity. Qed.

Lemma strip_quotes_name t : evenly_quoted t -> strip_name t = strip_quotes t.
Proof.
  intros H. rewrite (strip_rules_agree t H), strip_description_spec.
  unfold strip_quotes, slice_1_m1. unfold evenly_quoted in H. rewrite <- H.
  destruct (starts_with_quote t); reflexivity.
Qed.

Lemma strip_quotes_description t :
  evenly_quoted t -> strip_description t = strip_quotes t.
Proof.
  intros H. rewrite strip_description_spec.
  unfold strip_quotes, slice_1_m1. unfold evenly_quoted in H. rewrite <- H.
  destruct (starts_with_quote t); reflexivity.
Qed.

(** The raw values of a document of two fields: the value, from its first
    character that is no white space. *)
Lemma field_doc_values v :
  one_line v -> trim v <> [] -> occurs (js "description:") v = false ->
  exists raw,
    trim raw = trim v
    /\ match_ re_name (js "name: " ++ v ++ [10] ++ js "description: " ++ v)
       = Some (Some raw)
    /\ match_ re_description (js "name: " ++ v ++ [10] ++ js "description: " ++ v)
       = Some (Some raw).
Proof.
  intros Hv Hne Ho.
  destruct (trimStart_split v (trim_nonempty v Hne)) as (ws & c & w & E & Hws & Hc & Ht).
  pose proof (one_line_dots v Hv) as Hdots. rewrite E in Hdots.
  apply Forall_app in Hdots. destruct Hdots as [_ Hdots].
  inversion Hdots as [|? ? Hcd Hwd]. subst x l.
  exists (c :: w). split; [|split].
  - unfold trim. rewrite Ht. cbn [trimStart]. rewrite Hc. reflexivity.
  - rewrite re_name_field. unfold match_.
    assert (Hr : run (alt_field (js "name:")) no_captures true
                   (js "name:" ++ (32 :: ws) ++ c :: w ++ [10] ++ js "description: " ++ v)
                 = Some ([10] ++ js "description: " ++ v,
                         mkCaptures None (Some (c :: w)))).
    { apply run_field_line;
        [constructor; [reflexivity | exact Hws] | exact Hc | exact Hcd | exact Hwd
        | reflexivity]. }
    replace (js "name: " ++ v ++ [10] ++ js "description: " ++ v)
      with (js "name:" ++ (32 :: ws) ++ c :: w ++ [10] ++ js "description: " ++ v).
    2:{ rewrite E at 2. cbn [app js List.map list_ascii_of_string].
        rewrite <- !app_assoc. reflexivity. }
    eapply (search_here _ _ _ _ (mkCaptures None (Some (c :: w)))).
    cbn [run_alt]. rewrite Hr. reflexivity.
  - rewrite re_description_field. unfold match_.
    replace (js "name: " ++ v ++ [10] ++ js "description: " ++ v)
      with ((js "name: " ++ v) ++ 10 :: (js "description: " ++ v))
      by (rewrite <- !app_assoc; reflexivity).
    rewrite search_passes; [|discriminate|repeat constructor|].
    2:{ cbn [js List.map list_ascii_of_string app].
        rewrite !occurs_mismatch by reflexivity. exact Ho. }
    assert (Hr : run (alt_field (js "description:")) no_captures false
                   (js "description:" ++ (32 :: ws) ++ c :: w ++ [])
                 = Some ([], mkCaptures None (Some (c :: w)))).
    { apply run_field_line;
        [constructor; [reflexivity | exact Hws] | exact Hc | exact Hcd | exact Hwd
        | exact I]. }
    replace (js "description: " ++ v)
      with (js "description:" ++ (32 :: ws) ++ c :: w ++ [])
      by (rewrite E, app_nil_r; reflexivity).
    eapply (search_here _ _ _ _ (mkCaptures None (Some (c :: w)))).
    cbn [run_alt]. rewrite Hr. reflexivity.
Qed.

(** C1, as the code has it: a field whose trimmed raw value has a quote
    character at both ends or at neither is that value without the quote
    characters that surround it, by one rule for the name and for the
    description.  In particular a block that declares [name: v] and
    [description: v], for a value [v] on one line that is not only white space
    and does not hold the text [description:], gives a name and a description
    that are equal.  A value with a quote character at one end only is not
    covered. *)
Theorem name_description_same_rule :
  (forall content block vn vd,
      leading_block content = Some block ->
      match_ re_name block = Some (Some vn) ->
      match_ re_description block = Some (Some vd) ->
      exists fm,
        extractFrontmatter content = Ok fm
        /\ (evenly_quoted (trim vn) -> fm_name fm = Some (strip_quotes (trim vn)))
        /\ (evenly_quoted (trim vd) ->
            fm_description fm = Some (strip_quotes (trim vd))))
  /\ (forall v,
        one_line v -> trim v <> [] -> occurs (js "description:") v = false ->
        evenly_quoted (trim v) ->
        extractFrontmatter (field_doc v)
        = Ok (mkFrontmatter (Some (strip_quotes (trim v)))
                (Some (strip_quotes (trim v))))).
Proof.
  assert (HA : forall content block vn vd,
      leading_block content = Some block ->
      match_ re_name block = Some (Some vn) ->
      match_ re_description block = Some (Some vd) ->
      exists fm,
        extractFrontmatter content = Ok fm
        /\ (evenly_quoted (trim vn) -> fm_name fm = Some (strip_quotes (trim vn)))
        /\ (evenly_quoted (trim vd) ->
            fm_description fm = Some (strip_quotes (trim vd)))).
  { intros content block vn vd Hb Hn Hd.
    destruct (extractFrontmatter_block _ _ Hb) as (fm & Hfm & Hname & Hdesc).
    exists fm. rewrite Hn in Hname. rewrite Hd in Hdesc. cbv zeta in Hdesc.
    fold (strip_description (trim vd)) in Hdesc. fold (strip_name (trim vn)) in Hname.
    split; [exact Hfm|]. split.
    - intros Hq. rewrite Hname, (strip_quotes_name _ Hq). reflexivity.
    - intros Hq. rewrite <- (strip_quotes_description _ Hq), Hdesc.
      unfold strip_description. destruct (truthy (trim vd) && _); reflexivity. }
  split; [exact HA|].
  intros v Hv Hne Ho Hq.
  destruct (field_doc_values v Hv Hne Ho) as (raw & Hraw & Hn & Hd).
  destruct (HA _ _ _ _ (field_doc_block v Hv) Hn Hd) as (fm & Hfm & H1 & H2).
  rewrite Hraw in H1, H2. rewrite Hfm.
  destruct fm as [n d]. cbn [fm_name fm_description] in H1, H2.
  rewrite (H1 Hq), (H2 Hq). reflexivity.
Qed.


Lemma name_description_same_rule_witness :
  extractFrontmatter (field_doc ([34] ++ js " does bar " ++ [34] ++ js "  "))
  = Ok (mkFrontmatter
          (Some (strip_quotes (trim ([34] ++ js " does bar " ++ [34] ++ js "  "))))
          (Some (strip_quotes (trim ([34] ++ js " does bar " ++ [34] ++ js "  "))))).
Proof.
  apply (proj2 name_description_same_rule ([34] ++ js " does bar " ++ [34] ++ js "  ")).
  - vm_compute. repeat constructor.
  - vm_compute. discriminate.
  - vm_compute. reflexivity.
  - vm_compute. reflexivity.
Defined.

(** C1 fails as stated: a value that ends with a quote character but does
    not begin with one loses the quote in the name and keeps it in the
    description. *)
Lemma description_rule_differs :
  exists fm,
    extractFrontmatter (field_doc (js "say " ++ [34] ++ js "hi" ++ [34])) = Ok fm
    /\ fm_name fm = Some (js "say " ++ [34] ++ js "hi")
    /\ fm_description fm = Some (js "say " ++ [34] ++ js "hi" ++ [34])
    /\ fm_name fm <> fm_description fm.
Proof.
  eexists. split; [vm_compute; reflexivity|].
  repeat split; discriminate.
Qed.

(** A value that holds the text [description:] is read in part: the
    description pattern finds the key inside the line of the name. *)
Lemma value_holding_a_key_differs :
  extractFrontmatter (field_doc (js "a description: b"))
  = Ok (mkFrontmatter (Some (js "a description: b")) (Some (js "b"))).
Proof. vm_compute. reflexivity. Qed.

(** ** Objects *)

Module JSObjectFacts.
Import JSObject.

Section Facts.
Context {V : Type}.
Implicit Types (o : obj V) (k : jsstring) (v : V).

Lemma get_define_same o k v : get (define o k v) k = Some v.
Proof.
  induction o as [|[k' v'] o IH]; simpl.
  - rewrite jsstring_eqb_refl. reflexivity.
  - destruct (jsstring_eqb k' k) eqn:E; simpl.
    + rewrite jsstring_eqb_refl. reflexivity.
    + rewrite E. exact IH.
Qed.

Lemma get_define_other o k v k' : k' <> k -> get (define o k v) k' = get o k'.
Proof.
  intros Hne. induction o as [|[k0 v0] o IH]; simpl.
  - apply jsstring_eqb_neq in Hne.
    destruct (jsstring_eqb k k') eqn:E; [|reflexivity].
    apply jsstring_eqb_eq in E. apply jsstring_eqb_neq in Hne. congruence.
  - destruct (jsstring_eqb k0 k) eqn:E; simpl.
    + apply jsstring_eqb_eq in E. subst k0.
      destruct (jsstring_eqb k k') eqn:E'; [|reflexivity].
      apply jsstring_eqb_eq in E'. congruence.
    + rewrite IH. reflexivity.
Qed.

Lemma keys_define o k v :
  List.map fst (define o k v)
  = if existsb (jsstring_eqb k) (List.map fst o) then List.map fst o
    else List.map fst o ++ [k].
Proof.
  induction o as [|[k' v'] o IH]; simpl; [reflexivity|].
  destruct (jsstring_eqb k' k) eqn:E.
  - apply jsstring_eqb_eq in E. subst k'. rewrite jsstring_eqb_refl. reflexivity.
  - simpl. rewrite IH.
    assert (jsstring_eqb k k' = false) as ->.
    { apply jsstring_eqb_neq. apply jsstring_eqb_neq in E. congruence. }
    simpl. destruct (existsb _ _); reflexivity.
Qed.

Lemma existsb_key_In k l : existsb (jsstring_eqb k) l = true <-> In k l.
Proof.
  rewrite existsb_exists. split.
  - intros (x & Hx & E). apply jsstring_eqb_eq in E. subst. exact Hx.
  - intros H. exists k. split; [exact H | apply jsstring_eqb_refl].
Qed.

Lemma NoDup_keys_define o k v :
  NoDup (List.map fst o) -> NoDup (List.map fst (define o k v)).
Proof.
  intros H. rewrite keys_define.
  destruct (existsb _ _) eqn:E; [exact H|].
  apply NoDup_app; [exact H | repeat constructor; intros [] | ].
  intros x Hx [<-|[]]. apply existsb_key_In in Hx. congruence.
Qed.

Lemma In_keys_define o k v k' :
  In k' (List.map fst (define o k v)) <-> k' = k \/ In k' (List.map fst o).
Proof.
  rewrite keys_define. destruct (existsb _ _) eqn:E.
  - apply existsb_key_In in E. split; [auto | intros [->|H]; auto].
  - rewrite in_app_iff. simpl. split; [intros [H|[<-|[]]]; auto | intros [->|H]; auto].
Qed.

Lemma get_Some_In o k v : get o k = Some v -> In (k, v) o.
Proof.
  induction o as [|[k' v'] o IH]; simpl; [discriminate|].
  destruct (jsstring_eqb k' k) eqn:E.
  - apply jsstring_eqb_eq in E. subst. intros H. inversion H. auto.
  - auto.
Qed.

Lemma In_get o k v : NoDup (List.map fst o) -> In (k, v) o -> get o k = Some v.
Proof.
  induction o as [|[k' v'] o IH]; simpl; [intros _ []|].
  intros Hnd [H|H].
  - inversion H; subst. rewrite jsstring_eqb_refl. reflexivity.
  - inversion Hnd; subst. destruct (jsstring_eqb k' k) eqn:E.
    + apply jsstring_eqb_eq in E. subst k'. exfalso. apply H2.
      apply (in_map fst) in H. exact H.
    + auto.
Qed.

Lemma get_None_keys o k : get o k = None <-> ~ In k (List.map fst o).
Proof.
  induction o as [|[k' v'] o IH]; simpl.
  - split; [intros _ [] | reflexivity].
  - destruct (jsstring_eqb k' k) eqn:E.
    + apply jsstring_eqb_eq in E. split; [discriminate | intros H; exfalso; auto].
    + apply jsstring_eqb_neq in E. rewrite IH. split; [intros H [H'|H']; auto | auto].
Qed.

(** Every property of the object after a definition is the new one or an
    old one under another key. *)
Lemma In_define o k v k' v' :
  NoDup (List.map fst o) ->
  In (k', v') (define o k v) -> (k' = k /\ v' = v) \/ (k' <> k /\ In (k', v') o).
Proof.
  intros Hnd Hin.
  apply In_get in Hin; [|apply NoDup_keys_define; exact Hnd].
  destruct (list_eq_dec N.eq_dec k' k) as [->|Hne].
  - rewrite get_define_same in Hin. inversion Hin. auto.
  - rewrite get_define_other in Hin by exact Hne.
    right. split; [exact Hne | apply get_Some_In; exact Hin].
Qed.

Lemma define_fresh o k v :
  ~ In k (List.map fst o) -> define o k v = o ++ [(k, v)].
Proof.
  induction o as [|[k' v'] o IH]; simpl; [reflexivity|].
  intros H. destruct (jsstring_eqb k' k) eqn:E.
  - apply jsstring_eqb_eq in E. exfalso. auto.
  - rewrite IH by auto. reflexivity.
Qed.

Lemma insert_by_index_perm (p : jsstring * V) l :
  Permutation (insert_by_index p l) (p :: l).
Proof.
  induction l as [|q l IH]; simpl; [reflexivity|].
  destruct (index_of (fst p) <=? index_of (fst q)); [reflexivity|].
  rewrite IH. apply perm_swap.
Qed.

Lemma sort_by_index_perm (l : list (jsstring * V)) :
  Permutation (sort_by_index l) l.
Proof.
  induction l as [|p l IH]; simpl; [reflexivity|].
  rewrite insert_by_index_perm, IH. reflexivity.
Qed.

Lemma filter_partition_perm {A} (f : A -> bool) (l : list A) :
  Permutation (filter f l ++ filter (fun x => negb (f x)) l) l.
Proof.
  induction l as [|a l IH]; simpl; [reflexivity|].
  destruct (f a); simpl.
  - rewrite IH. reflexivity.
  - rewrite <- Permutation_middle, IH. reflexivity.
Qed.

(** [Object.entries] lists every own property once. *)
Lemma entries_perm o : Permutation (entries o) o.
Proof.
  unfold entries. rewrite sort_by_index_perm. apply filter_partition_perm.
Qed.

Lemma keys_perm o : Permutation (keys o) (List.map fst o).
Proof. unfold keys. apply Permutation_map, entries_perm. Qed.

Lemma values_perm o : Permutation (values o) (List.map snd o).
Proof. unfold values. apply Permutation_map, entries_perm. Qed.

Lemma In_entries o k v : In (k, v) (entries o) <-> In (k, v) o.
Proof.
  split; apply Permutation_in; [apply entries_perm | symmetry; apply entries_perm].
Qed.

Lemma NoDup_keys_entries o :
  NoDup (List.map fst o) -> NoDup (List.map fst (entries o)).
Proof.
  intros H. eapply Permutation_NoDup; [|exact H].
  symmetry. apply keys_perm.
Qed.

End Facts.

Lemma fromEntries_app {V} (l : list (jsstring * V)) : forall acc,
  NoDup (List.map fst (acc ++ l)) ->
  fold_left (fun o p => define o (fst p) (snd p)) l acc = acc ++ l.
Proof.
  induction l as [|[k v] l IH]; intros acc H; simpl.
  - rewrite app_nil_r. reflexivity.
  - rewrite define_fresh.
    + rewrite IH; rewrite <- app_assoc; [reflexivity | exact H].
    + rewrite map_app in H. simpl in H. apply NoDup_remove_2 in H.
      intros Hin. apply H. apply in_or_app. auto.
Qed.

(** [Object.fromEntries] of entries with distinct keys keeps them as they are. *)
Lemma fromEntries_NoDup {V} (l : list (jsstring * V)) :
  NoDup (List.map fst l) -> fromEntries l = l.
Proof. intros H. unfold fromEntries. rewrite fromEntries_app; auto. Qed.

End JSObjectFacts.

(** ** The builder's loops *)

Import JSObjectFacts.

Lemma skill_step_record byName d :
  skill_step byName d
  = (r <- skill_record d ;;
     Ok match r with
        | Some rec => JSObject.set byName (sr_name rec) rec
        | None => byName
        end)%result.
Proof.
  unfold skill_step, skill_record, existsSync.
  destruct (snd d) as [|children]; [reflexivity|].
  destruct (lookup SKILL_md children) as [x|]; [|reflexivity].
  cbn [negb]. destruct (readFileSync (Some x)) as [text|e]; [|reflexivity].
  cbn [bind]. destruct (extractFrontmatter text) as [fm|e]; [|reflexivity].
  cbn [bind]. destruct (lookup REFERENCE_md children) as [r|]; [|reflexivity].
  destruct (readFileSync (Some r)); reflexivity.
Qed.

Lemma subagent_step_record dir byName f :
  subagent_step dir byName f
  = (rec <- subagent_record dir f ;;
     Ok (JSObject.set byName (ar_name rec) rec))%result.
Proof.
  unfold subagent_step, subagent_record.
  destruct (readFileSync (lookup f dir)) as [text|e]; [|reflexivity].
  cbn [bind]. destruct (extractFrontmatter text) as [fm|e]; reflexivity.
Qed.

Lemma for_of_app {A S} (body : S -> A -> result S) l1 l2 s :
  for_of body (l1 ++ l2) s = (s1 <- for_of body l1 s ;; for_of body l2 s1)%result.
Proof.
  revert s. induction l1 as [|a l1 IH]; intros s; simpl; [reflexivity|].
  destruct (body s a); simpl; auto.
Qed.

(** What one assignment does to the own properties. *)
Section SetFacts.
Context {V : Type}.
Implicit Types (o : JSObject.obj V).

Lemma set_NoDup o k v :
  NoDup (List.map fst o) -> NoDup (List.map fst (JSObject.set o k v)).
Proof.
  intros H. unfold JSObject.set. destruct (jsstring_eqb k _); [exact H|].
  apply NoDup_keys_define. exact H.
Qed.

Lemma get_set_same o k v :
  k <> proto -> JSObject.get (JSObject.set o k v) k = Some v.
Proof.
  intros H. unfold JSObject.set.
  apply jsstring_eqb_neq in H. fold proto. rewrite H. apply get_define_same.
Qed.

Lemma get_set_other o k v k' :
  k' <> k -> JSObject.get (JSObject.set o k v) k' = JSObject.get o k'.
Proof.
  intros H. unfold JSObject.set. destruct (jsstring_eqb k _); [reflexivity|].
  apply get_define_other. exact H.
Qed.

Lemma In_set o k v k' v' :
  NoDup (List.map fst o) ->
  In (k', v') (JSObject.set o k v) ->
  (k' = k /\ v' = v /\ k <> proto) \/ In (k', v') o.
Proof.
  intros Hnd. unfold JSObject.set. fold proto.
  destruct (jsstring_eqb k proto) eqn:E; [auto|].
  intros H. apply In_define in H; [|exact Hnd].
  apply jsstring_eqb_neq in E. tauto.
Qed.

End SetFacts.

Section Filing.
Context {V : Type} (name : V -> jsstring).
Implicit Types (o : JSObject.obj V) (rs : list V).

Lemma file_all_app rs1 rs2 o :
  file_all name (rs1 ++ rs2) o = file_all name rs2 (file_all name rs1 o).
Proof. apply fold_left_app. Qed.

Lemma file_all_NoDup rs : forall o,
  NoDup (List.map fst o) -> NoDup (List.map fst (file_all name rs o)).
Proof.
  induction rs as [|r rs IH]; intros o H; simpl; [exact H|].
  apply IH, set_NoDup, H.
Qed.

Lemma file_all_In rs : forall o k v,
  NoDup (List.map fst o) ->
  In (k, v) (file_all name rs o) ->
  In (k, v) o \/ (In v rs /\ k = name v /\ k <> proto).
Proof.
  induction rs as [|r rs IH]; intros o k v Hnd H; simpl in *; [auto|].
  apply IH in H; [|apply set_NoDup; exact Hnd].
  destruct H as [H|(H1 & H2 & H3)]; [|auto].
  apply In_set in H; [|exact Hnd].
  destruct H as [(-> & -> & Hp)|H]; auto.
Qed.

Lemma file_all_named rs o :
  NoDup (List.map fst o) -> named name o -> named name (file_all name rs o).
Proof.
  intros Hnd Hn k v H. apply file_all_In in H; [|exact Hnd].
  destruct H as [H|(_ & -> & _)]; [apply Hn; exact H | reflexivity].
Qed.

Lemma file_all_get_other rs n : forall o,
  (forall r, In r rs -> name r <> n) ->
  JSObject.get (file_all name rs o) n = JSObject.get o n.
Proof.
  induction rs as [|r rs IH]; intros o H; simpl; [reflexivity|].
  rewrite IH by (intros; apply H; simpl; auto).
  apply get_set_other. intros E. apply (H r); simpl; auto.
Qed.

(** Last write wins. *)
Lemma file_all_get_last pre r post n o :
  name r = n -> n <> proto ->
  (forall r', In r' post -> name r' <> n) ->
  JSObject.get (file_all name (pre ++ r :: post) o) n = Some r.
Proof.
  intros Hn Hp Hpost. rewrite file_all_app. simpl.
  rewrite file_all_get_other by exact Hpost.
  subst n. apply get_set_same. exact Hp.
Qed.

End Filing.

Lemma for_of_skill_step l : forall o o',
  for_of skill_step l o = Ok o' ->
  exists rs, Forall2 (fun d r => skill_record d = Ok r) l rs
             /\ o' = file_all sr_name (somes rs) o.
Proof.
  induction l as [|d l IH]; intros o o' H; simpl in H.
  - inversion H. exists []. split; [constructor | reflexivity].
  - rewrite skill_step_record in H.
    destruct (skill_record d) as [r|e] eqn:Hr; [|discriminate].
    cbn [bind] in H. apply IH in H. destruct H as (rs & Hrs & ->).
    exists (r :: rs). split; [constructor; assumption|].
    destruct r; reflexivity.
Qed.

Lemma for_of_subagent_step dir l : forall o o',
  for_of (subagent_step dir) l o = Ok o' ->
  exists rs, Forall2 (fun f r => subagent_record dir f = Ok r) l rs
             /\ o' = file_all ar_name rs o.
Proof.
  induction l as [|f l IH]; intros o o' H; simpl in H.
  - inversion H. exists []. split; [constructor | reflexivity].
  - rewrite subagent_step_record in H.
    destruct (subagent_record dir f) as [r|e] eqn:Hr; [|discriminate].
    cbn [bind] in H. apply IH in H. destruct H as (rs & Hrs & ->).
    exists (r :: rs). split; [constructor; assumption | reflexivity].
Qed.

(** ** The bundle *)

Lemma map_entries_NoDup {V W} (f : V -> W) (o : JSObject.obj V) :
  NoDup (List.map fst o) ->
  map_entries f o = List.map (fun kv => (fst kv, f (snd kv))) (JSObject.entries o).
Proof.
  intros H. unfold map_entries. apply fromEntries_NoDup.
  rewrite map_map. simpl. apply NoDup_keys_entries. exact H.
Qed.

Lemma keys_map_entries {V W} (f : V -> W) (o : JSObject.obj V) :
  NoDup (List.map fst o) ->
  List.map fst (map_entries f o) = List.map fst (JSObject.entries o).
Proof.
  intros H. rewrite map_entries_NoDup by exact H. rewrite map_map. reflexivity.
Qed.

Lemma get_map_entries {V W} (f : V -> W) (o : JSObject.obj V) k :
  NoDup (List.map fst o) ->
  JSObject.get (map_entries f o) k = option_map f (JSObject.get o k).
Proof.
  intros H.
  assert (Hnd : NoDup (List.map fst (map_entries f o))).
  { rewrite keys_map_entries by exact H. apply NoDup_keys_entries. exact H. }
  destruct (JSObject.get o k) as [v|] eqn:Hg; simpl.
  - apply In_get; [exact Hnd|].
    rewrite map_entries_NoDup by exact H.
    apply get_Some_In in Hg. apply (proj2 (In_entries _ _ _)) in Hg.
    apply (in_map (fun kv => (fst kv, f (snd kv)))) in Hg. exact Hg.
  - apply get_None_keys. rewrite keys_map_entries by exact H.
    apply get_None_keys in Hg. intros Hin. apply Hg.
    eapply Permutation_in; [apply keys_perm | exact Hin].
Qed.

Lemma output_inv input bundle :
  output input = Ok bundle ->
  exists sd sa,
    buildSkills (ROOT input) = Ok sd
    /\ buildSubagents (ROOT input) = Ok sa
    /\ skills bundle = sd_skills sd
    /\ subagents bundle = sd_subagents sa
    /\ c_skills (content bundle)
       = map_entries (fun v => mkSkillContent (sr_content v) (sr_reference v)) (sd_byName sd)
    /\ c_subagents (content bundle)
       = map_entries (fun v => mkSubagentContent (ar_content v)) (sa_byName sa).
Proof.
  unfold output.
  destruct (buildSkills (ROOT input)) as [sd|]; [|discriminate].
  destruct (buildSubagents (ROOT input)) as [sa|]; [|discriminate].
  cbn [bind].
  destruct (readWhenToUse (ROOT input)); [|discriminate].
  destruct (buildOverview input); [|discriminate].
  cbn [bind]. intros H. inversion H; subst. exists sd, sa. cbn. auto 10.
Qed.

Lemma buildSkills_inv root sd :
  buildSkills root = Ok sd ->
  (lookup (js "skills") root = None /\ sd = mkSkillsData [] [])
  \/ (exists es rs,
        lookup (js "skills") root = Some (Dir es)
        /\ Forall2 (fun d r => skill_record d = Ok r) (filter isDirectory es) rs
        /\ sd_byName sd = file_all sr_name (somes rs) []
        /\ sd_skills sd = List.map skill_meta (JSObject.values (sd_byName sd))).
Proof.
  unfold buildSkills, existsSync.
  destruct (lookup (js "skills") root) as [[text|es]|] eqn:Hl; cbn [negb readdirSync bind].
  - discriminate.
  - destruct (for_of skill_step (filter isDirectory es) []) as [o|] eqn:Hf; [|discriminate].
    cbn [bind]. intros H. inversion H; subst. right.
    apply for_of_skill_step in Hf. destruct Hf as (rs & Hrs & ->).
    exists es, rs. auto.
  - intros H. inversion H. auto.
Qed.

Lemma buildSubagents_inv root sa :
  buildSubagents root = Ok sa ->
  (lookup (js "subagents") root = None /\ sa = mkSubagentsData [] [])
  \/ (exists es rs,
        lookup (js "subagents") root = Some (Dir es)
        /\ Forall2 (fun f r => subagent_record es f = Ok r)
             (filter (fun f => endsWith f (js ".md")) (List.map fst es)) rs
        /\ sa_byName sa = file_all ar_name rs []
        /\ sd_subagents sa = List.map subagent_meta (JSObject.values (sa_byName sa))).
Proof.
  unfold buildSubagents, existsSync.
  destruct (lookup (js "subagents") root) as [[text|es]|] eqn:Hl; cbn [negb readdirSync bind].
  - discriminate.
  - destruct (for_of (subagent_step es) _ []) as [o|] eqn:Hf; [|discriminate].
    cbn [bind]. intros H. inversion H; subst. right.
    apply for_of_subagent_step in Hf. destruct Hf as (rs & Hrs & ->).
    exists es, rs. auto.
  - intros H. inversion H. auto.
Qed.

(** The name-keyed maps have distinct keys, and every record is filed under
    its own name. *)
Lemma buildSkills_wf root sd :
  buildSkills root = Ok sd ->
  NoDup (List.map fst (sd_byName sd)) /\ named sr_name (sd_byName sd).
Proof.
  intros H. apply buildSkills_inv in H.
  destruct H as [[_ ->]|(es & rs & _ & _ & -> & _)].
  - split; [constructor | intros k v []].
  - split; [apply file_all_NoDup; constructor|].
    apply file_all_named; [constructor | intros k v []].
Qed.

Lemma buildSubagents_wf root sa :
  buildSubagents root = Ok sa ->
  NoDup (List.map fst (sa_byName sa)) /\ named ar_name (sa_byName sa).
Proof.
  intros H. apply buildSubagents_inv in H.
  destruct H as [[_ ->]|(es & rs & _ & _ & -> & _)].
  - split; [constructor | intros k v []].
  - split; [apply file_all_NoDup; constructor|].
    apply file_all_named; [constructor | intros k v []].
Qed.

Lemma skill_record_Some d r :
  skill_record d = Ok (Some r) ->
  exists children text fm ref,
    snd d = Dir children
    /\ lookup SKILL_md children = Some (File text)
    /\ extractFrontmatter text = Ok fm
    /\ r = mkSkillRecord (fst d) (or_else (fm_name fm) (fst d))
             (or_else (fm_description fm) []) text ref
    /\ ((lookup REFERENCE_md children = None /\ ref = None)
        \/ (exists t, lookup REFERENCE_md children = Some (File t) /\ ref = Some t)).
Proof.
  unfold skill_record.
  destruct (snd d) as [|children]; [discriminate|].
  destruct (lookup SKILL_md children) as [[text|]|] eqn:Hs; try discriminate.
  cbn [readFileSync bind].
  destruct (extractFrontmatter text) as [fm|] eqn:Hf; [|discriminate].
  cbn [bind].
  destruct (lookup REFERENCE_md children) as [[t|]|] eqn:Hr; cbn [readFileSync bind];
    try discriminate; intros H; inversion H; subst;
    exists children, text, fm; eexists;
    (split; [reflexivity|]); (split; [exact Hs|]); (split; [exact Hf|]);
    (split; [reflexivity|]); eauto.
Qed.

Lemma somes_In {A V} (P : A -> option V -> Prop) l rs r :
  Forall2 P l rs -> In r (somes rs) -> exists d, In d l /\ P d (Some r).
Proof.
  induction 1 as [|d o l rs Hd Hrs IH]; simpl; [intros []|].
  rewrite in_app_iff. intros [H|H].
  - destruct o as [v|]; simpl in H; [|contradiction].
    destruct H as [->|[]]. exists d. auto.
  - destruct (IH H) as (d' & Hin & HP). exists d'. auto.
Qed.

Lemma Forall2_In_r {A B} (P : A -> B -> Prop) l rs r :
  Forall2 P l rs -> In r rs -> exists d, In d l /\ P d r.
Proof.
  induction 1 as [|d o l rs Hd Hrs IH]; simpl; [intros []|].
  intros [->|H]; [exists d; auto|].
  destruct (IH H) as (d' & Hin & HP). exists d'. auto.
Qed.

Lemma NoDup_fst_In {A B} (l : list (A * B)) a b b' :
  NoDup (List.map fst l) -> In (a, b) l -> In (a, b') l -> b = b'.
Proof.
  induction l as [|[a0 b0] l IH]; simpl; [intros _ []|].
  intros Hnd H1 H2. inversion Hnd; subst.
  destruct H1 as [H1|H1], H2 as [H2|H2].
  - congruence.
  - inversion H1; subst. exfalso. apply H3. apply (in_map fst) in H2. exact H2.
  - inversion H2; subst. exfalso. apply H3. apply (in_map fst) in H1. exact H1.
  - eauto.
Qed.

(** Every listed skill comes from a record of the name-keyed map. *)
Lemma skills_from_records sd m :
  sd_skills sd = List.map skill_meta (JSObject.values (sd_byName sd)) ->
  In m (sd_skills sd) ->
  exists k r, In (k, r) (sd_byName sd) /\ m = skill_meta r.
Proof.
  intros -> H. apply in_map_iff in H. destruct H as (r & <- & H).
  unfold JSObject.values in H. apply in_map_iff in H. destruct H as ([k r'] & <- & H).
  apply (proj1 (In_entries _ _ _)) in H. exists k, r'. split; [exact H | reflexivity].
Qed.

Lemma to_boolean_true a :
  to_boolean a = true <-> exists text, a = Some text /\ text <> [].
Proof.
  destruct a as [[|c s]|]; simpl; split; try discriminate.
  - intros (t & H & Hne). inversion H; subst. congruence.
  - intros _. exists (c :: s). split; [reflexivity | discriminate].
  - reflexivity.
  - intros (t & H & _). discriminate.
Qed.

(** C5, as the code has it: a listed skill has the flag [hasReference]
    exactly when the directory it was read from holds a reference document
    that is not empty. *)
Theorem hasReference_iff_nonempty_reference :
  forall input bundle es,
    output input = Ok bundle ->
    lookup (js "skills") (ROOT input) = Some (Dir es) ->
    NoDup (List.map fst es) ->
    forall m, In m (skills bundle) ->
      (exists children, In (sm_id m, Dir children) es
                        /\ existsSync SKILL_md children = true)
      /\ (forall children, In (sm_id m, Dir children) es ->
            (sm_hasReference m = true <->
             exists text, lookup REFERENCE_md children = Some (File text)
                          /\ text <> [])).
Proof.
  intros input bundle es Hout Hes Hnd m Hm.
  destruct (output_inv _ _ Hout) as (sd & sa & Hsd & _ & Hskills & _).
  rewrite Hskills in Hm.
  destruct (buildSkills_inv _ _ Hsd) as [[Hnone _]|(es' & rs & Hes' & Hrs & Hby & Hsk)];
    [congruence|].
  assert (es' = es) by congruence. subst es'.
  destruct (skills_from_records _ _ Hsk Hm) as (k & r & Hin & ->).
  rewrite Hby in Hin. apply file_all_In in Hin; [|constructor].
  destruct Hin as [[]|(Hr & _ & _)].
  destruct (somes_In _ _ _ _ Hrs Hr) as (d & Hd & Hrec).
  apply filter_In in Hd. destruct Hd as [Hd _].
  destruct (skill_record_Some _ _ Hrec) as (children & text & fm & ref & Hdir & Hskill & _ & -> & Href).
  destruct d as [id x]. simpl in Hdir. subst x. cbn [skill_meta sr_id sr_reference sm_id sm_hasReference fst].
  split.
  - exists children. split; [exact Hd|]. unfold existsSync. rewrite Hskill. reflexivity.
  - intros children' Hin'.
    assert (Dir children' = Dir children) as E by (eapply NoDup_fst_In; eauto).
    inversion E; subst children'.
    rewrite to_boolean_true.
    destruct Href as [[Hn ->]|(t & Ht & ->)].
    + rewrite Hn. split; intros (t & H & _); discriminate.
    + rewrite Ht. split; intros (t' & H & Hne); inversion H; subst; eauto.
Qed.

(** C6, as the code has it: every listed name has its entry in the content
    maps, and a listed skill has the flag [hasReference] exactly when the
    reference of its entry is neither null nor empty. *)
Theorem metadata_has_content :
  forall input bundle,
    output input = Ok bundle ->
    (forall m, In m (skills bundle) ->
       exists c, JSObject.get (c_skills (content bundle)) (sm_name m) = Some c
                 /\ (sm_hasReference m = true <->
                     exists text, sc_reference c = Some text /\ text <> []))
    /\ (forall m, In m (subagents bundle) ->
          exists c, JSObject.get (c_subagents (content bundle)) (am_name m) = Some c).
Proof.
  intros input bundle Hout.
  destruct (output_inv _ _ Hout) as (sd & sa & Hsd & Hsa & Hskills & Hsubs & Hcs & Hca).
  destruct (buildSkills_wf _ _ Hsd) as [Hnd Hnamed].
  destruct (buildSubagents_wf _ _ Hsa) as [Hnd' Hnamed'].
  split.
  - intros m Hm. rewrite Hskills in Hm.
    assert (Hsk : sd_skills sd = List.map skill_meta (JSObject.values (sd_byName sd))).
    { destruct (buildSkills_inv _ _ Hsd) as [[_ ->]|(_ & _ & _ & _ & _ & H)]; auto. }
    destruct (skills_from_records _ _ Hsk Hm) as (k & r & Hin & ->).
    pose proof (Hnamed _ _ Hin) as Hk.
    exists (mkSkillContent (sr_content r) (sr_reference r)).
    rewrite Hcs, get_map_entries by exact Hnd.
    cbn [skill_meta sm_name sm_hasReference sc_reference]. rewrite Hk.
    rewrite (In_get _ _ _ Hnd Hin). split; [reflexivity | apply to_boolean_true].
  - intros m Hm. rewrite Hsubs in Hm.
    assert (Hsk : sd_subagents sa = List.map subagent_meta (JSObject.values (sa_byName sa))).
    { destruct (buildSubagents_inv _ _ Hsa) as [[_ ->]|(_ & _ & _ & _ & _ & H)]; auto. }
    rewrite Hsk in Hm. apply in_map_iff in Hm. destruct Hm as (r & <- & Hm).
    unfold JSObject.values in Hm. apply in_map_iff in Hm. destruct Hm as ([k r'] & <- & Hm).
    apply (proj1 (In_entries _ _ _)) in Hm. pose proof (Hnamed' _ _ Hm) as Hk.
    exists (mkSubagentContent (ar_content r')).
    rewrite Hca, get_map_entries by exact Hnd'.
    cbn [subagent_meta am_name snd]. rewrite Hk.
    rewrite (In_get _ _ _ Hnd' Hm). reflexivity.
Qed.

(** ** Last write wins *)

Lemma somes_app {V} (a b : list (option V)) : somes (a ++ b) = somes a ++ somes b.
Proof. unfold somes. apply flat_map_app. Qed.

Lemma skill_record_isDirectory d r :
  skill_record d = Ok (Some r) -> isDirectory d = true.
Proof.
  unfold skill_record, isDirectory. destruct (snd d); [discriminate | reflexivity].
Qed.

(** The record of the last directory filed under a name is the one the map
    holds for that name. *)
Lemma skills_last_wins root sd es pre d post rec :
  buildSkills root = Ok sd ->
  lookup (js "skills") root = Some (Dir es) ->
  es = pre ++ d :: post ->
  skill_record d = Ok (Some rec) ->
  sr_name rec <> proto ->
  (forall d' r', In d' post -> skill_record d' = Ok (Some r') -> sr_name r' <> sr_name rec) ->
  JSObject.get (sd_byName sd) (sr_name rec) = Some rec.
Proof.
  intros Hsd Hes -> Hrec Hp Hpost.
  destruct (buildSkills_inv _ _ Hsd) as [[Hnone _]|(es' & rs & Hes' & Hrs & Hby & _)];
    [congruence|].
  assert (es' = pre ++ d :: post) by congruence. subst es'.
  rewrite filter_app in Hrs. cbn [filter] in Hrs.
  rewrite (skill_record_isDirectory _ _ Hrec) in Hrs.
  apply Forall2_app_inv_l in Hrs. destruct Hrs as (rs1 & rs2 & Hrs1 & Hrs2 & ->).
  inversion Hrs2 as [|? r ? rs3 Hd Hrs3]; subst.
  assert (r = Some rec) by congruence. subst r.
  rewrite Hby, somes_app. cbn [somes flat_map app].
  apply file_all_get_last; [reflexivity | exact Hp |].
  intros r' Hin.
  destruct (somes_In _ _ _ _ Hrs3 Hin) as (d' & Hd' & Hr').
  apply filter_In in Hd'. destruct Hd' as [Hd' _].
  eapply Hpost; eauto.
Qed.

Lemma filter_unique {A} (f : A -> jsstring) (l : list A) x n :
  NoDup (List.map f l) -> In x l -> f x = n ->
  filter (fun y => jsstring_eqb (f y) n) l = [x].
Proof.
  intros Hnd Hin Hx. induction l as [|a l IH]; [destruct Hin|].
  simpl in Hnd. inversion Hnd as [|? ? Hnotin Hnd']; subst.
  assert (Hnone : forall l', ~ In (f x) (List.map f l') ->
            filter (fun y => jsstring_eqb (f y) (f x)) l' = []).
  { induction l' as [|b l' IH']; simpl; [reflexivity|].
    intros H. destruct (jsstring_eqb (f b) (f x)) eqn:E.
    - apply jsstring_eqb_eq in E. exfalso. apply H. auto.
    - apply IH'. intros H'. apply H. auto. }
  simpl. destruct Hin as [->|Hin].
  - rewrite jsstring_eqb_refl, Hnone by exact Hnotin. reflexivity.
  - destruct (jsstring_eqb (f a) (f x)) eqn:E.
    + apply jsstring_eqb_eq in E. exfalso. apply Hnotin. rewrite E.
      apply in_map. exact Hin.
    + apply IH; assumption.
Qed.

(** The names of the listed skills are the keys of the map. *)
Lemma skills_names sd :
  named sr_name (sd_byName sd) ->
  sd_skills sd = List.map skill_meta (JSObject.values (sd_byName sd)) ->
  List.map sm_name (sd_skills sd) = JSObject.keys (sd_byName sd).
Proof.
  intros Hn ->. unfold JSObject.values, JSObject.keys. rewrite !map_map.
  apply map_ext_in. intros [k r] Hin. simpl.
  apply Hn. apply (proj1 (In_entries _ _ _)). exact Hin.
Qed.

Lemma subagents_names sa :
  named ar_name (sa_byName sa) ->
  sd_subagents sa = List.map subagent_meta (JSObject.values (sa_byName sa)) ->
  List.map am_name (sd_subagents sa) = JSObject.keys (sa_byName sa).
Proof.
  intros Hn ->. unfold JSObject.values, JSObject.keys. rewrite !map_map.
  apply map_ext_in. intros [k r] Hin. simpl.
  apply Hn. apply (proj1 (In_entries _ _ _)). exact Hin.
Qed.

Lemma keys_map_entries_perm {V W} (f : V -> W) (o : JSObject.obj V) :
  NoDup (List.map fst o) ->
  Permutation (JSObject.keys (map_entries f o)) (List.map fst o).
Proof.
  intros H. rewrite keys_perm, keys_map_entries by exact H. apply keys_perm.
Qed.

Lemma count_occ_one (l : list jsstring) n :
  NoDup l -> In n l -> count_occ (list_eq_dec N.eq_dec) l n = 1%nat.
Proof.
  intros Hnd Hin.
  pose proof (proj1 (NoDup_count_occ (list_eq_dec N.eq_dec) l) Hnd n) as Hle.
  pose proof (proj1 (count_occ_In (list_eq_dec N.eq_dec) l n) Hin) as Hgt.
  lia.
Qed.

(** The entry of the bundle for the last directory filed under a name. *)
Lemma bundle_skill_entry input bundle es pre d post rec :
  output input = Ok bundle ->
  lookup (js "skills") (ROOT input) = Some (Dir es) ->
  es = pre ++ d :: post ->
  skill_record d = Ok (Some rec) ->
  sr_name rec <> proto ->
  (forall d' r', In d' post -> skill_record d' = Ok (Some r') -> sr_name r' <> sr_name rec) ->
  count_occ (list_eq_dec N.eq_dec) (JSObject.keys (c_skills (content bundle))) (sr_name rec) = 1%nat
  /\ filter (fun m => jsstring_eqb (sm_name m) (sr_name rec)) (skills bundle) = [skill_meta rec]
  /\ JSObject.get (c_skills (content bundle)) (sr_name rec)
     = Some (mkSkillContent (sr_content rec) (sr_reference rec)).
Proof.
  intros Hout Hes Hsplit Hrec Hp Hpost.
  destruct (output_inv _ _ Hout) as (sd & sa & Hsd & _ & Hskills & _ & Hcs & _).
  destruct (buildSkills_wf _ _ Hsd) as [Hnd Hnamed].
  pose proof (skills_last_wins _ _ _ _ _ _ _ Hsd Hes Hsplit Hrec Hp Hpost) as Hget.
  assert (Hsk : sd_skills sd = List.map skill_meta (JSObject.values (sd_byName sd))).
  { destruct (buildSkills_inv _ _ Hsd) as [[_ ->]|(_ & _ & _ & _ & _ & H)]; auto. }
  pose proof (get_Some_In _ _ _ Hget) as Hin.
  split; [|split].
  - rewrite Hcs. apply count_occ_one.
    + eapply Permutation_NoDup; [symmetry; apply keys_map_entries_perm; exact Hnd | exact Hnd].
    + eapply Permutation_in; [symmetry; apply keys_map_entries_perm; exact Hnd|].
      apply (in_map fst) in Hin. exact Hin.
  - rewrite Hskills. apply filter_unique.
    + rewrite (skills_names _ Hnamed Hsk).
      eapply Permutation_NoDup; [symmetry; apply keys_perm | exact Hnd].
    + rewrite Hsk. apply in_map. unfold JSObject.values.
      apply (proj2 (In_entries _ _ _)) in Hin.
      apply (in_map snd) in Hin. exact Hin.
    + reflexivity.
  - rewrite Hcs, get_map_entries by exact Hnd. rewrite Hget. reflexivity.
Qed.

Lemma skill_record_of d children text fm r :
  snd d = Dir children ->
  lookup SKILL_md children = Some (File text) ->
  extractFrontmatter text = Ok fm ->
  skill_record d = Ok r ->
  exists ref,
    r = Some (mkSkillRecord (fst d) (or_else (fm_name fm) (fst d))
                (or_else (fm_description fm) []) text ref)
    /\ ((lookup REFERENCE_md children = None /\ ref = None)
        \/ (exists t, lookup REFERENCE_md children = Some (File t) /\ ref = Some t)).
Proof.
  unfold skill_record. intros -> -> . cbn [readFileSync bind]. intros ->. cbn [bind].
  destruct (lookup REFERENCE_md children) as [[t|]|]; cbn [readFileSync bind];
    try discriminate; intros H; inversion H; eexists; split; eauto.
Qed.

(** A successful build read a record from every directory entry. *)
Lemma buildSkills_records root sd es d :
  buildSkills root = Ok sd ->
  lookup (js "skills") root = Some (Dir es) ->
  In d es -> exists r, skill_record d = Ok r.
Proof.
  intros Hsd Hes Hd.
  destruct (buildSkills_inv _ _ Hsd) as [[Hnone _]|(es' & rs & Hes' & Hrs & _)];
    [congruence|].
  assert (es' = es) by congruence. subst es'.
  destruct (isDirectory d) eqn:Hdir.
  - assert (Hin : In d (filter isDirectory es)) by (apply filter_In; auto).
    clear - Hrs Hin. induction Hrs as [|x r l rs' Hx _ IH]; [destruct Hin|].
    destruct Hin as [->|Hin]; eauto.
  - exists None. unfold skill_record. unfold isDirectory in Hdir.
    destruct (snd d); [reflexivity | discriminate].
Qed.

(** C2, as the code has it: when two directories declare the same name,
    not empty and other than [__proto__], and no directory read after the
    second is filed under that name, the bundle has exactly one key and one
    listed record for the name, with the id and the content of the second. *)
Theorem same_name_last_wins :
  forall input bundle es l1 a ca l2 b cb l3 ta tb fa fb n,
    output input = Ok bundle ->
    lookup (js "skills") (ROOT input) = Some (Dir es) ->
    es = l1 ++ (a, Dir ca) :: l2 ++ (b, Dir cb) :: l3 ->
    lookup SKILL_md ca = Some (File ta) ->
    extractFrontmatter ta = Ok fa -> fm_name fa = Some n ->
    lookup SKILL_md cb = Some (File tb) ->
    extractFrontmatter tb = Ok fb -> fm_name fb = Some n ->
    n <> [] -> n <> proto ->
    (forall d r, In d l3 -> skill_record d = Ok (Some r) -> sr_name r <> n) ->
    count_occ (list_eq_dec N.eq_dec) (JSObject.keys (c_skills (content bundle))) n = 1%nat
    /\ (exists m,
          filter (fun m => jsstring_eqb (sm_name m) n) (skills bundle) = [m]
          /\ sm_id m = b)
    /\ (exists c,
          JSObject.get (c_skills (content bundle)) n = Some c
          /\ sc_content c = tb).
Proof.
  intros input bundle es l1 a ca l2 b cb l3 ta tb fa fb n
    Hout Hes Hsplit _ _ _ Hsb Hfb Hnb Hne Hp Hpost.
  destruct (output_inv _ _ Hout) as (sd & _ & Hsd & _).
  assert (Hin : In (b, Dir cb) es).
  { rewrite Hsplit. apply in_or_app. right. right. apply in_or_app. right. left. reflexivity. }
  destruct (buildSkills_records _ _ _ _ Hsd Hes Hin) as [r Hr].
  destruct (skill_record_of (b, Dir cb) cb tb fb r eq_refl Hsb Hfb Hr) as (ref & -> & _).
  rewrite Hnb in Hr. cbn [fst] in Hr.
  assert (Hname : or_else (Some n) b = n) by (destruct n; [congruence | reflexivity]).
  rewrite Hname in Hr.
  rewrite app_comm_cons, app_assoc in Hsplit.
  destruct (bundle_skill_entry _ _ _ _ _ _ _ Hout Hes Hsplit Hr) as (Hc & Hf & Hg);
    cbn [sr_name]; auto.
  cbn [sr_name sr_content sr_reference] in *.
  split; [exact Hc|]. split.
  - eexists. split; [exact Hf | reflexivity].
  - eexists. split; [exact Hg | reflexivity].
Qed.

(** ** Subagents *)

Lemma startsWith_app p s : startsWith (p ++ s) p = true.
Proof.
  induction p as [|a p IH]; simpl; [reflexivity|].
  rewrite N.eqb_refl. exact IH.
Qed.

Lemma endsWith_app s p : endsWith (s ++ p) p = true.
Proof. unfold endsWith. rewrite rev_app_distr. apply startsWith_app. Qed.

(** The stem of a file name: the name without its suffix [.md]. *)
Lemma basename_md_stem stem : basename_md (stem ++ js ".md") = stem.
Proof.
  unfold basename_md.
  destruct (jsstring_eqb (stem ++ js ".md") (js ".md")) eqn:E.
  - apply jsstring_eqb_eq in E.
    assert (List.length (stem ++ js ".md") = List.length (js ".md")) as Hl by (rewrite E; reflexivity).
    rewrite length_app in Hl. destruct stem; [reflexivity | simpl in Hl; lia].
  - rewrite endsWith_app, length_app.
    replace (List.length stem + List.length (js ".md") - 3)%nat with (List.length stem)
      by (simpl; lia).
    rewrite firstn_app, firstn_all, Nat.sub_diag. simpl. apply app_nil_r.
Qed.

Lemma subagent_record_of dir f text fm :
  lookup f dir = Some (File text) ->
  extractFrontmatter text = Ok fm ->
  subagent_record dir f
  = Ok (mkSubagentRecord (basename_md f) (or_else (fm_name fm) (basename_md f))
          (or_else (fm_description fm) []) text).
Proof.
  unfold subagent_record. intros -> . cbn [readFileSync bind]. intros ->. reflexivity.
Qed.

Lemma subagents_last_wins root sa es pre f post rec :
  buildSubagents root = Ok sa ->
  lookup (js "subagents") root = Some (Dir es) ->
  List.map fst es = pre ++ f :: post ->
  endsWith f (js ".md") = true ->
  subagent_record es f = Ok rec ->
  ar_name rec <> proto ->
  (forall f' r', In f' post -> subagent_record es f' = Ok r' -> ar_name r' <> ar_name rec) ->
  JSObject.get (sa_byName sa) (ar_name rec) = Some rec.
Proof.
  intros Hsa Hes Hsplit Hmd Hrec Hp Hpost.
  destruct (buildSubagents_inv _ _ Hsa) as [[Hnone _]|(es' & rs & Hes' & Hrs & Hby & _)];
    [congruence|].
  assert (es' = es) by congruence. subst es'.
  rewrite Hsplit, filter_app in Hrs. cbn [filter] in Hrs. rewrite Hmd in Hrs.
  apply Forall2_app_inv_l in Hrs. destruct Hrs as (rs1 & rs2 & Hrs1 & Hrs2 & ->).
  inversion Hrs2 as [|? r ? rs3 Hd Hrs3]; subst.
  assert (r = rec) by congruence. subst r.
  rewrite Hby. apply file_all_get_last; [reflexivity | exact Hp |].
  intros r' Hin.
  destruct (Forall2_In_r _ _ _ _ Hrs3 Hin) as (f' & Hf' & Hr').
  apply filter_In in Hf'. destruct Hf' as [Hf' _].
  eapply Hpost; eauto.
Qed.

Lemma bundle_subagent_entry input bundle es pre f post rec :
  output input = Ok bundle ->
  lookup (js "subagents") (ROOT input) = Some (Dir es) ->
  List.map fst es = pre ++ f :: post ->
  endsWith f (js ".md") = true ->
  subagent_record es f = Ok rec ->
  ar_name rec <> proto ->
  (forall f' r', In f' post -> subagent_record es f' = Ok r' -> ar_name r' <> ar_name rec) ->
  count_occ (list_eq_dec N.eq_dec) (JSObject.keys (c_subagents (content bundle))) (ar_name rec) = 1%nat
  /\ filter (fun m => jsstring_eqb (am_name m) (ar_name rec)) (subagents bundle) = [subagent_meta rec]
  /\ JSObject.get (c_subagents (content bundle)) (ar_name rec)
     = Some (mkSubagentContent (ar_content rec)).
Proof.
  intros Hout Hes Hsplit Hmd Hrec Hp Hpost.
  destruct (output_inv _ _ Hout) as (sd & sa & _ & Hsa & _ & Hsubs & _ & Hca).
  destruct (buildSubagents_wf _ _ Hsa) as [Hnd Hnamed].
  pose proof (subagents_last_wins _ _ _ _ _ _ _ Hsa Hes Hsplit Hmd Hrec Hp Hpost) as Hget.
  assert (Hsk : sd_subagents sa = List.map subagent_meta (JSObject.values (sa_byName sa))).
  { destruct (buildSubagents_inv _ _ Hsa) as [[_ ->]|(_ & _ & _ & _ & _ & H)]; auto. }
  pose proof (get_Some_In _ _ _ Hget) as Hin.
  split; [|split].
  - rewrite Hca. apply count_occ_one.
    + eapply Permutation_NoDup; [symmetry; apply keys_map_entries_perm; exact Hnd | exact Hnd].
    + eapply Permutation_in; [symmetry; apply keys_map_entries_perm; exact Hnd|].
      apply (in_map fst) in Hin. exact Hin.
  - rewrite Hsubs. apply filter_unique.
    + rewrite (subagents_names _ Hnamed Hsk).
      eapply Permutation_NoDup; [symmetry; apply keys_perm | exact Hnd].
    + rewrite Hsk. apply in_map. unfold JSObject.values.
      apply (proj2 (In_entries _ _ _)) in Hin.
      apply (in_map snd) in Hin. exact Hin.
    + reflexivity.
  - rewrite Hca, get_map_entries by exact Hnd. rewrite Hget. reflexivity.
Qed.

(** ** Names, keys and ids *)

Lemma or_else_cases a b :
  (forall n, a = Some n -> n <> [] -> or_else a b = n)
  /\ (a = None \/ a = Some [] -> or_else a b = b).
Proof.
  split.
  - intros n -> Hn. destruct n; [congruence | reflexivity].
  - intros [->| ->]; reflexivity.
Qed.


Lemma startsWith_split s p : startsWith s p = true -> exists t, s = p ++ t.
Proof.
  revert s. induction p as [|a p IH]; intros s H; simpl in *.
  - exists s. reflexivity.
  - destruct s as [|b s]; [discriminate|].
    apply andb_true_iff in H. destruct H as [E H]. apply N.eqb_eq in E. subst b.
    destruct (IH _ H) as [t ->]. exists t. reflexivity.
Qed.

Lemma endsWith_split s p : endsWith s p = true -> exists t, s = t ++ p.
Proof.
  unfold endsWith. intros H. apply startsWith_split in H. destruct H as [t H].
  exists (rev t). rewrite <- (rev_involutive s), H, rev_app_distr, rev_involutive.
  reflexivity.
Qed.

Lemma or_else_nonempty a b : b <> [] -> or_else a b <> [].
Proof. destruct a as [[|c s]|]; simpl; auto; discriminate. Qed.

(** C10: a declared name that is empty after the trim and the removal of
    quotes is treated as an absent one.  The skill is filed under the name of
    its directory and the subagent under the stem of its file name; and when
    no directory entry has an empty name and no subagent file is named [.md],
    no key and no listed name of the bundle is the empty string. *)
Theorem empty_name_falls_back :
  forall input bundle,
    output input = Ok bundle ->
    (forall byName byName' dname children text fm,
        lookup SKILL_md children = Some (File text) ->
        extractFrontmatter text = Ok fm ->
        fm_name fm = Some [] ->
        skill_step byName (dname, Dir children) = Ok byName' ->
        exists rec,
          byName' = JSObject.set byName dname rec
          /\ sr_name rec = dname /\ sr_id rec = dname /\ sr_content rec = text)
    /\ (forall dir byName byName' stem text fm,
          lookup (stem ++ js ".md") dir = Some (File text) ->
          extractFrontmatter text = Ok fm ->
          fm_name fm = Some [] ->
          subagent_step dir byName (stem ++ js ".md") = Ok byName' ->
          exists rec,
            byName' = JSObject.set byName stem rec
            /\ ar_name rec = stem /\ ar_id rec = stem /\ ar_content rec = text)
    /\ ((forall es d, lookup (js "skills") (ROOT input) = Some (Dir es) ->
                      In d es -> fst d <> []) ->
        ~ In [] (JSObject.keys (c_skills (content bundle)))
        /\ forall m, In m (skills bundle) -> sm_name m <> [])
    /\ ((forall es d, lookup (js "subagents") (ROOT input) = Some (Dir es) ->
                      In d es -> fst d <> js ".md") ->
        ~ In [] (JSObject.keys (c_subagents (content bundle)))
        /\ forall m, In m (subagents bundle) -> am_name m <> []).
Proof.
  intros input bundle Hout.
  destruct (output_inv _ _ Hout) as (sd & sa & Hsd & Hsa & Hskills & Hsubs & Hcs & Hca).
  destruct (buildSkills_wf _ _ Hsd) as [Hnd Hnamed].
  destruct (buildSubagents_wf _ _ Hsa) as [Hnd' Hnamed'].
  split; [|split; [|split]].
  - intros byName byName' dname children text fm Hs Hfm Hn Hstep.
    rewrite skill_step_record in Hstep.
    destruct (skill_record (dname, Dir children)) as [r|] eqn:Hr; [|discriminate].
    destruct (skill_record_of (dname, Dir children) children text fm r eq_refl Hs Hfm Hr)
      as (ref & -> & _).
    cbn [bind] in Hstep. inversion Hstep. rewrite Hn. cbn [fst or_else sr_name].
    eexists. split; [reflexivity|]. repeat split.
  - intros dir byName byName' stem text fm Hl Hfm Hn Hstep.
    rewrite subagent_step_record, (subagent_record_of _ _ _ _ Hl Hfm) in Hstep.
    cbn [bind] in Hstep. inversion Hstep.
    rewrite Hn, basename_md_stem. cbn [or_else ar_name].
    eexists. split; [reflexivity|]. repeat split.
  - intros Hnames.
    assert (Hkeys : forall k r, In (k, r) (sd_byName sd) -> k <> []).
    { intros k r Hin.
      destruct (buildSkills_inv _ _ Hsd) as [[_ ->]|(es & rs & Hes & Hrs & Hby & _)];
        [destruct Hin|].
      rewrite Hby in Hin. apply file_all_In in Hin; [|constructor].
      destruct Hin as [[]|(Hr & -> & _)].
      destruct (somes_In _ _ _ _ Hrs Hr) as (d & Hd & Hrec).
      apply filter_In in Hd. destruct Hd as [Hd _].
      destruct (skill_record_Some _ _ Hrec) as (children & text & fm & ref & _ & _ & _ & -> & _).
      cbn [sr_name]. apply or_else_nonempty. eapply Hnames; eauto. }
    split.
    + intros Hin. rewrite Hcs in Hin.
      eapply Permutation_in in Hin; [|apply keys_map_entries_perm; exact Hnd].
      apply in_map_iff in Hin. destruct Hin as ([k r] & Hk & Hin). simpl in Hk. subst k.
      exact (Hkeys _ _ Hin eq_refl).
    + intros m Hm. rewrite Hskills in Hm.
      assert (Hsk : sd_skills sd = List.map skill_meta (JSObject.values (sd_byName sd))).
      { destruct (buildSkills_inv _ _ Hsd) as [[_ ->]|(_ & _ & _ & _ & _ & H)]; auto. }
      destruct (skills_from_records _ _ Hsk Hm) as (k & r & Hin & ->).
      cbn [skill_meta sm_name]. rewrite (Hnamed _ _ Hin). eapply Hkeys; eauto.
  - intros Hnames.
    assert (Hkeys : forall k r, In (k, r) (sa_byName sa) -> k <> []).
    { intros k r Hin.
      destruct (buildSubagents_inv _ _ Hsa) as [[_ ->]|(es & rs & Hes & Hrs & Hby & _)];
        [destruct Hin|].
      rewrite Hby in Hin. apply file_all_In in Hin; [|constructor].
      destruct Hin as [[]|(Hr & -> & _)].
      destruct (Forall2_In_r _ _ _ _ Hrs Hr) as (f & Hf & Hrec).
      apply filter_In in Hf. destruct Hf as [Hf Hmd].
      apply in_map_iff in Hf. destruct Hf as (d & <- & Hd).
      unfold subagent_record in Hrec.
      destruct (readFileSync (lookup (fst d) es)) as [text|]; [|discriminate].
      cbn [bind] in Hrec. destruct (extractFrontmatter text) as [fm|]; [|discriminate].
      cbn [bind] in Hrec. inversion Hrec. cbn [ar_name].
      apply or_else_nonempty.
      destruct (endsWith_split _ _ Hmd) as [stem Hstem].
      rewrite Hstem, basename_md_stem. intros ->.
      apply (Hnames es d Hes Hd). exact Hstem. }
    split.
    + intros Hin. rewrite Hca in Hin.
      eapply Permutation_in in Hin; [|apply keys_map_entries_perm; exact Hnd'].
      apply in_map_iff in Hin. destruct Hin as ([k r] & Hk & Hin). simpl in Hk. subst k.
      exact (Hkeys _ _ Hin eq_refl).
    + intros m Hm. rewrite Hsubs in Hm.
      assert (Hsk : sd_subagents sa = List.map subagent_meta (JSObject.values (sa_byName sa))).
      { destruct (buildSubagents_inv _ _ Hsa) as [[_ ->]|(_ & _ & _ & _ & _ & H)]; auto. }
      rewrite Hsk in Hm. apply in_map_iff in Hm. destruct Hm as (r & <- & Hm).
      unfold JSObject.values in Hm. apply in_map_iff in Hm. destruct Hm as ([k r'] & <- & Hm).
      apply (proj1 (In_entries _ _ _)) in Hm.
      cbn [subagent_meta am_name snd]. rewrite (Hnamed' _ _ Hm). eapply Hkeys; eauto.
Qed.

(** ** Missing sources *)

(** ** The writes of a run *)

(** A run that ends without an exception has built the bundle and found the
    output directory ready; it has written the artifact and the sidecar. *)
Lemma main_inv input files :
  main input = Ok files ->
  exists out,
    output input = Ok out
    /\ dist_writable (ROOT input) = true
    /\ files = [ (OUT_FILE, utf8 (jsonContent out));
                 (OUT_FILE ++ js ".sha256", utf8 (hash out ++ [10])) ].
Proof.
  unfold main, script, dist_writable, OUT_DIR, mkdirSync, writeFileSync, is_dir.
  destruct (output input) as [out|]; [|discriminate].
  destruct (lookup (js "dist") (ROOT input)) as [[t|dist]|].
  - discriminate.
  - destruct (lookup (js "content.json") dist) as [[t|x]|];
      destruct (lookup (js "content.json.sha256") dist) as [[t'|x']|];
      try discriminate; intros H; exists out; repeat split; congruence.
  - cbn [lookup]. intros H. exists out. repeat split; congruence.
Qed.

Lemma main_ok input out :
  output input = Ok out ->
  dist_writable (ROOT input) = true ->
  main input = Ok [ (OUT_FILE, utf8 (jsonContent out));
                    (OUT_FILE ++ js ".sha256", utf8 (hash out ++ [10])) ].
Proof.
  unfold main, script, dist_writable, OUT_DIR, mkdirSync, writeFileSync, is_dir.
  intros ->.
  destruct (lookup (js "dist") (ROOT input)) as [[t|dist]|].
  - discriminate.
  - destruct (lookup (js "content.json") dist) as [[t|x]|];
      destruct (lookup (js "content.json.sha256") dist) as [[t'|x']|];
      try discriminate; reflexivity.
  - reflexivity.
Qed.

Lemma skill_step_skip byName d :
  (forall children, snd d = Dir children -> lookup SKILL_md children = None) ->
  skill_step byName d = Ok byName.
Proof.
  intros H. unfold skill_step, existsSync.
  destruct (snd d) as [|children]; [reflexivity|].
  rewrite (H children eq_refl). reflexivity.
Qed.

(** C8: a root directory that is absent gives an empty collection, a
    directory without the primary document is passed over, and neither makes
    the build fail: with an absent root the bundle is built whenever the rest
    of it is, it has no skill, or no subagent, and the run writes its files
    when the output directory takes them. *)
Theorem missing_sources_are_not_failures :
  forall input,
    (lookup (js "skills") (ROOT input) = None ->
     buildSkills (ROOT input) = Ok (mkSkillsData [] []))
    /\ (lookup (js "subagents") (ROOT input) = None ->
        buildSubagents (ROOT input) = Ok (mkSubagentsData [] []))
    /\ (forall l1 d l2 byName,
          (forall children, snd d = Dir children -> lookup SKILL_md children = None) ->
          for_of skill_step (l1 ++ d :: l2) byName = for_of skill_step (l1 ++ l2) byName)
    /\ (lookup (js "skills") (ROOT input) = None ->
        forall sa w ov,
          buildSubagents (ROOT input) = Ok sa ->
          readWhenToUse (ROOT input) = Ok w ->
          buildOverview input = Ok ov ->
          exists bundle,
            output input = Ok bundle
            /\ skills bundle = [] /\ c_skills (content bundle) = []
            /\ subagents bundle = sd_subagents sa
            /\ (dist_writable (ROOT input) = true ->
                exists files, main input = Ok files))
    /\ (lookup (js "subagents") (ROOT input) = None ->
        forall sd w ov,
          buildSkills (ROOT input) = Ok sd ->
          readWhenToUse (ROOT input) = Ok w ->
          buildOverview input = Ok ov ->
          exists bundle,
            output input = Ok bundle
            /\ subagents bundle = [] /\ c_subagents (content bundle) = []
            /\ skills bundle = sd_skills sd
            /\ (dist_writable (ROOT input) = true ->
                exists files, main input = Ok files)).
Proof.
  intros input.
  assert (H1 : lookup (js "skills") (ROOT input) = None ->
               buildSkills (ROOT input) = Ok (mkSkillsData [] [])).
  { intros H. unfold buildSkills, existsSync. rewrite H. reflexivity. }
  assert (H2 : lookup (js "subagents") (ROOT input) = None ->
               buildSubagents (ROOT input) = Ok (mkSubagentsData [] [])).
  { intros H. unfold buildSubagents, existsSync. rewrite H. reflexivity. }
  split; [exact H1|]. split; [exact H2|]. split; [|split].
  - intros l1 d l2 byName Hd. rewrite !for_of_app.
    destruct (for_of skill_step l1 byName) as [o|]; [|reflexivity].
    cbn [bind for_of]. rewrite (skill_step_skip _ _ Hd). reflexivity.
  - intros Hs sa w ov Hsa Hw Hov.
    eexists. split.
    + unfold output. rewrite (H1 Hs), Hsa, Hw, Hov. cbn [bind]. reflexivity.
    + cbn [skills subagents content c_skills sd_skills sd_subagents].
      repeat split; try reflexivity.
      intros Hd. eexists. apply main_ok; [|exact Hd].
      unfold output. rewrite (H1 Hs), Hsa, Hw, Hov. cbn [bind]. reflexivity.
  - intros Hs sd w ov Hsd Hw Hov.
    eexists. split.
    + unfold output. rewrite (H2 Hs), Hsd, Hw, Hov. cbn [bind]. reflexivity.
    + cbn [skills subagents content c_subagents sd_skills sd_subagents].
      repeat split; try reflexivity.
      intros Hd. eexists. apply main_ok; [|exact Hd].
      unfold output. rewrite (H2 Hs), Hsd, Hw, Hov. cbn [bind]. reflexivity.
Qed.

(** ** The theorems on sample inputs *)

Lemma same_name_last_wins_witness :
  count_occ (list_eq_dec N.eq_dec)
    (JSObject.keys (c_skills (content (bundle_of shared_input)))) (js "shared") = 1%nat
  /\ (exists m,
        filter (fun m => jsstring_eqb (sm_name m) (js "shared"))
          (skills (bundle_of shared_input)) = [m]
        /\ sm_id m = js "b")
  /\ (exists c,
        JSObject.get (c_skills (content (bundle_of shared_input))) (js "shared") = Some c
        /\ sc_content c = document [js "name: shared"] (js "# B")).
Proof.
  apply (same_name_last_wins shared_input (bundle_of shared_input)
           [ (js "a", Dir shared_a); (js "b", Dir shared_b) ]
           [] (js "a") shared_a [] (js "b") shared_b []
           (document [js "name: shared"] (js "# A"))
           (document [js "name: shared"] (js "# B"))
           (mkFrontmatter (Some (js "shared")) None)
           (mkFrontmatter (Some (js "shared")) None)
           (js "shared"));
    try (vm_compute; reflexivity); try discriminate.
  intros d r [].
Defined.

(** C2 fails as stated: two directories that both declare the name [""]
    are filed under the names of the directories, and the bundle has no entry
    for the declared name. *)
Lemma same_empty_name_no_entry :
  exists fm,
    extractFrontmatter quoted_empty = Ok fm
    /\ fm_name fm = Some []
    /\ output empty_name_input = Ok (bundle_of empty_name_input)
    /\ JSObject.keys (c_skills (content (bundle_of empty_name_input))) = [js "a"; js "b"]
    /\ count_occ (list_eq_dec N.eq_dec)
         (JSObject.keys (c_skills (content (bundle_of empty_name_input)))) [] = 0%nat
    /\ filter (fun m => jsstring_eqb (sm_name m) [])
         (skills (bundle_of empty_name_input)) = [].
Proof.
  eexists. split; [vm_compute; reflexivity|].
  repeat split; vm_compute; reflexivity.
Qed.

Lemma hasReference_iff_nonempty_reference_witness :
  (exists children, In (js "foo", Dir children) sample_skills
                    /\ existsSync SKILL_md children = true)
  /\ (forall children, In (js "foo", Dir children) sample_skills ->
        (true = true <->
         exists text, lookup REFERENCE_md children = Some (File text)
                      /\ text <> [])).
Proof.
  refine (hasReference_iff_nonempty_reference sample_input (bundle_of sample_input)
            sample_skills _ _ _ (mkSkillMeta (js "foo") (js "bar") true) _).
  - vm_compute. reflexivity.
  - reflexivity.
  - repeat constructor; simpl; intuition discriminate.
  - vm_compute. left. reflexivity.
Defined.

(** C5 fails as stated: a directory holds a reference document that is
    empty, and the skill is listed without the flag. *)
Lemma empty_reference_not_flagged :
  exists m children,
    output empty_reference_input = Ok (bundle_of empty_reference_input)
    /\ In m (skills (bundle_of empty_reference_input))
    /\ In (sm_id m, Dir children) empty_reference_skills
    /\ existsSync REFERENCE_md children = true
    /\ sm_hasReference m = false.
Proof.
  exists (mkSkillMeta (js "a") (js "a") false).
  exists [ (js "SKILL.md", File (js "# A")); (js "REFERENCE.md", File []) ].
  split; [vm_compute; reflexivity|].
  split; [vm_compute; auto|].
  split; [vm_compute; auto|].
  split; reflexivity.
Qed.

Lemma metadata_has_content_witness :
  (forall m, In m (skills (bundle_of sample_input)) ->
     exists c, JSObject.get (c_skills (content (bundle_of sample_input))) (sm_name m) = Some c
               /\ (sm_hasReference m = true <->
                   exists text, sc_reference c = Some text /\ text <> []))
  /\ (forall m, In m (subagents (bundle_of sample_input)) ->
        exists c, JSObject.get (c_subagents (content (bundle_of sample_input))) (am_name m)
                  = Some c).
Proof.
  apply (metadata_has_content sample_input (bundle_of sample_input)).
  vm_compute. reflexivity.
Defined.

(** C6 fails as stated: the entry of a skill has a reference that is not
    null, the empty text, and the skill is listed without the flag. *)
Lemma nonnull_reference_not_flagged :
  exists m c,
    output empty_reference_input = Ok (bundle_of empty_reference_input)
    /\ In m (skills (bundle_of empty_reference_input))
    /\ JSObject.get (c_skills (content (bundle_of empty_reference_input))) (sm_name m) = Some c
    /\ sc_reference c <> None
    /\ sm_hasReference m = false.
Proof.
  exists (mkSkillMeta (js "a") (js "a") false).
  exists (mkSkillContent (js "# A") (Some [])).
  split; [vm_compute; reflexivity|].
  split; [vm_compute; auto|].
  split; [vm_compute; reflexivity|].
  split; [discriminate | reflexivity].
Qed.



Lemma empty_name_falls_back_witness :
  (forall byName byName' dname children text fm,
      lookup SKILL_md children = Some (File text) ->
      extractFrontmatter text = Ok fm ->
      fm_name fm = Some [] ->
      skill_step byName (dname, Dir children) = Ok byName' ->
      exists rec,
        byName' = JSObject.set byName dname rec
        /\ sr_name rec = dname /\ sr_id rec = dname /\ sr_content rec = text)
  /\ (forall dir byName byName' stem text fm,
        lookup (stem ++ js ".md") dir = Some (File text) ->
        extractFrontmatter text = Ok fm ->
        fm_name fm = Some [] ->
        subagent_step dir byName (stem ++ js ".md") = Ok byName' ->
        exists rec,
          byName' = JSObject.set byName stem rec
          /\ ar_name rec = stem /\ ar_id rec = stem /\ ar_content rec = text)
  /\ ((forall es d, lookup (js "skills") (ROOT empty_name_input) = Some (Dir es) ->
                    In d es -> fst d <> []) ->
      ~ In [] (JSObject.keys (c_skills (content (bundle_of empty_name_input))))
      /\ forall m, In m (skills (bundle_of empty_name_input)) -> sm_name m <> [])
  /\ ((forall es d, lookup (js "subagents") (ROOT empty_name_input) = Some (Dir es) ->
                    In d es -> fst d <> js ".md") ->
      ~ In [] (JSObject.keys (c_subagents (content (bundle_of empty_name_input))))
      /\ forall m, In m (subagents (bundle_of empty_name_input)) -> am_name m <> []).
Proof.
  apply (empty_name_falls_back empty_name_input (bundle_of empty_name_input)).
  vm_compute. reflexivity.
Defined.

(** ** The artifact and its digest *)

Lemma json_ind' (P : json -> Prop) :
  P JNull -> (forall b, P (JBool b)) -> (forall s, P (JString s)) ->
  (forall items, Forall P items -> P (JArray items)) ->
  (forall members, Forall (fun m => P (snd m)) members -> P (JObject members)) ->
  forall v, P v.
Proof.
  intros Hn Hb Hs Ha Ho. fix IH 1. intros [| b | s | items | members].
  - exact Hn.
  - apply Hb.
  - apply Hs.
  - apply Ha. induction items as [|v items IHl]; constructor; [apply IH | exact IHl].
  - apply Ho. induction members as [|[k v] members IHl]; constructor; [apply IH | exact IHl].
Qed.

Lemma hex_digit_lower n : n < 16 -> is_lower_hex (hex_digit n) = true.
Proof.
  intros H. unfold hex_digit, is_lower_hex.
  destruct (N.ltb_spec n 10).
  - replace (48 <=? 48 + n) with true by (symmetry; apply N.leb_le; lia).
    replace (48 + n <=? 57) with true by (symmetry; apply N.leb_le; lia). reflexivity.
  - replace (97 <=? 87 + n) with true by (symmetry; apply N.leb_le; lia).
    replace (87 + n <=? 102) with true by (symmetry; apply N.leb_le; lia).
    apply orb_true_r.
Qed.

Lemma lower_hex_plain c : is_lower_hex c = true -> (c =? 92) = false /\ (c =? 34) = false.
Proof.
  unfold is_lower_hex. intros H.
  apply orb_true_iff in H. rewrite !andb_true_iff, !N.leb_le in H.
  split; apply N.eqb_neq; lia.
Qed.

Lemma scan_plain c s :
  (c =? 92) = false -> (c =? 34) = false ->
  outside_strings true false (c :: s) = outside_strings true false s.
Proof. intros H1 H2. simpl. rewrite H1, H2. reflexivity. Qed.

Lemma scan_escape x s :
  outside_strings true false (92 :: x :: s) = outside_strings true false s.
Proof. reflexivity. Qed.

Lemma scan_unicode_escape c s :
  outside_strings true false (unicode_escape c ++ s) = outside_strings true false s.
Proof.
  unfold unicode_escape. cbn [app]. rewrite scan_escape.
  rewrite !scan_plain; try reflexivity;
    apply lower_hex_plain, hex_digit_lower, N.mod_lt; discriminate.
Qed.

Lemma scan_quote_unit c s :
  outside_strings true false (quote_unit c ++ s) = outside_strings true false s.
Proof.
  unfold quote_unit.
  repeat (match goal with |- context [if ?b then _ else _] => destruct b eqn:? end);
    try reflexivity; try apply scan_unicode_escape.
  apply scan_plain; assumption.
Qed.

Lemma surrogate_plain c :
  is_high_surrogate c = true \/ is_low_surrogate c = true ->
  (c =? 92) = false /\ (c =? 34) = false.
Proof.
  unfold is_high_surrogate, is_low_surrogate.
  rewrite !andb_true_iff, !N.leb_le. intros H. split; apply N.eqb_neq; lia.
Qed.

Lemma scan_quote_units_le n : forall s rest,
  (List.length s <= n)%nat ->
  outside_strings true false (quote_units s ++ rest) = outside_strings true false rest.
Proof.
  induction n as [|n IH]; intros s rest Hlen.
  - destruct s; [reflexivity | simpl in Hlen; lia].
  - destruct s as [|c s]; [reflexivity|].
    simpl in Hlen. cbn [quote_units].
    destruct (is_high_surrogate c) eqn:Hc.
    + destruct s as [|d s].
      * apply scan_quote_unit.
      * destruct (is_low_surrogate d) eqn:Hd.
        -- cbn [app].
           destruct (surrogate_plain c (or_introl Hc)) as [H1 H2].
           destruct (surrogate_plain d (or_intror Hd)) as [H3 H4].
           rewrite !scan_plain by assumption.
           apply IH. simpl in Hlen. lia.
        -- rewrite <- app_assoc, scan_quote_unit. apply IH. lia.
    + rewrite <- app_assoc, scan_quote_unit. apply IH. lia.
Qed.

Lemma scan_QuoteJSONString s rest :
  outside_strings false false (QuoteJSONString s ++ rest) = outside_strings false false rest.
Proof.
  unfold QuoteJSONString. rewrite <- !app_assoc. cbn [app outside_strings N.eqb].
  change (34 =? 34) with true. cbv iota.
  rewrite (scan_quote_units_le (List.length s)) by lia.
  reflexivity.
Qed.

Lemma scan_join_comma (parts : list jsstring) rest :
  Forall (fun p => forall rest, no_space_between_tokens rest -> no_space_between_tokens (p ++ rest)) parts ->
  no_space_between_tokens rest -> no_space_between_tokens (join (js ",") parts ++ rest).
Proof.
  intros H Hrest. induction H as [|p parts Hp _ IH]; [exact Hrest|].
  destruct parts as [|q parts].
  - apply Hp. exact Hrest.
  - change (join (js ",") (p :: q :: parts)) with (p ++ js "," ++ join (js ",") (q :: parts)).
    rewrite <- !app_assoc. apply Hp.
    unfold no_space_between_tokens. simpl. constructor; [reflexivity | exact IH].
Qed.

Lemma scan_serialize v : forall rest,
  no_space_between_tokens rest -> no_space_between_tokens (serialize [] [] v ++ rest).
Proof.
  induction v as [| b | s | items IH | members IH] using json_ind'; intros rest Hrest.
  - unfold no_space_between_tokens. simpl. repeat (constructor; [reflexivity|]). exact Hrest.
  - destruct b; unfold no_space_between_tokens; simpl; repeat (constructor; [reflexivity|]); exact Hrest.
  - unfold no_space_between_tokens. cbn [serialize]. rewrite scan_QuoteJSONString. exact Hrest.
  - cbn [serialize app]. destruct items as [|v items].
    + unfold no_space_between_tokens. simpl. repeat (constructor; [reflexivity|]). exact Hrest.
    + cbn [List.map]. rewrite <- !app_assoc.
      unfold no_space_between_tokens. cbn [js List.map list_ascii_of_string app outside_strings].
      simpl (N_of_ascii _). cbn [N.eqb Pos.eqb]. constructor; [reflexivity|].
      change (v :: items) with ([] ++ v :: items) in IH.
      apply (scan_join_comma (serialize [] [] v :: List.map (serialize [] []) items)).
      * change (Forall (fun p => forall rest, no_space_between_tokens rest -> no_space_between_tokens (p ++ rest))
                  (List.map (serialize [] []) (v :: items))).
        apply Forall_map. exact IH.
      * unfold no_space_between_tokens. simpl. constructor; [reflexivity | exact Hrest].
  - cbn [serialize app]. destruct members as [|m members].
    + unfold no_space_between_tokens. simpl. repeat (constructor; [reflexivity|]). exact Hrest.
    + cbn [List.map]. rewrite <- !app_assoc.
      unfold no_space_between_tokens. cbn [js List.map list_ascii_of_string app outside_strings].
      simpl (N_of_ascii _). cbn [N.eqb Pos.eqb]. constructor; [reflexivity|].
      match goal with |- Forall _ (outside_strings false false (join _ ?l ++ _)) =>
        apply (scan_join_comma l) end.
      * change (Forall (fun p => forall rest, no_space_between_tokens rest -> no_space_between_tokens (p ++ rest))
                  (List.map (fun m => QuoteJSONString (fst m) ++ js ":" ++ [] ++ serialize [] [] (snd m))
                     (m :: members))).
        apply Forall_map. eapply Forall_impl; [|exact IH].
        intros m' Hm' rest' Hrest'. cbv beta in *.
        rewrite <- !app_assoc. unfold no_space_between_tokens. rewrite scan_QuoteJSONString.
        simpl. constructor; [reflexivity|]. apply Hm'. exact Hrest'.
      * unfold no_space_between_tokens. simpl. constructor; [reflexivity | exact Hrest].
Qed.

Lemma utf8_ascii s : Forall (fun c => c < 128) s -> utf8 s = s.
Proof.
  induction 1 as [|c s Hc _ IH]; [reflexivity|].
  cbn [utf8]. apply N.ltb_lt in Hc. rewrite Hc, IH. reflexivity.
Qed.

Lemma lower_hex_ascii c : is_lower_hex c = true -> c < 128.
Proof.
  unfold is_lower_hex. intros H.
  apply orb_true_iff in H. rewrite !andb_true_iff, !N.leb_le in H. lia.
Qed.

Lemma hex32_lower x : Forall (fun c => is_lower_hex c = true) (SHA256.hex32 x).
Proof.
  unfold SHA256.hex32. apply Forall_map, Forall_forall. intros i _.
  apply hex_digit_lower, N.mod_lt. discriminate.
Qed.

Lemma hexdigest_lower msg :
  Forall (fun c => is_lower_hex c = true) (SHA256.hexdigest msg).
Proof.
  unfold SHA256.hexdigest. apply Forall_flat_map, Forall_forall.
  intros x _. apply hex32_lower.
Qed.

Lemma blocks_length n : forall h bs,
  List.length h = 8%nat -> List.length (SHA256.blocks n h bs) = 8%nat.
Proof.
  induction n as [|n IH]; intros h bs Hh; simpl; [exact Hh|].
  destruct bs; [exact Hh|]. apply IH. reflexivity.
Qed.

Lemma hexdigest_length msg : List.length (SHA256.hexdigest msg) = 64%nat.
Proof.
  unfold SHA256.hexdigest, SHA256.digest.
  pose proof (blocks_length (List.length (SHA256.pad msg)) SHA256.H0 (SHA256.pad msg) eq_refl) as H.
  destruct (SHA256.blocks _ _ _) as [|a [|b [|c [|d [|e [|f [|g [|h [|]]]]]]]]];
    try discriminate.
  reflexivity.
Qed.

(** C3: a run that succeeds writes two files.  The first, at the fixed
    path, holds the UTF-8 bytes of the serialized bundle, a JSON text without
    indentation in which no white space stands between two tokens.  The
    second, at that path with the suffix [.sha256], holds the SHA-256 digest of
    exactly those bytes as sixty-four lowercase hexadecimal digits, and one
    line feed after them. *)
Theorem artifact_and_sidecar :
  forall input files,
    main input = Ok files ->
    exists out artifact digest,
      output input = Ok out
      /\ files = [ (js "dist/content.json", artifact);
                   (js "dist/content.json.sha256", digest ++ [10]) ]
      /\ artifact = utf8 (serialize [] [] (json_of_bundle out))
      /\ no_space_between_tokens (serialize [] [] (json_of_bundle out))
      /\ digest = SHA256.hexdigest artifact
      /\ List.length digest = 64%nat
      /\ Forall (fun c => is_lower_hex c = true) digest.
Proof.
  intros input files H.
  destruct (main_inv _ _ H) as (out & Hout & _ & Hf).
  clear H. subst files.
  exists out, (utf8 (jsonContent out)), (hash out).
  split; [exact Hout|]. split.
  - rewrite (utf8_ascii (hash out ++ [10])); [reflexivity|].
    apply Forall_app. split.
    + eapply Forall_impl; [|apply hexdigest_lower]. apply lower_hex_ascii.
    + repeat constructor.
  - split; [reflexivity|]. split.
    + rewrite <- (app_nil_r (serialize _ _ _)). apply scan_serialize. constructor.
    + split; [reflexivity|]. split; [apply hexdigest_length | apply hexdigest_lower].
Qed.

Lemma artifact_and_sidecar_witness :
  exists out artifact digest,
    output sample_input = Ok out
    /\ files_of sample_input
       = [ (js "dist/content.json", artifact);
           (js "dist/content.json.sha256", digest ++ [10]) ]
    /\ artifact = utf8 (serialize [] [] (json_of_bundle out))
    /\ no_space_between_tokens (serialize [] [] (json_of_bundle out))
    /\ digest = SHA256.hexdigest artifact
    /\ List.length digest = 64%nat
    /\ Forall (fun c => is_lower_hex c = true) digest.
Proof.
  apply (artifact_and_sidecar sample_input (files_of sample_input)).
  vm_compute. reflexivity.
Defined.

(** ** Reading the artifact back *)

Import Loader.

Lemma hex_value_digit n : n < 16 -> hex_value (hex_digit n) = Some n.
Proof.
  intros H. unfold hex_digit, hex_value.
  destruct (N.ltb_spec n 10).
  - replace ((48 <=? 48 + n) && (48 + n <=? 57)) with true.
    + f_equal. lia.
    + symmetry. apply andb_true_iff. rewrite !N.leb_le. lia.
  - replace ((48 <=? 87 + n) && (87 + n <=? 57)) with false.
    + replace ((97 <=? 87 + n) && (87 + n <=? 102)) with true.
      * f_equal. lia.
      * symmetry. apply andb_true_iff. rewrite !N.leb_le. lia.
    + symmetry. apply andb_false_iff. right. apply N.leb_gt. lia.
Qed.

Lemma hex4_value c :
  c < 65536 ->
  (((c / 4096) mod 16 * 16 + (c / 256) mod 16) * 16 + (c / 16) mod 16) * 16 + c mod 16 = c.
Proof.
  intros H. zify. Z.to_euclidean_division_equations. lia.
Qed.

Lemma parse_unicode_escape c tail v rest :
  c < 65536 ->
  parse_string tail = Some (v, rest) ->
  parse_string (unicode_escape c ++ tail) = Some (c :: v, rest).
Proof.
  intros Hc Ht. unfold unicode_escape. cbn [app].
  cbn [parse_string]. change (92 =? 34) with false. change (92 =? 92) with true.
  change (117 =? 117) with true. cbv iota.
  rewrite !hex_value_digit by (apply N.mod_lt; discriminate).
  rewrite Ht, hex4_value by exact Hc. reflexivity.
Qed.

Lemma parse_string_plain c tail v rest :
  (c =? 34) = false -> (c =? 92) = false -> (c <? 32) = false ->
  parse_string tail = Some (v, rest) ->
  parse_string (c :: tail) = Some (c :: v, rest).
Proof. intros H1 H2 H3 Ht. cbn [parse_string]. rewrite H1, H2, H3, Ht. reflexivity. Qed.

Lemma surrogate_bounds c :
  is_high_surrogate c = true \/ is_low_surrogate c = true ->
  (c =? 34) = false /\ (c =? 92) = false /\ (c <? 32) = false /\ c < 65536.
Proof.
  unfold is_high_surrogate, is_low_surrogate.
  rewrite !andb_true_iff, !N.leb_le. intros H.
  repeat split; try apply N.eqb_neq; try apply N.ltb_ge; lia.
Qed.

Lemma parse_quote_unit c tail v rest :
  parse_string tail = Some (v, rest) ->
  parse_string (quote_unit c ++ tail) = Some (c :: v, rest).
Proof.
  intros Ht. unfold quote_unit.
  destruct (N.eqb_spec c 8) as [->|H8]; [cbn; rewrite Ht; reflexivity|].
  destruct (N.eqb_spec c 9) as [->|H9]; [cbn; rewrite Ht; reflexivity|].
  destruct (N.eqb_spec c 10) as [->|H10]; [cbn; rewrite Ht; reflexivity|].
  destruct (N.eqb_spec c 12) as [->|H12]; [cbn; rewrite Ht; reflexivity|].
  destruct (N.eqb_spec c 13) as [->|H13]; [cbn; rewrite Ht; reflexivity|].
  destruct (N.eqb_spec c 34) as [->|H34]; [cbn; rewrite Ht; reflexivity|].
  destruct (N.eqb_spec c 92) as [->|H92]; [cbn; rewrite Ht; reflexivity|].
  destruct (c <? 32) eqn:Hlt; cbn [orb].
  - apply parse_unicode_escape; [|exact Ht]. apply N.ltb_lt in Hlt. lia.
  - destruct (is_high_surrogate c) eqn:Hh; cbn [orb].
    + apply parse_unicode_escape; [|exact Ht].
      apply (surrogate_bounds c). auto.
    + destruct (is_low_surrogate c) eqn:Hl.
      * apply parse_unicode_escape; [|exact Ht].
        apply (surrogate_bounds c). auto.
      * apply parse_string_plain; auto; apply N.eqb_neq; assumption.
Qed.

Lemma parse_quote_units_le n : forall s rest,
  (List.length s <= n)%nat ->
  parse_string (quote_units s ++ 34 :: rest) = Some (s, rest).
Proof.
  induction n as [|n IH]; intros s rest Hlen.
  - destruct s; [reflexivity | simpl in Hlen; lia].
  - destruct s as [|c s]; [reflexivity|].
    simpl in Hlen. cbn [quote_units].
    destruct (is_high_surrogate c) eqn:Hc.
    + destruct s as [|d s].
      * apply parse_quote_unit. reflexivity.
      * destruct (is_low_surrogate d) eqn:Hd.
        -- cbn [app].
           destruct (surrogate_bounds c (or_introl Hc)) as (H1 & H2 & H3 & _).
           destruct (surrogate_bounds d (or_intror Hd)) as (H4 & H5 & H6 & _).
           apply parse_string_plain; auto. apply parse_string_plain; auto.
           apply IH. simpl in Hlen. lia.
        -- rewrite <- app_assoc. apply parse_quote_unit. apply IH. lia.
    + rewrite <- app_assoc. apply parse_quote_unit. apply IH. lia.
Qed.

Lemma parse_QuoteJSONString s rest :
  parse_string (quote_units s ++ 34 :: rest) = Some (s, rest).
Proof. apply (parse_quote_units_le (List.length s)). lia. Qed.

Lemma serialize_head v :
  exists c tl, serialize [] [] v = c :: tl
               /\ (c = 110 \/ c = 116 \/ c = 102 \/ c = 34 \/ c = 91 \/ c = 123).
Proof.
  destruct v as [| [|] | s | items | members]; cbn [serialize].
  - do 2 eexists. split; [reflexivity|]. auto.
  - do 2 eexists. split; [reflexivity|]. auto.
  - do 2 eexists. split; [reflexivity|]. auto.
  - do 2 eexists. split; [reflexivity|]. auto.
  - destruct (List.map _ items); do 2 eexists; (split; [reflexivity|]); auto 10.
  - destruct (List.map _ members); do 2 eexists; (split; [reflexivity|]); auto 10.
Qed.

Lemma skip_space_comma s : skip_space (44 :: s) = 44 :: s.
Proof. reflexivity. Qed.

Lemma skip_space_token c s : is_json_space c = false -> skip_space (c :: s) = c :: s.
Proof. intros H. cbn [skip_space]. rewrite H. reflexivity. Qed.

Lemma parse_elements_ok items : forall fuel rest,
  items <> [] ->
  Forall parses items ->
  (list_sum (List.map (fun x => S (json_size x)) items) <= fuel)%nat ->
  parse_elements fuel (join [44] (List.map (serialize [] []) items) ++ 93 :: rest)
  = Some (items, rest).
Proof.
  induction items as [|v items IH]; intros fuel rest Hne Hall Hfuel; [congruence|].
  inversion Hall as [|? ? Hv Hitems]; subst.
  cbn [List.map list_sum] in Hfuel.
  destruct fuel as [|fuel]; [simpl in Hfuel; lia|].
  destruct items as [|w items].
  - cbn [List.map join parse_elements].
    rewrite Hv by (simpl in Hfuel; lia). reflexivity.
  - change (join [44] (List.map (serialize [] []) (v :: w :: items)))
      with (serialize [] [] v ++ [44] ++ join [44] (List.map (serialize [] []) (w :: items))).
    rewrite <- !app_assoc. cbn [parse_elements].
    rewrite Hv by (simpl in Hfuel; lia).
    cbn [app]. rewrite skip_space_comma.
    rewrite IH; [reflexivity | discriminate | exact Hitems |].
    simpl in Hfuel |- *. lia.
Qed.

Lemma member_text_app k v tail :
  member_text (k, v) ++ tail
  = 34 :: (quote_units k ++ 34 :: 58 :: (serialize [] [] v ++ tail)).
Proof.
  unfold member_text, QuoteJSONString. cbn [fst snd].
  rewrite <- !app_assoc. reflexivity.
Qed.

Lemma parse_members_ok members : forall fuel rest,
  members <> [] ->
  Forall (fun m => parses (snd m)) members ->
  (list_sum (List.map (fun m => S (json_size (snd m))) members) <= fuel)%nat ->
  parse_members fuel (join [44] (List.map member_text members) ++ 125 :: rest)
  = Some (members, rest).
Proof.
  induction members as [|[k v] members IH]; intros fuel rest Hne Hall Hfuel; [congruence|].
  inversion Hall as [|? ? Hv Hms]; subst. cbn [snd] in Hv.
  cbn [List.map list_sum snd] in Hfuel.
  destruct fuel as [|fuel]; [simpl in Hfuel; lia|].
  destruct members as [|m members].
  - cbn [List.map join]. rewrite member_text_app.
    cbn [parse_members]. rewrite skip_space_token by reflexivity.
    rewrite parse_QuoteJSONString.
    rewrite skip_space_token by reflexivity.
    rewrite Hv by (simpl in Hfuel; lia). reflexivity.
  - change (join [44] (List.map member_text ((k, v) :: m :: members)))
      with (member_text (k, v) ++ [44] ++ join [44] (List.map member_text (m :: members))).
    rewrite <- !app_assoc. rewrite member_text_app.
    cbn [parse_members]. rewrite skip_space_token by reflexivity.
    rewrite parse_QuoteJSONString.
    rewrite skip_space_token by reflexivity.
    rewrite Hv by (simpl in Hfuel; lia).
    cbn [app]. rewrite skip_space_comma.
    rewrite IH; [reflexivity | discriminate | exact Hms |].
    simpl in Hfuel |- *. lia.
Qed.

Lemma skip_space_head c tl :
  c = 110 \/ c = 116 \/ c = 102 \/ c = 34 \/ c = 91 \/ c = 123 ->
  skip_space (c :: tl) = c :: tl /\ c <> 93 /\ c <> 125.
Proof.
  intros [->|[->|[->|[->|[->| ->]]]]]; repeat split; discriminate.
Qed.

Lemma parse_value_ok v : parses v.
Proof.
  induction v as [| b | s | items IH | members IH] using json_ind';
    intros fuel rest Hfuel;
    (destruct fuel as [|fuel]; [simpl in Hfuel; lia|]).
  - reflexivity.
  - destruct b; reflexivity.
  - cbn [serialize]. unfold QuoteJSONString. rewrite <- !app_assoc.
    cbn [app parse_value]. rewrite skip_space_token by reflexivity.
    rewrite parse_QuoteJSONString. reflexivity.
  - cbn [serialize app]. destruct items as [|v items]; [reflexivity|].
    cbn [List.map]. rewrite <- !app_assoc.
    change (js "[" ++ ?x) with (91 :: x).
    change (js "]" ++ rest) with (93 :: rest).
    change (js ",") with [44].
    change (serialize [] [] v :: List.map (serialize [] []) items)
      with (List.map (serialize [] []) (v :: items)).
    cbn [parse_value]. rewrite skip_space_token by reflexivity.
    rewrite parse_elements_ok; [| discriminate | exact IH | simpl in Hfuel |- *; lia].
    destruct (serialize_head v) as (c & tl & Hc & Hhead).
    assert (Hj : exists tl', join [44] (List.map (serialize [] []) (v :: items))
                             ++ 93 :: rest = c :: tl').
    { cbn [List.map].
      destruct (List.map (serialize [] []) items); cbn [join]; rewrite Hc; eexists; reflexivity. }
    destruct Hj as [tl' Hj]. rewrite Hj.
    destruct Hhead as [->|[->|[->|[->|[->| ->]]]]]; reflexivity.
  - cbn [serialize app]. destruct members as [|m members]; [reflexivity|].
    cbn [List.map]. rewrite <- !app_assoc.
    change (js "{" ++ ?x) with (123 :: x).
    change (js "}" ++ rest) with (125 :: rest).
    change (js ",") with [44].
    match goal with |- context [join [44] (?a :: List.map ?f members)] =>
      change (a :: List.map f members) with (List.map member_text (m :: members)) end.
    cbn [parse_value]. rewrite skip_space_token by reflexivity.
    rewrite parse_members_ok; [| discriminate | exact IH | simpl in Hfuel |- *; lia].
    assert (Hj : exists tl', join [44] (List.map member_text (m :: members))
                             ++ 125 :: rest = 34 :: tl').
    { destruct m as [k v]. cbn [List.map].
      destruct (List.map member_text members); cbn [join];
        [|rewrite <- app_assoc]; rewrite member_text_app; eexists; reflexivity. }
    destruct Hj as [tl' Hj]. rewrite Hj. reflexivity.
Qed.
Lemma join_length (parts : list jsstring) :
  parts <> [] ->
  S (List.length (join [44] parts)) = list_sum (List.map (fun p => S (List.length p)) parts).
Proof.
  induction parts as [|p parts IH]; [congruence|]. intros _.
  destruct parts as [|q parts].
  - simpl. lia.
  - change (join [44] (p :: q :: parts)) with (p ++ [44] ++ join [44] (q :: parts)).
    rewrite !length_app.
    specialize (IH ltac:(discriminate)).
    change (list_sum (List.map (fun p => S (List.length p)) (p :: q :: parts)))
      with (S (List.length p) + list_sum (List.map (fun p => S (List.length p)) (q :: parts)))%nat.
    rewrite <- IH. simpl. lia.
Qed.

Lemma list_sum_le {A} (f g : A -> nat) l :
  Forall (fun x => (f x <= g x)%nat) l ->
  (list_sum (List.map f l) <= list_sum (List.map g l))%nat.
Proof. induction 1; simpl; lia. Qed.

Lemma json_size_le_length v :
  (json_size v <= List.length (serialize [] [] v))%nat.
Proof.
  induction v as [| b | s | items IH | members IH] using json_ind'.
  - simpl. lia.
  - destruct b; simpl; lia.
  - cbn [serialize json_size]. unfold QuoteJSONString. rewrite !length_app. simpl. lia.
  - cbn [serialize json_size app]. destruct items as [|v items]; [simpl; lia|].
    cbn [List.map]. rewrite !length_app.
    change (js ",") with [44].
    change (serialize [] [] v :: List.map (serialize [] []) items)
      with (List.map (serialize [] []) (v :: items)).
    pose proof (join_length (List.map (serialize [] []) (v :: items))) as Hj.
    rewrite map_map in Hj.
    pose proof (list_sum_le (fun x => S (json_size x))
                  (fun x => S (List.length (serialize [] [] x))) (v :: items)) as Hle.
    simpl (List.length (js _)).
    assert (Forall (fun x => (S (json_size x) <= S (List.length (serialize [] [] x)))%nat)
              (v :: items)) as Hall.
    { eapply Forall_impl; [|exact IH]. intros; simpl in *; lia. }
    specialize (Hle Hall). cbn [List.map] in Hj, Hle |- *.
    specialize (Hj ltac:(discriminate)). lia.
  - cbn [serialize json_size app]. destruct members as [|m members]; [simpl; lia|].
    cbn [List.map]. rewrite !length_app.
    change (js ",") with [44].
    match goal with |- context [join [44] (?a :: List.map ?f members)] =>
      change (a :: List.map f members) with (List.map member_text (m :: members)) end.
    pose proof (join_length (List.map member_text (m :: members))) as Hj.
    rewrite map_map in Hj.
    pose proof (list_sum_le (fun x => S (json_size (snd x)))
                  (fun x => S (List.length (member_text x))) (m :: members)) as Hle.
    simpl (List.length (js _)).
    assert (Forall (fun x => (S (json_size (snd x)) <= S (List.length (member_text x)))%nat)
              (m :: members)) as Hall.
    { eapply Forall_impl; [|exact IH]. intros x Hx.
      unfold member_text. rewrite !length_app. simpl in *. lia. }
    specialize (Hle Hall). cbn [List.map] in Hj, Hle |- *.
    specialize (Hj ltac:(discriminate)). lia.
Qed.

(** The text of a value parses back to the value. *)
Lemma JSON_parse_serialize v : Loader.JSON_parse (serialize [] [] v) = Ok v.
Proof.
  unfold Loader.JSON_parse.
  pose proof (parse_value_ok v (S (List.length (serialize [] [] v))) []) as H.
  rewrite app_nil_r in H. rewrite H; [reflexivity|].
  pose proof (json_size_le_length v). lia.
Qed.

Lemma all_some_map {A B} (f : B -> option A) (g : A -> B) l :
  (forall x, f (g x) = Some x) ->
  all_some (List.map f (List.map g l)) = Some l.
Proof.
  intros H. induction l as [|x l IH]; [reflexivity|].
  cbn [List.map all_some]. rewrite H, IH. reflexivity.
Qed.

Lemma skill_meta_of_json_ok m : skill_meta_of_json (json_of_skill_meta m) = Some m.
Proof. destruct m. reflexivity. Qed.

Lemma subagent_meta_of_json_ok m : subagent_meta_of_json (json_of_subagent_meta m) = Some m.
Proof. destruct m. reflexivity. Qed.

Lemma skill_content_of_json_ok c : skill_content_of_json (json_of_skill_content c) = Some c.
Proof. destruct c as [c [r|]]; reflexivity. Qed.

Lemma subagent_content_of_json_ok c :
  subagent_content_of_json (json_of_subagent_content c) = Some c.
Proof. destruct c. reflexivity. Qed.

Lemma as_object_ok {V} (f : json -> option V) (g : V -> json) (o : JSObject.obj V) :
  (forall x, f (g x) = Some x) ->
  as_object f (Some (json_of_obj g o)) = Some (JSObject.fromEntries (JSObject.entries o)).
Proof.
  intros H. unfold as_object, json_of_obj.
  rewrite map_map. cbn [fst snd].
  replace (List.map (fun x => option_map (pair (fst x)) (f (g (snd x)))) (JSObject.entries o))
    with (List.map Some (JSObject.entries o)).
  - assert (Hs : forall A (l : list A), all_some (List.map Some l) = Some l).
    { intros A l. induction l as [|a l IH]; [reflexivity|].
      cbn [List.map all_some]. rewrite IH. reflexivity. }
    rewrite Hs. reflexivity.
  - apply map_ext. intros [k v]. cbn [fst snd]. rewrite H. reflexivity.
Qed.

Lemma bundle_fields a b c :
  let v := JObject [ (js "skills", a); (js "subagents", b); (js "content", c) ] in
  field "skills" v = Some a /\ field "subagents" v = Some b /\ field "content" v = Some c.
Proof. repeat split; reflexivity. Qed.

Lemma content_fields a b c d e :
  let v := JObject [ (js "skills", a); (js "subagents", b); (js "catalog", c);
                     (js "whenToUse", d); (js "overview", e) ] in
  field "skills" v = Some a /\ field "subagents" v = Some b /\ field "catalog" v = Some c
  /\ field "whenToUse" v = Some d /\ field "overview" v = Some e.
Proof. repeat split; reflexivity. Qed.

(** The value of a bundle reads back as the bundle. *)
Lemma bundle_of_json_ok b : bundle_of_json (json_of_bundle b) = Some (reloaded b).
Proof.
  unfold bundle_of_json, json_of_bundle.
  match goal with |- context [field "skills" (JObject [(_, ?a); (_, ?b); (_, ?c)])] =>
    destruct (bundle_fields a b c) as (-> & -> & ->) end.
  unfold as_array. rewrite !all_some_map
    by (apply skill_meta_of_json_ok || apply subagent_meta_of_json_ok).
  unfold content_of_json.
  match goal with |- context [field "catalog" (JObject [(_, ?a); (_, ?b); (_, ?c); (_, ?d); (_, ?e)])] =>
    destruct (content_fields a b c d e) as (-> & -> & -> & -> & ->) end.
  rewrite (as_object_ok _ _ _ skill_content_of_json_ok).
  rewrite (as_object_ok _ _ _ subagent_content_of_json_ok).
  reflexivity.
Qed.

Ltac bool_arith :=
  repeat match goal with
         | |- _ /\ _ => split
         | |- (_ && _) = true => apply andb_true_iff
         | |- negb _ = true => apply negb_true_iff
         | |- (_ && _) = false => apply andb_false_iff
         | |- (_ <=? _) = true => apply N.leb_le
         | |- (_ <? _) = true => apply N.ltb_lt
         | |- (_ <=? _) = false => apply N.leb_gt
         | |- (_ <? _) = false => apply N.ltb_ge
         end;
  try (zify; Z.to_euclidean_division_equations; lia).

Lemma decode_1 c bs : c < 128 -> utf8_decode (c :: bs) = c :: utf8_decode bs.
Proof. intros H. cbn [utf8_decode]. apply N.ltb_lt in H. rewrite H. reflexivity. Qed.

(** The digits of a number in base 64, as unknowns with their equations. *)
Ltac base64 x :=
  let q1 := fresh "q" in let r1 := fresh "r" in
  let q2 := fresh "q" in let r2 := fresh "r" in
  let q3 := fresh "q" in let r3 := fresh "r" in
  replace (x / 262144) with (x / 64 / 64 / 64) in *
    by (rewrite !N.Div0.div_div; reflexivity);
  replace (x / 4096) with (x / 64 / 64) in *
    by (rewrite !N.Div0.div_div; reflexivity);
  pose proof (N.div_mod x 64 ltac:(discriminate));
  pose proof (N.mod_lt x 64 ltac:(discriminate));
  pose proof (N.div_mod (x / 64) 64 ltac:(discriminate));
  pose proof (N.mod_lt (x / 64) 64 ltac:(discriminate));
  pose proof (N.div_mod (x / 64 / 64) 64 ltac:(discriminate));
  pose proof (N.mod_lt (x / 64 / 64) 64 ltac:(discriminate));
  generalize dependent (x / 64 / 64 / 64); intros q3;
  generalize dependent ((x / 64 / 64) mod 64); intros r3;
  generalize dependent (x / 64 / 64); intros q2;
  generalize dependent ((x / 64) mod 64); intros r2;
  generalize dependent (x / 64); intros q1;
  generalize dependent (x mod 64); intros r1; intros.

Ltac bool_lia :=
  repeat match goal with
         | |- _ /\ _ => split
         | |- (_ && _) = true => apply andb_true_iff
         | |- (_ <=? _) = true => apply N.leb_le
         | |- (_ <? _) = true => apply N.ltb_lt
         | |- (_ <=? _) = false => apply N.leb_gt
         | |- (_ <? _) = false => apply N.ltb_ge
         end;
  try lia.

Lemma decode_2 c bs :
  128 <= c < 2048 ->
  utf8_decode ((192 + c / 64) :: (128 + c mod 64) :: bs) = c :: utf8_decode bs.
Proof.
  intros H. cbn [utf8_decode]. unfold is_cont.
  base64 c.
  replace (192 + q <? 128) with false by (symmetry; bool_lia).
  replace ((194 <=? 192 + q) && (192 + q <? 224)) with true by (symmetry; bool_lia).
  replace ((128 <=? 128 + r) && (128 + r <? 192)) with true by (symmetry; bool_lia).
  f_equal. lia.
Qed.

Lemma decode_3 c bs :
  2048 <= c < 65536 -> is_high_surrogate c = false -> is_low_surrogate c = false ->
  utf8_decode ((224 + c / 4096) :: (128 + (c / 64) mod 64) :: (128 + c mod 64) :: bs)
  = c :: utf8_decode bs.
Proof.
  intros H Hh Hl. cbn [utf8_decode]. cbv zeta. unfold is_cont.
  assert (Hs : (55296 <=? c) && (c <? 57344) = false).
  { unfold is_high_surrogate, is_low_surrogate in *.
    apply andb_false_iff in Hh. apply andb_false_iff in Hl.
    rewrite !N.leb_gt in *. apply andb_false_iff. rewrite N.leb_gt, N.ltb_ge. lia. }
  clear Hh Hl.
  base64 c.
  replace (224 + q0 <? 128) with false by (symmetry; bool_lia).
  replace ((194 <=? 224 + q0) && (224 + q0 <? 224)) with false
    by (symmetry; apply andb_false_iff; right; bool_lia).
  replace ((224 <=? 224 + q0) && (224 + q0 <? 240)) with true by (symmetry; bool_lia).
  assert (E : ((224 + q0 - 224) * 64 + (128 + r0 - 128)) * 64 + (128 + r - 128) = c) by lia.
  rewrite E.
  replace ((128 <=? 128 + r0) && (128 + r0 <? 192)) with true by (symmetry; bool_lia).
  replace ((128 <=? 128 + r) && (128 + r <? 192)) with true by (symmetry; bool_lia).
  replace (2048 <=? c) with true by (symmetry; bool_lia).
  rewrite Hs. reflexivity.
Qed.

Lemma decode_4 c d bs :
  is_high_surrogate c = true -> is_low_surrogate d = true ->
  let cp := 65536 + (c - 55296) * 1024 + (d - 56320) in
  utf8_decode ((240 + cp / 262144) :: (128 + (cp / 4096) mod 64)
                 :: (128 + (cp / 64) mod 64) :: (128 + cp mod 64) :: bs)
  = c :: d :: utf8_decode bs.
Proof.
  intros Hc Hd cp.
  unfold is_high_surrogate in Hc. unfold is_low_surrogate in Hd.
  apply andb_true_iff in Hc. apply andb_true_iff in Hd.
  rewrite !N.leb_le in Hc, Hd.
  assert (Hcp : cp = 65536 + (c - 55296) * 1024 + (d - 56320)) by reflexivity.
  clearbody cp.
  cbn [utf8_decode]. cbv zeta. unfold is_cont, units_of_code_point.
  base64 cp.
  replace (240 + q1 <? 128) with false by (symmetry; bool_lia).
  replace ((194 <=? 240 + q1) && (240 + q1 <? 224)) with false
    by (symmetry; apply andb_false_iff; right; bool_lia).
  replace ((224 <=? 240 + q1) && (240 + q1 <? 240)) with false
    by (symmetry; apply andb_false_iff; right; bool_lia).
  replace ((240 <=? 240 + q1) && (240 + q1 <? 245)) with true by (symmetry; bool_lia).
  assert (E : (((240 + q1 - 240) * 64 + (128 + r1 - 128)) * 64 + (128 + r0 - 128)) * 64
              + (128 + r - 128) = cp) by lia.
  rewrite E.
  replace ((128 <=? 128 + r1) && (128 + r1 <? 192)) with true by (symmetry; bool_lia).
  replace ((128 <=? 128 + r0) && (128 + r0 <? 192)) with true by (symmetry; bool_lia).
  replace ((128 <=? 128 + r) && (128 + r <? 192)) with true by (symmetry; bool_lia).
  replace (65536 <=? cp) with true by (symmetry; bool_lia).
  replace (cp <? 1114112) with true by (symmetry; bool_lia).
  cbn [andb].
  replace (cp <? 65536) with false by (symmetry; bool_lia).
  cbn [app].
  pose proof (N.div_mod (cp - 65536) 1024 ltac:(discriminate)) as Hy.
  pose proof (N.mod_lt (cp - 65536) 1024 ltac:(discriminate)) as Hy'.
  revert Hy Hy'.
  generalize ((cp - 65536) / 1024). intros qy.
  generalize ((cp - 65536) mod 1024). intros ry Hy Hy'.
  f_equal; [lia|]. f_equal. lia.
Qed.

Lemma utf8_decode_encode_le n : forall s,
  (List.length s <= n)%nat -> paired s = true -> code_units s ->
  utf8_decode (utf8 s) = s.
Proof.
  induction n as [|n IH]; intros s Hlen Hp Hu.
  - destruct s; [reflexivity | simpl in Hlen; lia].
  - destruct s as [|c s]; [reflexivity|].
    simpl in Hlen. inversion Hu as [|? ? Hc Hs]; subst.
    cbn [utf8 paired] in *.
    destruct (N.ltb_spec c 128) as [H1|H1].
    + rewrite decode_1 by exact H1. f_equal. apply IH; [lia | | exact Hs].
      destruct (is_high_surrogate c) eqn:Hh.
      * unfold is_high_surrogate in Hh. apply andb_true_iff in Hh.
        rewrite N.leb_le in Hh. lia.
      * apply andb_true_iff in Hp. apply Hp.
    + destruct (N.ltb_spec c 2048) as [H2|H2].
      * rewrite decode_2 by lia. f_equal. apply IH; [lia | | exact Hs].
        destruct (is_high_surrogate c) eqn:Hh.
        -- unfold is_high_surrogate in Hh. apply andb_true_iff in Hh.
           rewrite N.leb_le in Hh. lia.
        -- apply andb_true_iff in Hp. apply Hp.
      * destruct (is_high_surrogate c) eqn:Hh.
        -- destruct s as [|d s]; [discriminate|].
           apply andb_true_iff in Hp. destruct Hp as [Hd Hp]. rewrite Hd.
           rewrite (decode_4 c d _ Hh Hd). do 2 f_equal.
           inversion Hs; subst. apply IH; [simpl in Hlen; lia | exact Hp | assumption].
        -- apply andb_true_iff in Hp. destruct Hp as [Hl Hp].
           apply negb_true_iff in Hl. rewrite Hl.
           rewrite decode_3 by (auto; lia). f_equal. apply IH; [lia | exact Hp | exact Hs].
Qed.

(** Decoding undoes encoding on well-formed text. *)
Lemma utf8_decode_encode s :
  paired s = true -> code_units s -> utf8_decode (utf8 s) = s.
Proof. apply (utf8_decode_encode_le (List.length s)). lia. Qed.

Lemma utf8_decode_ascii s : Forall (fun c => c < 128) s -> utf8_decode s = s.
Proof.
  induction 1 as [|c s Hc _ IH]; [reflexivity|].
  rewrite decode_1 by exact Hc. rewrite IH. reflexivity.
Qed.

(** *** The serialized text has no lone surrogate *)

Lemma paired_app_le n : forall a b,
  (List.length a <= n)%nat -> paired a = true -> paired b = true -> paired (a ++ b) = true.
Proof.
  induction n as [|n IH]; intros a b Hlen Ha Hb.
  - destruct a; [exact Hb | simpl in Hlen; lia].
  - destruct a as [|c a]; [exact Hb|].
    simpl in Hlen. cbn [paired app] in *.
    destruct (is_high_surrogate c).
    + destruct a as [|d a]; [discriminate|].
      cbn [app]. apply andb_true_iff in Ha. destruct Ha as [Hd Ha].
      rewrite Hd. cbn [andb]. apply IH; [simpl in Hlen; lia | exact Ha | exact Hb].
    + apply andb_true_iff in Ha. destruct Ha as [Hl Ha]. rewrite Hl. cbn [andb].
      apply IH; [lia | exact Ha | exact Hb].
Qed.

Lemma paired_app a b : paired a = true -> paired b = true -> paired (a ++ b) = true.
Proof. apply (paired_app_le (List.length a)). lia. Qed.

Lemma paired_ascii s : Forall (fun c => c < 128) s -> paired s = true.
Proof.
  induction 1 as [|c s Hc _ IH]; [reflexivity|].
  cbn [paired].
  replace (is_high_surrogate c) with false
    by (symmetry; unfold is_high_surrogate; apply andb_false_iff; left; apply N.leb_gt; lia).
  replace (is_low_surrogate c) with false
    by (symmetry; unfold is_low_surrogate; apply andb_false_iff; left; apply N.leb_gt; lia).
  exact IH.
Qed.

Lemma unicode_escape_ascii c : Forall (fun x => x < 128) (unicode_escape c).
Proof.
  unfold unicode_escape.
  repeat constructor; try lia;
    apply lower_hex_ascii, hex_digit_lower, N.mod_lt; discriminate.
Qed.

Lemma paired_quote_unit c : paired (quote_unit c) = true.
Proof.
  unfold quote_unit.
  repeat (match goal with |- context [if ?b then _ else _] => destruct b eqn:? end);
    try reflexivity; try (apply paired_ascii, unicode_escape_ascii).
  cbn [paired].
  match goal with H : _ || _ || _ = false |- _ =>
    apply orb_false_iff in H; destruct H as [H Hl];
    apply orb_false_iff in H; destruct H as [_ Hh] end.
  rewrite Hh, Hl. reflexivity.
Qed.

Lemma paired_quote_units_le n : forall s,
  (List.length s <= n)%nat -> paired (quote_units s) = true.
Proof.
  induction n as [|n IH]; intros s Hlen.
  - destruct s; [reflexivity | simpl in Hlen; lia].
  - destruct s as [|c s]; [reflexivity|].
    simpl in Hlen. cbn [quote_units].
    destruct (is_high_surrogate c) eqn:Hc.
    + destruct s as [|d s]; [apply paired_quote_unit|].
      destruct (is_low_surrogate d) eqn:Hd.
      * cbn [paired]. rewrite Hc, Hd. cbn [andb]. apply IH. simpl in Hlen. lia.
      * apply paired_app; [apply paired_quote_unit | apply IH; lia].
    + apply paired_app; [apply paired_quote_unit | apply IH; lia].
Qed.

Lemma paired_QuoteJSONString s : paired (QuoteJSONString s) = true.
Proof.
  unfold QuoteJSONString. apply paired_app; [reflexivity|].
  apply paired_app; [|reflexivity].
  apply (paired_quote_units_le (List.length s)). lia.
Qed.

Lemma paired_join sep parts :
  paired sep = true -> Forall (fun p => paired p = true) parts ->
  paired (join sep parts) = true.
Proof.
  intros Hsep H. induction H as [|p parts Hp _ IH]; [reflexivity|].
  destruct parts as [|q parts]; [exact Hp|].
  change (join sep (p :: q :: parts)) with (p ++ sep ++ join sep (q :: parts)).
  apply paired_app; [exact Hp|]. apply paired_app; [exact Hsep | exact IH].
Qed.

Lemma paired_serialize v : paired (serialize [] [] v) = true.
Proof.
  induction v as [| b | s | items IH | members IH] using json_ind'.
  - reflexivity.
  - destruct b; reflexivity.
  - apply paired_QuoteJSONString.
  - cbn [serialize app]. destruct (List.map (serialize [] []) items) eqn:E; [reflexivity|].
    rewrite <- E. apply paired_app; [reflexivity|]. apply paired_app; [|reflexivity].
    apply paired_join; [reflexivity|]. apply Forall_map. exact IH.
  - cbn [serialize app]. destruct (List.map _ members) eqn:E; [reflexivity|].
    rewrite <- E. apply paired_app; [reflexivity|]. apply paired_app; [|reflexivity].
    apply paired_join; [reflexivity|]. apply Forall_map.
    eapply Forall_impl; [|exact IH]. intros m Hm. cbv beta.
    apply paired_app; [apply paired_QuoteJSONString|].
    apply paired_app; [reflexivity|]. exact Hm.
Qed.

(** *** The verification succeeds on the pair a build writes *)

Lemma lower_hex_not_space c : is_lower_hex c = true -> is_space c = false.
Proof.
  unfold is_lower_hex. intros H.
  apply orb_true_iff in H. rewrite !andb_true_iff, !N.leb_le in H.
  unfold is_space.
  repeat (apply orb_false_iff; split); try (apply N.eqb_neq; lia).
  apply andb_false_iff. left. apply N.leb_gt. lia.
Qed.

Lemma trimStart_id s :
  Forall (fun c => is_space c = false) s -> trimStart s = s.
Proof. destruct 1 as [|c s Hc _]; [reflexivity|]. simpl. rewrite Hc. reflexivity. Qed.

Lemma trim_line s :
  Forall (fun c => is_space c = false) s -> trim (s ++ [10]) = s.
Proof.
  intros H. unfold trim, trimEnd.
  destruct s as [|c s].
  - reflexivity.
  - assert (Hs : trimStart ((c :: s) ++ [10]) = (c :: s) ++ [10]).
    { inversion H; subst. simpl. rewrite H2. reflexivity. }
    rewrite Hs, rev_app_distr. cbn [rev app trimStart].
    change (is_space 10) with true. cbv iota.
    change (rev s ++ [c]) with (rev (c :: s)).
    rewrite trimStart_id by (apply Forall_rev; exact H).
    apply rev_involutive.
Qed.

Lemma sidecar_verifies artifact :
  same_hex (SHA256.hexdigest artifact)
    (trim (utf8_decode (SHA256.hexdigest artifact ++ [10]))) = true.
Proof.
  rewrite utf8_decode_ascii.
  - rewrite trim_line; [apply jsstring_eqb_refl|].
    eapply Forall_impl; [|apply hexdigest_lower]. apply lower_hex_not_space.
  - apply Forall_app. split; [|repeat constructor].
    eapply Forall_impl; [|apply hexdigest_lower]. apply lower_hex_ascii.
Qed.

(** The sidecar is written as it is hashed: hexadecimal digits and a line
    feed are their own UTF-8 bytes. *)
Lemma sidecar_bytes out :
  utf8 (hash out ++ [10]) = SHA256.hexdigest (utf8 (jsonContent out)) ++ [10].
Proof.
  unfold hash. apply utf8_ascii.
  apply Forall_app. split; [|repeat constructor].
  eapply Forall_impl; [|apply hexdigest_lower]. apply lower_hex_ascii.
Qed.

(** The pair a build writes loads, and gives the index of the bundle. *)
Lemma load_main input out :
  output input = Ok out ->
  code_units (jsonContent out) ->
  load (utf8 (jsonContent out)) (SHA256.hexdigest (utf8 (jsonContent out)) ++ [10])
  = Ok (index_of_bundle (reloaded out)).
Proof.
  intros Hout Hu.
  unfold load. rewrite sidecar_verifies.
  rewrite utf8_decode_encode; [| apply paired_serialize | exact Hu].
  unfold jsonContent, JSON_stringify. cbn [N.min N.to_nat repeat].
  change (repeat 32 (N.to_nat (N.min 10 0))) with (@nil N).
  rewrite JSON_parse_serialize. cbn [bind].
  rewrite bundle_of_json_ok. reflexivity.
Qed.

(** *** The indices *)

Section IndexBy.
Context {V : Type} (key : V -> jsstring).

Lemma index_fold_NoDup l : forall acc : Map V,
  NoDup (List.map fst acc) ->
  NoDup (List.map fst (fold_left (fun m v => put m (key v) v) l acc)).
Proof.
  induction l as [|v l IH]; intros acc H; simpl; [exact H|].
  apply IH. apply NoDup_keys_define. exact H.
Qed.

Lemma index_fold_In l : forall (acc : Map V) k e,
  NoDup (List.map fst acc) ->
  In (k, e) (fold_left (fun m v => put m (key v) v) l acc) ->
  In (k, e) acc \/ (In e l /\ key e = k).
Proof.
  induction l as [|v l IH]; intros acc k e Hnd H; simpl in *; [auto|].
  apply IH in H; [|apply NoDup_keys_define; exact Hnd].
  destruct H as [H|[H1 H2]]; [|auto].
  apply In_define in H; [|exact Hnd].
  destruct H as [[-> ->]|[_ H]]; auto.
Qed.

Lemma index_fold_keys l : forall (acc : Map V) k,
  In k (List.map fst acc) \/ In k (List.map key l) ->
  In k (List.map fst (fold_left (fun m v => put m (key v) v) l acc)).
Proof.
  induction l as [|v l IH]; intros acc k H; simpl in *; [tauto|].
  apply IH. unfold put. rewrite In_keys_define.
  destruct H as [H|[H|H]]; auto.
Qed.

Lemma index_by_find l k e :
  find (index_by key l) k = Some e -> In e l /\ key e = k.
Proof.
  unfold find, index_by. intros H. apply get_Some_In in H.
  apply index_fold_In in H; [|constructor]. destruct H as [[]|H]. exact H.
Qed.

Lemma index_by_found l e :
  In e l -> exists e', find (index_by key l) (key e) = Some e'.
Proof.
  intros H. unfold find, index_by.
  destruct (JSObject.get _ (key e)) as [e'|] eqn:Hg; [eauto|].
  apply get_None_keys in Hg. exfalso. apply Hg.
  apply index_fold_keys. right. apply in_map. exact H.
Qed.

End IndexBy.

Lemma get_fromEntries_entries {V} (o : JSObject.obj V) k :
  NoDup (List.map fst o) ->
  JSObject.get (JSObject.fromEntries (JSObject.entries o)) k = JSObject.get o k.
Proof.
  intros H.
  rewrite fromEntries_NoDup by (apply NoDup_keys_entries; exact H).
  destruct (JSObject.get o k) as [v|] eqn:Hg.
  - apply In_get; [apply NoDup_keys_entries; exact H|].
    apply In_entries, get_Some_In. exact Hg.
  - apply get_None_keys. apply get_None_keys in Hg. intros Hin. apply Hg.
    eapply Permutation_in; [apply keys_perm | exact Hin].
Qed.

(** Get by a name that no listed skill of another name has for id. *)
Lemma get_skill_by_name b n m c :
  filter (fun m => jsstring_eqb (sm_name m) n) (skills b) = [m] ->
  JSObject.get (c_skills (content b)) n = Some c ->
  (forall m', In m' (skills b) -> sm_id m' = n -> sm_name m' = n) ->
  get_skill (index_of_bundle b) n
  = Some (mkSkillEntry (sm_id m) n (sc_content c) (sc_reference c)).
Proof.
  intros Hf Hc Hid.
  assert (Hm : In m (skills b) /\ sm_name m = n).
  { assert (H : In m (filter (fun m => jsstring_eqb (sm_name m) n) (skills b)))
      by (rewrite Hf; left; reflexivity).
    apply filter_In in H. destruct H as [H E]. apply jsstring_eqb_eq in E. auto. }
  destruct Hm as [Hm Hn].
  set (target := mkSkillEntry (sm_id m) n (sc_content c) (sc_reference c)).
  assert (HA : forall e, In e (skill_entries b) ->
                 exists m', In m' (skills b) /\ se_id e = sm_id m' /\ se_name e = sm_name m'
                            /\ (sm_name m' = n -> e = target)).
  { intros e He. unfold skill_entries in He. apply in_flat_map in He.
    destruct He as (m' & Hm' & He).
    destruct (JSObject.get (c_skills (content b)) (sm_name m')) as [c'|] eqn:Hc'; [|destruct He].
    destruct He as [<-|[]]. exists m'. repeat split; auto.
    intros E. rewrite E in Hc'. assert (c' = c) by congruence. subst c'.
    assert (H : In m' (filter (fun m => jsstring_eqb (sm_name m) n) (skills b))).
    { apply filter_In. split; [exact Hm' | apply jsstring_eqb_eq; exact E]. }
    rewrite Hf in H. destruct H as [<-|[]]. unfold target. rewrite E. reflexivity. }
  assert (HB : In target (skill_entries b)).
  { unfold skill_entries. apply in_flat_map. exists m. split; [exact Hm|].
    rewrite Hn, Hc. left. unfold target. reflexivity. }
  unfold get_skill, index_of_bundle. cbn [skills_by_id skills_by_name].
  destruct (find (index_by se_id (skill_entries b)) n) as [e|] eqn:Hbyid.
  - apply index_by_find in Hbyid. destruct Hbyid as [He Hide].
    destruct (HA e He) as (m' & Hm' & Hid' & Hname' & Htarget).
    f_equal. apply Htarget. apply Hid; [exact Hm' | congruence].
  - destruct (index_by_found se_name _ _ HB) as [e' He'].
    cbn [target se_name] in He'. rewrite He'.
    apply index_by_find in He'. destruct He' as [He' Hn'].
    destruct (HA e' He') as (m' & Hm' & _ & Hname' & Htarget).
    f_equal. apply Htarget. congruence.
Qed.

Lemma get_subagent_by_name b n m c :
  filter (fun m => jsstring_eqb (am_name m) n) (subagents b) = [m] ->
  JSObject.get (c_subagents (content b)) n = Some c ->
  (forall m', In m' (subagents b) -> am_id m' = n -> am_name m' = n) ->
  get_subagent (index_of_bundle b) n
  = Some (mkSubagentEntry (am_id m) n (ac_content c)).
Proof.
  intros Hf Hc Hid.
  assert (Hm : In m (subagents b) /\ am_name m = n).
  { assert (H : In m (filter (fun m => jsstring_eqb (am_name m) n) (subagents b)))
      by (rewrite Hf; left; reflexivity).
    apply filter_In in H. destruct H as [H E]. apply jsstring_eqb_eq in E. auto. }
  destruct Hm as [Hm Hn].
  set (target := mkSubagentEntry (am_id m) n (ac_content c)).
  assert (HA : forall e, In e (subagent_entries b) ->
                 exists m', In m' (subagents b) /\ ae_id e = am_id m' /\ ae_name e = am_name m'
                            /\ (am_name m' = n -> e = target)).
  { intros e He. unfold subagent_entries in He. apply in_flat_map in He.
    destruct He as (m' & Hm' & He).
    destruct (JSObject.get (c_subagents (content b)) (am_name m')) as [c'|] eqn:Hc'; [|destruct He].
    destruct He as [<-|[]]. exists m'. repeat split; auto.
    intros E. rewrite E in Hc'. assert (c' = c) by congruence. subst c'.
    assert (H : In m' (filter (fun m => jsstring_eqb (am_name m) n) (subagents b))).
    { apply filter_In. split; [exact Hm' | apply jsstring_eqb_eq; exact E]. }
    rewrite Hf in H. destruct H as [<-|[]]. unfold target. rewrite E. reflexivity. }
  assert (HB : In target (subagent_entries b)).
  { unfold subagent_entries. apply in_flat_map. exists m. split; [exact Hm|].
    rewrite Hn, Hc. left. unfold target. reflexivity. }
  unfold get_subagent, index_of_bundle. cbn [subagents_by_id subagents_by_name].
  destruct (find (index_by ae_id (subagent_entries b)) n) as [e|] eqn:Hbyid.
  - apply index_by_find in Hbyid. destruct Hbyid as [He Hide].
    destruct (HA e He) as (m' & Hm' & Hid' & Hname' & Htarget).
    f_equal. apply Htarget. apply Hid; [exact Hm' | congruence].
  - destruct (index_by_found ae_name _ _ HB) as [e' He'].
    cbn [target ae_name] in He'. rewrite He'.
    apply index_by_find in He'. destruct He' as [He' Hn'].
    destruct (HA e' He') as (m' & Hm' & _ & Hname' & Htarget).
    f_equal. apply Htarget. congruence.
Qed.

Lemma bundle_keys_NoDup input out :
  output input = Ok out ->
  NoDup (List.map fst (c_skills (content out)))
  /\ NoDup (List.map fst (c_subagents (content out))).
Proof.
  intros Hout.
  destruct (output_inv _ _ Hout) as (sd & sa & Hsd & Hsa & _ & _ & Hcs & Hca).
  destruct (buildSkills_wf _ _ Hsd) as [Hnd _].
  destruct (buildSubagents_wf _ _ Hsa) as [Hnd' _].
  rewrite Hcs, Hca, !keys_map_entries by assumption.
  split; apply NoDup_keys_entries; assumption.
Qed.

Lemma wf_node_Dir es : wf_node (Dir es) <-> wf_dirents es.
Proof.
  unfold wf_dirents. cbn [wf_node]. induction es as [|[n y] es IH].
  - split; [constructor | reflexivity].
  - split.
    + intros (H1 & H2 & H3). constructor; [auto | apply IH; exact H3].
    + intros H. inversion H as [|? ? [H1 H2] H3]; subst. cbn [fst snd] in *.
      split; [exact H1|]. split; [exact H2 | apply IH; exact H3].
Qed.

Lemma wf_json_array items : wf_json (JArray items) <-> Forall wf_json items.
Proof.
  cbn [wf_json]. induction items as [|x l IH].
  - split; [constructor | reflexivity].
  - split.
    + intros [H1 H2]. constructor; [exact H1 | apply IH; exact H2].
    + intros H. inversion H; subst. split; [assumption | apply IH; assumption].
Qed.

Lemma wf_json_object members :
  wf_json (JObject members)
  <-> Forall (fun m => code_units (fst m) /\ wf_json (snd m)) members.
Proof.
  cbn [wf_json]. induction members as [|[k x] l IH].
  - split; [constructor | reflexivity].
  - split.
    + intros (H1 & H2 & H3). constructor; [auto | apply IH; exact H3].
    + intros H. inversion H as [|? ? [H1 H2] H3]; subst. cbn [fst snd] in *.
      split; [exact H1|]. split; [exact H2 | apply IH; exact H3].
Qed.

Lemma code_units_js s : code_units (js s).
Proof.
  unfold code_units, js. apply Forall_map, Forall_forall. intros a _.
  pose proof (N_ascii_bounded a). lia.
Qed.

Lemma code_units_app a b : code_units a -> code_units b -> code_units (a ++ b).
Proof. intros Ha Hb. apply Forall_app. auto. Qed.

Lemma code_units_app_inv a b : code_units (a ++ b) -> code_units a /\ code_units b.
Proof. apply Forall_app. Qed.

Lemma code_units_join sep parts :
  code_units sep -> Forall (fun p => code_units p) parts -> code_units (join sep parts).
Proof.
  intros Hsep H. induction H as [|p parts Hp _ IH]; [constructor|].
  destruct parts as [|q parts]; [exact Hp|].
  change (join sep (p :: q :: parts)) with (p ++ sep ++ join sep (q :: parts)).
  auto using code_units_app.
Qed.

Lemma code_units_trimStart s : code_units s -> code_units (trimStart s).
Proof.
  induction 1 as [|c s Hc Hs IH]; [constructor|].
  simpl. destruct (is_space c); [exact IH | constructor; assumption].
Qed.

Lemma code_units_trim s : code_units s -> code_units (trim s).
Proof.
  intros H. unfold trim, trimEnd. apply Forall_rev, code_units_trimStart, Forall_rev,
    code_units_trimStart, H.
Qed.

Lemma code_units_delete_all pat s : forall start,
  code_units s -> code_units (delete_all pat start s).
Proof.
  induction s as [|c s IH]; intros start H; [constructor|].
  inversion H; subst. cbn [delete_all].
  destruct (run_alt pat start (c :: s)); [apply IH; assumption|].
  constructor; [assumption | apply IH; assumption].
Qed.

Lemma code_units_removelast s : code_units s -> code_units (removelast s).
Proof.
  induction 1 as [|c s Hc Hs IH]; [constructor|].
  simpl. destruct s; [constructor | constructor; assumption].
Qed.

Lemma code_units_slice s : code_units s -> code_units (slice_1_m1 s).
Proof.
  intros H. unfold slice_1_m1. apply code_units_removelast.
  destruct H; [constructor | assumption].
Qed.

Lemma code_units_firstn n s : code_units s -> code_units (firstn n s).
Proof.
  revert n. induction s as [|c s IH]; intros [|n] H; simpl; try constructor.
  - inversion H; assumption.
  - apply IH. inversion H; assumption.
Qed.

Lemma code_units_or_else a b : code_units_opt a -> code_units b -> code_units (or_else a b).
Proof. destruct a as [[|c s]|]; simpl; auto. Qed.

Lemma code_units_basename f : code_units f -> code_units (basename_md f).
Proof.
  intros H. unfold basename_md.
  destruct (jsstring_eqb f (js ".md")); [constructor|].
  destruct (endsWith f (js ".md")); [apply code_units_firstn|]; exact H.
Qed.

Lemma code_units_extractFrontmatter content fm :
  code_units content -> extractFrontmatter content = Ok fm ->
  code_units_opt (fm_name fm) /\ code_units_opt (fm_description fm).
Proof.
  intros Hc Hfm.
  destruct (leading_block content) as [block|] eqn:Hb.
  - assert (Hblock : code_units block).
    { unfold leading_block in Hb.
      destruct (match_ re_frontmatter content) as [g|] eqn:Hm; [|discriminate].
      destruct (match_frontmatter_sound _ _ Hm) as (ws & b & rest & -> & _ & ->).
      inversion Hb; subst.
      repeat (apply code_units_app_inv in Hc; destruct Hc as [? Hc]). assumption. }
    assert (Hcap : forall l v, match_ [alt_field l] block = Some (Some v) -> code_units v).
    { intros l v Hm. apply match_field_sound in Hm.
      destruct Hm as (pre & ws & v' & post & E & _ & _ & _ & Hv). inversion Hv; subst.
      repeat (apply code_units_app_inv in Hblock; destruct Hblock as [? Hblock]).
      assumption. }
    destruct (extractFrontmatter_block _ _ Hb) as (fm' & Hfm' & Hname & Hdesc).
    assert (fm' = fm) by congruence. subst fm'. rewrite Hname, Hdesc. split.
    + destruct (match_ re_name block) as [[v|]|] eqn:Hn; cbn; auto.
      rewrite re_name_field in Hn.
      apply code_units_delete_all, code_units_trim, (Hcap _ _ Hn).
    + destruct (match_ re_description block) as [[v|]|] eqn:Hd; cbn; auto.
      rewrite re_description_field in Hd. pose proof (Hcap _ _ Hd) as Hv.
      destruct (truthy _ && _); cbn;
        [apply code_units_slice|]; apply code_units_trim, Hv.
  - unfold leading_block in Hb. unfold extractFrontmatter in Hfm.
    destruct (match_ re_frontmatter content) as [g|] eqn:Hm.
    + destruct (match_frontmatter_sound _ _ Hm) as (_ & b & _ & _ & _ & ->). discriminate.
    + inversion Hfm; subst. cbn. auto.
Qed.

Lemma wf_lookup name es x :
  wf_dirents es -> lookup name es = Some x -> wf_node x.
Proof.
  induction 1 as [|[n y] es [_ Hy] _ IH]; simpl; [discriminate|].
  destruct (jsstring_eqb n name); [intros H; inversion H; subst; exact Hy | exact IH].
Qed.

Lemma wf_skill_record_of d r :
  code_units (fst d) -> wf_node (snd d) ->
  skill_record d = Ok (Some r) -> wf_skill_record r.
Proof.
  intros Hn Hd Hr.
  destruct (skill_record_Some _ _ Hr) as (children & text & fm & ref & Hdir & Hs & Hfm & -> & Href).
  rewrite Hdir in Hd. apply wf_node_Dir in Hd.
  pose proof (wf_lookup _ _ _ Hd Hs) as Htext. cbn [wf_node] in Htext.
  destruct (code_units_extractFrontmatter _ _ Htext Hfm) as [H1 H2].
  unfold wf_skill_record. cbn.
  repeat split; auto using code_units_or_else.
  - apply code_units_or_else; [exact H2 | constructor].
  - destruct Href as [[_ ->]|(t & Ht & ->)]; cbn; [exact I|].
    exact (wf_lookup _ _ _ Hd Ht).
Qed.

Lemma wf_subagent_record_of es f r :
  wf_dirents es -> In f (List.map fst es) ->
  subagent_record es f = Ok r -> wf_subagent_record r.
Proof.
  intros Hes Hf Hr. unfold subagent_record in Hr.
  destruct (lookup f es) as [[text|]|] eqn:Hl; try discriminate.
  cbn [readFileSync bind] in Hr.
  destruct (extractFrontmatter text) as [fm|] eqn:Hfm; [|discriminate].
  cbn [bind] in Hr. inversion Hr; subst.
  pose proof (wf_lookup _ _ _ Hes Hl) as Htext. cbn [wf_node] in Htext.
  destruct (code_units_extractFrontmatter _ _ Htext Hfm) as [H1 H2].
  assert (Hname : code_units f).
  { apply in_map_iff in Hf. destruct Hf as (e & <- & He).
    unfold wf_dirents in Hes. rewrite Forall_forall in Hes. apply (Hes e He). }
  unfold wf_subagent_record. cbn.
  repeat split; auto using code_units_or_else, code_units_basename.
  apply code_units_or_else; [exact H2 | constructor].
Qed.

Lemma wf_buildSkills root sd :
  wf_dirents root -> buildSkills root = Ok sd ->
  forall k r, In (k, r) (sd_byName sd) -> wf_skill_record r.
Proof.
  intros Hroot Hsd k r Hin.
  destruct (buildSkills_inv _ _ Hsd) as [[_ ->]|(es & rs & Hes & Hrs & Hby & _)];
    [destruct Hin|].
  rewrite Hby in Hin. apply file_all_In in Hin; [|constructor].
  destruct Hin as [[]|(Hr & _ & _)].
  destruct (somes_In _ _ _ _ Hrs Hr) as (d & Hd & Hrec).
  apply filter_In in Hd. destruct Hd as [Hd _].
  pose proof (wf_lookup _ _ _ Hroot Hes) as Hdir. apply wf_node_Dir in Hdir.
  unfold wf_dirents in Hdir. rewrite Forall_forall in Hdir.
  destruct (Hdir d Hd) as [H1 H2].
  exact (wf_skill_record_of _ _ H1 H2 Hrec).
Qed.

Lemma wf_buildSubagents root sa :
  wf_dirents root -> buildSubagents root = Ok sa ->
  forall k r, In (k, r) (sa_byName sa) -> wf_subagent_record r.
Proof.
  intros Hroot Hsa k r Hin.
  destruct (buildSubagents_inv _ _ Hsa) as [[_ ->]|(es & rs & Hes & Hrs & Hby & _)];
    [destruct Hin|].
  rewrite Hby in Hin. apply file_all_In in Hin; [|constructor].
  destruct Hin as [[]|(Hr & _ & _)].
  destruct (Forall2_In_r _ _ _ _ Hrs Hr) as (f & Hf & Hrec).
  apply filter_In in Hf. destruct Hf as [Hf _].
  pose proof (wf_lookup _ _ _ Hroot Hes) as Hdir. apply wf_node_Dir in Hdir.
  exact (wf_subagent_record_of _ _ _ Hdir Hf Hrec).
Qed.

Lemma code_units_catalog_line name id desc :
  code_units name -> code_units id -> code_units desc ->
  code_units (catalog_line name id desc).
Proof.
  intros. unfold catalog_line.
  repeat (apply code_units_app; auto using code_units_js).
  repeat constructor.
Qed.

Lemma code_units_buildCatalog sd sa :
  (forall k r, In (k, r) (sd_byName sd) -> wf_skill_record r) ->
  (forall k r, In (k, r) (sa_byName sa) -> wf_subagent_record r) ->
  Forall (fun m => code_units (sm_id m) /\ code_units (sm_name m)) (sd_skills sd) ->
  Forall (fun m => code_units (am_id m) /\ code_units (am_name m)) (sd_subagents sa) ->
  code_units (buildCatalog sd sa).
Proof.
  intros Hs Ha Hms Hma. unfold buildCatalog.
  apply code_units_join; [repeat constructor|].
  apply Forall_app; split; [apply Forall_app; split; [apply Forall_app; split|]|].
  - repeat (apply Forall_cons; [first [apply code_units_js | constructor]|]). constructor.
  - apply Forall_map. eapply Forall_impl; [|exact Hms].
    intros m [H1 H2]. apply code_units_catalog_line; auto.
    apply code_units_or_else; [|apply code_units_js].
    destruct (JSObject.get (sd_byName sd) (sm_name m)) as [r|] eqn:Hg; cbn; [|exact I].
    apply get_Some_In in Hg. apply (Hs _ _ Hg).
  - repeat (apply Forall_cons; [first [apply code_units_js | constructor]|]). constructor.
  - apply Forall_map. eapply Forall_impl; [|exact Hma].
    intros m [H1 H2]. apply code_units_catalog_line; auto.
    apply code_units_or_else; [|apply code_units_js].
    destruct (JSObject.get (sa_byName sa) (am_name m)) as [r|] eqn:Hg; cbn; [|exact I].
    apply get_Some_In in Hg. apply (Ha _ _ Hg).
Qed.

Lemma code_units_readWhenToUse root w :
  wf_dirents root -> readWhenToUse root = Ok w -> code_units w.
Proof.
  intros Hroot. unfold readWhenToUse.
  destruct (lookup (js "docs") root) as [[t|docs]|] eqn:Hl;
    try (intros H; inversion H; constructor).
  pose proof (wf_lookup _ _ _ Hroot Hl) as Hdocs. apply wf_node_Dir in Hdocs.
  unfold existsSync.
  destruct (lookup (js "when-to-use.md") docs) as [[t|]|] eqn:Hw; cbn [readFileSync];
    intros H; inversion H; subst; [|constructor].
  exact (wf_lookup _ _ _ Hdocs Hw).
Qed.

Lemma code_units_to_string a : code_units_opt a -> code_units (to_string a).
Proof. destruct a; [cbn; auto | intros _; apply (code_units_js "undefined")]. Qed.

Lemma code_units_buildOverview input ov :
  wf_input input -> buildOverview input = Ok ov -> code_units ov.
Proof.
  intros [_ Hpkg]. unfold buildOverview.
  destruct (package_json input) as [pkg|] eqn:Hp; [|discriminate].
  destruct (Hpkg pkg eq_refl) as (H1 & H2 & H3).
  cbn [bind]. intros H.
  match type of H with Ok ?x = Ok _ => assert (E : x = ov) by congruence end.
  clear H. subst ov.
  apply code_units_join; [repeat constructor|].
  repeat match goal with
         | |- Forall _ (_ :: _) => apply Forall_cons
         | |- Forall _ [] => apply Forall_nil
         end;
    repeat match goal with
           | |- code_units (_ ++ _) => apply code_units_app
           | |- code_units (js _) => apply code_units_js
           | |- code_units (to_string _) => apply code_units_to_string; assumption
           | |- code_units (or_else _ _) => apply code_units_or_else; [assumption|]
           | |- code_units [] => constructor
           | |- code_units [8212] => repeat constructor
           end.
Qed.

Lemma code_units_unicode_escape c : code_units (unicode_escape c).
Proof.
  eapply Forall_impl; [|apply unicode_escape_ascii]. intros; cbv beta in *; lia.
Qed.

Lemma code_units_quote_unit c : c < 65536 -> code_units (quote_unit c).
Proof.
  intros H. unfold quote_unit.
  repeat (match goal with |- context [if ?b then _ else _] => destruct b end);
    try apply code_units_unicode_escape; repeat constructor; lia.
Qed.

Lemma code_units_quote_units_le n : forall s,
  (List.length s <= n)%nat -> code_units s -> code_units (quote_units s).
Proof.
  induction n as [|n IH]; intros s Hlen Hs.
  - destruct s; [constructor | simpl in Hlen; lia].
  - destruct s as [|c s]; [constructor|].
    simpl in Hlen. inversion Hs as [|? ? Hc Hs']; subst. cbn [quote_units].
    destruct (is_high_surrogate c).
    + destruct s as [|d s]; [apply code_units_quote_unit; exact Hc|].
      inversion Hs' as [|? ? Hd Hs'']; subst.
      destruct (is_low_surrogate d).
      * constructor; [exact Hc|]. constructor; [exact Hd|].
        apply IH; [simpl in Hlen; lia | exact Hs''].
      * apply code_units_app; [apply code_units_quote_unit; exact Hc|].
        apply IH; [lia | exact Hs'].
    + apply code_units_app; [apply code_units_quote_unit; exact Hc|].
      apply IH; [lia | exact Hs'].
Qed.

Lemma code_units_QuoteJSONString s : code_units s -> code_units (QuoteJSONString s).
Proof.
  intros H. unfold QuoteJSONString.
  apply code_units_app; [repeat constructor|].
  apply code_units_app; [|repeat constructor].
  apply (code_units_quote_units_le (List.length s)); [lia | exact H].
Qed.

Lemma code_units_serialize v : wf_json v -> code_units (serialize [] [] v).
Proof.
  induction v as [| b | s | items IH | members IH] using json_ind'; intros Hwf.
  - apply code_units_js.
  - destruct b; apply code_units_js.
  - apply code_units_QuoteJSONString. exact Hwf.
  - apply wf_json_array in Hwf.
    cbn [serialize app]. destruct (List.map (serialize [] []) items) eqn:E;
      [apply code_units_js|].
    rewrite <- E. apply code_units_app; [apply code_units_js|].
    apply code_units_app; [|apply code_units_js].
    apply code_units_join; [apply code_units_js|]. apply Forall_map.
    rewrite Forall_forall in *. intros x Hx. apply IH; auto.
  - apply wf_json_object in Hwf.
    cbn [serialize app]. destruct (List.map _ members) eqn:E; [apply code_units_js|].
    rewrite <- E. apply code_units_app; [apply code_units_js|].
    apply code_units_app; [|apply code_units_js].
    apply code_units_join; [apply code_units_js|]. apply Forall_map.
    rewrite Forall_forall in *. intros m Hm. destruct (Hwf m Hm) as [Hk Hv].
    apply code_units_app; [apply code_units_QuoteJSONString; exact Hk|].
    apply code_units_app; [apply code_units_js|]. cbn [app]. apply IH; auto.
Qed.

Lemma wf_json_of_obj {V} (f : V -> json) (o : JSObject.obj V) :
  (forall k v, In (k, v) o -> code_units k /\ wf_json (f v)) ->
  wf_json (json_of_obj f o).
Proof.
  intros H. unfold json_of_obj. apply wf_json_object, Forall_map, Forall_forall.
  intros [k v] Hin. cbn [fst snd]. apply H. apply In_entries. exact Hin.
Qed.

Lemma In_map_entries {V W} (f : V -> W) (o : JSObject.obj V) k w :
  NoDup (List.map fst o) ->
  In (k, w) (map_entries f o) -> exists v, In (k, v) o /\ w = f v.
Proof.
  intros Hnd Hin. rewrite map_entries_NoDup in Hin by exact Hnd.
  apply in_map_iff in Hin. destruct Hin as ([k' v] & E & Hin). inversion E; subst.
  exists v. split; [apply In_entries; exact Hin | reflexivity].
Qed.

Ltac wf_members :=
  apply wf_json_object;
  repeat (apply Forall_cons;
          [cbn [fst snd]; split; [apply code_units_js|] |]);
  try apply Forall_nil.

Lemma wf_json_of_skill_meta m :
  code_units (sm_id m) -> code_units (sm_name m) -> wf_json (json_of_skill_meta m).
Proof. intros H1 H2. unfold json_of_skill_meta. wf_members; [exact H1 | exact H2 | exact I]. Qed.

Lemma wf_json_of_subagent_meta m :
  code_units (am_id m) -> code_units (am_name m) -> wf_json (json_of_subagent_meta m).
Proof. intros H1 H2. unfold json_of_subagent_meta. wf_members; [exact H1 | exact H2]. Qed.

Lemma wf_json_of_skill_content c :
  code_units (sc_content c) -> code_units_opt (sc_reference c) ->
  wf_json (json_of_skill_content c).
Proof.
  intros H1 H2. unfold json_of_skill_content. wf_members; [exact H1|].
  destruct (sc_reference c); [exact H2 | exact I].
Qed.

Lemma wf_json_of_subagent_content c :
  code_units (ac_content c) -> wf_json (json_of_subagent_content c).
Proof. intros H1. unfold json_of_subagent_content. wf_members. exact H1. Qed.

(** The text a build serializes is made of code units when its input is. *)
Lemma code_units_jsonContent input out :
  wf_input input -> output input = Ok out -> code_units (jsonContent out).
Proof.
  intros Hwf Hout.
  pose proof Hwf as [Hroot _].
  destruct (output_inv _ _ Hout) as (sd & sa & Hsd & Hsa & Hskills & Hsubs & Hcs & Hca).
  assert (Hcat : code_units (c_whenToUse (content out))
                 /\ code_units (c_overview (content out))
                 /\ c_catalog (content out) = buildCatalog sd sa).
  { unfold output in Hout. rewrite Hsd, Hsa in Hout. cbn [bind] in Hout.
    destruct (readWhenToUse (ROOT input)) as [w|] eqn:Hw; [|discriminate].
    destruct (buildOverview input) as [ov|] eqn:Hov; [|discriminate].
    cbn [bind] in Hout.
    assert (E : out = mkBundle (sd_skills sd) (sd_subagents sa)
                  (mkContent
                     (map_entries (fun v => mkSkillContent (sr_content v) (sr_reference v))
                        (sd_byName sd))
                     (map_entries (fun v => mkSubagentContent (ar_content v)) (sa_byName sa))
                     (buildCatalog sd sa) w ov)) by congruence.
    rewrite E. cbn [content c_catalog c_whenToUse c_overview].
    split; [exact (code_units_readWhenToUse _ _ Hroot Hw)|
            split; [exact (code_units_buildOverview _ _ Hwf Hov) | reflexivity]]. }
  destruct (buildSkills_wf _ _ Hsd) as [Hnd Hnamed].
  destruct (buildSubagents_wf _ _ Hsa) as [Hnd' Hnamed'].
  pose proof (wf_buildSkills _ _ Hroot Hsd) as Hrs.
  pose proof (wf_buildSubagents _ _ Hroot Hsa) as Hra.
  assert (Hms : Forall (fun m => code_units (sm_id m) /\ code_units (sm_name m)) (sd_skills sd)).
  { apply Forall_forall. intros m Hm.
    assert (Hsk : sd_skills sd = List.map skill_meta (JSObject.values (sd_byName sd))).
    { destruct (buildSkills_inv _ _ Hsd) as [[_ ->]|(_ & _ & _ & _ & _ & H)]; auto. }
    destruct (skills_from_records _ _ Hsk Hm) as (k & r & Hin & ->).
    destruct (Hrs _ _ Hin) as (H1 & H2 & _). split; assumption. }
  assert (Hma : Forall (fun m => code_units (am_id m) /\ code_units (am_name m)) (sd_subagents sa)).
  { apply Forall_forall. intros m Hm.
    assert (Hsk : sd_subagents sa = List.map subagent_meta (JSObject.values (sa_byName sa))).
    { destruct (buildSubagents_inv _ _ Hsa) as [[_ ->]|(_ & _ & _ & _ & _ & H)]; auto. }
    rewrite Hsk in Hm. apply in_map_iff in Hm. destruct Hm as (r & <- & Hm).
    unfold JSObject.values in Hm. apply in_map_iff in Hm. destruct Hm as ([k r'] & <- & Hm).
    apply (proj1 (In_entries _ _ _)) in Hm.
    destruct (Hra _ _ Hm) as (H1 & H2 & _). split; assumption. }
  unfold jsonContent, JSON_stringify.
  change (repeat 32 (N.to_nat (N.min 10 0))) with (@nil N).
  apply code_units_serialize. unfold json_of_bundle.
  rewrite Hskills, Hsubs, Hcs, Hca.
  wf_members.
  - apply wf_json_array, Forall_map. eapply Forall_impl; [|exact Hms].
    intros m [H1 H2]. apply wf_json_of_skill_meta; assumption.
  - apply wf_json_array, Forall_map. eapply Forall_impl; [|exact Hma].
    intros m [H1 H2]. apply wf_json_of_subagent_meta; assumption.
  - wf_members.
    + apply wf_json_of_obj. intros k c Hin.
      apply In_map_entries in Hin; [|exact Hnd]. destruct Hin as (r & Hin & ->).
      destruct (Hrs _ _ Hin) as (_ & H2 & _ & H4 & H5).
      rewrite <- (Hnamed _ _ Hin). split; [exact H2|].
      apply wf_json_of_skill_content; assumption.
    + apply wf_json_of_obj. intros k c Hin.
      apply In_map_entries in Hin; [|exact Hnd']. destruct Hin as (r & Hin & ->).
      destruct (Hra _ _ Hin) as (_ & H2 & _ & H4).
      rewrite <- (Hnamed' _ _ Hin). split; [exact H2|].
      apply wf_json_of_subagent_content; assumption.
    + destruct Hcat as (_ & _ & ->).
      apply code_units_buildCatalog; assumption.
    + apply Hcat.
    + apply Hcat.
Qed.

Lemma valid_string_code_units s : valid_string s = true -> code_units s.
Proof.
  unfold valid_string, code_units. rewrite forallb_forall, Forall_forall.
  intros H c Hc. apply N.ltb_lt. auto.
Qed.

Lemma valid_opt_code_units a : valid_opt a = true -> code_units_opt a.
Proof. destruct a; cbn; [apply valid_string_code_units | auto]. Qed.

Lemma valid_node_wf : forall x, valid_node x = true -> wf_node x.
Proof.
  fix IH 1. intros [text|children]; cbn [valid_node wf_node].
  - apply valid_string_code_units.
  - induction children as [|[n y] es IHes]; [auto|].
    intros H. apply andb_true_iff in H. destruct H as [H H3].
    apply andb_true_iff in H. destruct H as [H1 H2].
    split; [apply valid_string_code_units; exact H1|].
    split; [apply IH; exact H2 | apply IHes; exact H3].
Qed.

Lemma valid_input_wf input : valid_input input = true -> wf_input input.
Proof.
  unfold valid_input, wf_input. intros H.
  apply andb_true_iff in H. destruct H as [H1 H2]. split.
  - apply wf_node_Dir, valid_node_wf. exact H1.
  - intros pkg Hp. rewrite Hp in H2.
    apply andb_true_iff in H2. destruct H2 as [H2 H5].
    apply andb_true_iff in H2. destruct H2 as [H3 H4].
    auto using valid_opt_code_units.
Qed.

(** ** Build, load, Get *)




(** * Further properties of the script *)

(** ** The fields of a metadata block *)

Section Subsequences.

Variable P : N -> Prop.

Lemma Forall_trimStart s : Forall P s -> Forall P (trimStart s).
Proof.
  induction s as [|c s IH]; intros H; simpl; auto.
  destruct (is_space c); auto. inversion H; auto.
Qed.

Lemma Forall_trim s : Forall P s -> Forall P (trim s).
Proof.
  intros H. unfold trim, trimEnd.
  apply Forall_rev, Forall_trimStart, Forall_rev, Forall_trimStart, H.
Qed.

Lemma Forall_delete_all pat s : forall start,
  Forall P s -> Forall P (delete_all pat start s).
Proof.
  induction s as [|c s IH]; intros start H; simpl; auto.
  inversion H; subst. destruct (run_alt pat start (c :: s)); auto.
Qed.

Lemma Forall_removelast (s : jsstring) : Forall P s -> Forall P (removelast s).
Proof.
  induction s as [|c s IH]; intros H; simpl; auto.
  inversion H; subst. destruct s; auto.
Qed.

Lemma Forall_slice s : Forall P s -> Forall P (slice_1_m1 s).
Proof.
  intros H. unfold slice_1_m1. apply Forall_removelast.
  destruct s; simpl; auto. inversion H; auto.
Qed.

End Subsequences.

(** The parser returns a record on every document; its fields are read from
    the leading block. *)
Lemma extractFrontmatter_fields content :
  exists fm,
    extractFrontmatter content = Ok fm
    /\ (forall n, fm_name fm = Some n ->
          exists block v, leading_block content = Some block
            /\ match_ re_name block = Some (Some v)
            /\ n = delete_all re_quotes true (trim v))
    /\ (forall d, fm_description fm = Some d ->
          exists block v, leading_block content = Some block
            /\ match_ re_description block = Some (Some v)
            /\ (d = trim v \/ d = slice_1_m1 (trim v))).
Proof.
  destruct (leading_block content) as [block|] eqn:Hb.
  - destruct (extractFrontmatter_block _ _ Hb) as (fm & Hfm & Hname & Hdesc).
    exists fm. split; [exact Hfm|]. split.
    + intros n Hn. rewrite Hn in Hname.
      destruct (match_ re_name block) as [[v|]|] eqn:Hm; try discriminate.
      exists block, v. repeat split; congruence.
    + intros d Hd. rewrite Hd in Hdesc.
      destruct (match_ re_description block) as [[v|]|] eqn:Hm; try discriminate.
      exists block, v. split; [reflexivity|]. split; [exact Hm|].
      cbv zeta in Hdesc.
      destruct (truthy (trim v) && _); inversion Hdesc; auto.
  - exists (mkFrontmatter None None). split.
    + unfold leading_block in Hb. unfold extractFrontmatter.
      destruct (match_ re_frontmatter content) as [g|] eqn:Hm; [|reflexivity].
      destruct (match_frontmatter_sound _ _ Hm) as (_ & block & _ & _ & _ & ->).
      discriminate.
    + split; intros x H; discriminate.
Qed.

Lemma extractFrontmatter_Ok content : exists fm, extractFrontmatter content = Ok fm.
Proof. destruct (extractFrontmatter_fields content) as (fm & H & _). eauto. Qed.

Lemma field_value_one_line l s v :
  match_ [alt_field l] s = Some (Some v) -> one_line v /\ v <> [].
Proof.
  intros H. apply match_field_sound in H.
  destruct H as (_ & _ & v' & _ & _ & _ & Hne & Hv & E).
  inversion E; subst v'. split; [|exact Hne].
  eapply Forall_impl; [|exact Hv].
  intros c Hc. unfold is_dot in Hc. destruct (is_line_terminator c); [discriminate|reflexivity].
Qed.

(** X1: the name reader returns on every document, with the name the parser
    finds; a name never runs over a line: it holds no line terminator. *)
Theorem name_is_one_line :
  forall content,
  exists fm,
    extractFrontmatter content = Ok fm
    /\ extractNameFromFrontmatter content = Ok (fm_name fm)
    /\ forall n, fm_name fm = Some n -> one_line n.
Proof.
  intros content.
  destruct (extractFrontmatter_fields content) as (fm & Hfm & Hname & _).
  exists fm. split; [exact Hfm|]. split.
  - unfold extractNameFromFrontmatter. rewrite Hfm. reflexivity.
  - intros n Hn. destruct (Hname n Hn) as (block & v & _ & Hm & ->).
    rewrite re_name_field in Hm. apply field_value_one_line in Hm.
    apply Forall_delete_all, Forall_trim, Hm.
Qed.

(** X2: a description never runs over a line, and it is never longer than
    the value declared in the block. *)
Theorem description_is_one_line :
  forall content,
  exists fm,
    extractFrontmatter content = Ok fm
    /\ forall d, fm_description fm = Some d ->
         one_line d
         /\ exists block v,
              leading_block content = Some block
              /\ match_ re_description block = Some (Some v)
              /\ (List.length d <= List.length v)%nat.
Proof.
  intros content.
  destruct (extractFrontmatter_fields content) as (fm & Hfm & _ & Hdesc).
  exists fm. split; [exact Hfm|].
  intros d Hd. destruct (Hdesc d Hd) as (block & v & Hb & Hm & Hv).
  pose proof Hm as Hm'. rewrite re_description_field in Hm'.
  apply field_value_one_line in Hm'. destruct Hm' as [Hl _].
  split.
  - destruct Hv as [->| ->]; [|apply Forall_slice]; apply Forall_trim, Hl.
  - exists block, v. split; [exact Hb|]. split; [exact Hm|].
    assert (Hts : forall s : list N, (List.length (trimStart s) <= List.length s)%nat).
    { induction s as [|c s IH]; simpl; auto. destruct (is_space c); simpl; lia. }
    assert (Ht : (List.length (trim v) <= List.length v)%nat).
    { unfold trim, trimEnd. rewrite length_rev.
      etransitivity; [apply Hts|]. rewrite length_rev. apply Hts. }
    destruct Hv as [->| ->]; [exact Ht|].
    unfold slice_1_m1.
    assert (Hr : forall s : list N, (List.length (removelast s) <= List.length s)%nat).
    { induction s as [|c s IH]; simpl; auto. destruct s; simpl in *; lia. }
    etransitivity; [apply Hr|]. destruct (trim v); simpl in *; lia.
Qed.
(** ** The body of a document *)

(** X3: when the block of a document begins with a character that is no
    white space, the block the parser reads ends at the first closing marker,
    and neither the block nor the fields depend on the body that follows. *)
Theorem frontmatter_ignores_body :
  forall ws c block body,
    Forall (fun c => is_space c = true) ws ->
    is_space c = false ->
    leading_block (js "---" ++ ws ++ [10] ++ (c :: block) ++ closing_marker ++ body)
    = Some (upto_marker (c :: block))
    /\ extractFrontmatter
         (js "---" ++ ws ++ [10] ++ (c :: block) ++ closing_marker ++ body)
       = extractFrontmatter (js "---" ++ ws ++ [10] ++ (c :: block) ++ closing_marker).
Proof.
  intros ws c block body Hws Hc.
  pose proof (match_frontmatter_block ws c block body Hws Hc) as H1.
  pose proof (match_frontmatter_block ws c block [] Hws Hc) as H2.
  rewrite app_nil_r in H2.
  split.
  - unfold leading_block. rewrite H1. reflexivity.
  - unfold extractFrontmatter. rewrite H1, H2. reflexivity.
Qed.

Lemma frontmatter_ignores_body_witness :
  leading_block
    (js "---" ++ [32] ++ [10] ++ (110 :: js "ame: a") ++ closing_marker ++ js "# Body")
  = Some (upto_marker (110 :: js "ame: a"))
  /\ extractFrontmatter
       (js "---" ++ [32] ++ [10] ++ (110 :: js "ame: a") ++ closing_marker ++ js "# Body")
     = extractFrontmatter
         (js "---" ++ [32] ++ [10] ++ (110 :: js "ame: a") ++ closing_marker).
Proof.
  apply (frontmatter_ignores_body [32] 110 (js "ame: a") (js "# Body")).
  - apply Forall_cons; [reflexivity | apply Forall_nil].
  - reflexivity.
Defined.

(** Without the condition on the first character the body matters: after an
    empty line the pattern can take the first marker into the block. *)
Lemma body_can_extend_block :
  leading_block (js "---" ++ [10; 10] ++ js "---") = Some []
  /\ leading_block (js "---" ++ [10; 10] ++ js "---" ++ [10] ++ js "name: x" ++ [10] ++ js "---")
     = Some (js "---" ++ [10] ++ js "name: x").
Proof. split; vm_compute; reflexivity. Qed.
(** ** When a build fails *)

Lemma skill_step_outcome byName d :
  if unreadable_skill d then skill_step byName d = Throw EISDIR
  else exists byName', skill_step byName d = Ok byName'.
Proof.
  unfold unreadable_skill, skill_step, existsSync.
  destruct (snd d) as [t|children]; [eauto|].
  destruct (lookup SKILL_md children) as [[text|x]|]; cbn [is_dir orb andb negb];
    [| reflexivity | eauto].
  cbn [readFileSync bind].
  destruct (extractFrontmatter_Ok text) as [fm ->]. cbn [bind].
  destruct (lookup REFERENCE_md children) as [[r|y]|]; cbn [is_dir readFileSync bind]; eauto.
Qed.

Lemma for_of_skill_outcome es : forall byName,
  if existsb unreadable_skill es
  then for_of skill_step (filter isDirectory es) byName = Throw EISDIR
  else exists byName', for_of skill_step (filter isDirectory es) byName = Ok byName'.
Proof.
  induction es as [|d es IH]; intros byName; [cbn; eauto|].
  cbn [existsb filter].
  destruct (isDirectory d) eqn:Hd.
  - cbn [for_of]. pose proof (skill_step_outcome byName d) as H.
    destruct (unreadable_skill d); cbn [orb].
    + rewrite H. reflexivity.
    + destruct H as [o ->]. cbn [bind]. apply IH.
  - assert (Hu : unreadable_skill d = false).
    { unfold unreadable_skill. unfold isDirectory in Hd.
      destruct (snd d); [reflexivity | discriminate]. }
    rewrite Hu. cbn [orb]. apply IH.
Qed.

(** The outcome of the skills builder, by what it finds. *)
Lemma skills_outcome :
  forall root,
    (skills_readable root = true -> exists sd, buildSkills root = Ok sd)
    /\ (skills_readable root = false ->
        buildSkills root
        = Throw (if is_file (lookup (js "skills") root) then ENOTDIR else EISDIR)).
Proof.
  intros root. unfold skills_readable, buildSkills, existsSync.
  destruct (lookup (js "skills") root) as [[t|es]|]; cbn [negb is_file readdirSync bind].
  - split; [discriminate | reflexivity].
  - pose proof (for_of_skill_outcome es []) as H.
    destruct (existsb unreadable_skill es); cbn [negb].
    + split; [discriminate|]. intros _. rewrite H. reflexivity.
    + split; [|discriminate]. intros _. destruct H as [o ->]. cbn [bind]. eauto.
  - split; [eauto | discriminate].
Qed.

(** X4: the skills builder returns exactly when the skills root is absent,
    or is a directory in which no skill directory has a directory in the
    place of its primary document or, beside a primary document, of its
    reference.  It throws ENOTDIR when the root is a file, EISDIR
    otherwise. *)
Theorem buildSkills_outcome :
  forall root,
    (skills_readable root = true -> exists sd, buildSkills root = Ok sd)
    /\ (skills_readable root = false ->
        buildSkills root
        = Throw (if is_file (lookup (js "skills") root) then ENOTDIR else EISDIR)).
Proof. exact skills_outcome. Qed.

Lemma lookup_In f es : In f (List.map fst es) -> exists x, lookup f es = Some x.
Proof.
  induction es as [|[n x] es IH]; intros H; [contradiction|].
  cbn [lookup]. destruct (jsstring_eqb n f) eqn:E; [eauto|].
  destruct H as [H|H]; [|auto].
  cbn in H. subst. rewrite jsstring_eqb_refl in E. discriminate.
Qed.

Lemma subagent_step_outcome es byName f :
  In f (List.map fst es) ->
  if is_dir (lookup f es) then subagent_step es byName f = Throw EISDIR
  else exists byName', subagent_step es byName f = Ok byName'.
Proof.
  intros Hin. destruct (lookup_In _ _ Hin) as [x Hx].
  unfold subagent_step. rewrite Hx.
  destruct x as [text|y]; cbn [is_dir readFileSync bind]; [|reflexivity].
  destruct (extractFrontmatter_Ok text) as [fm ->]. cbn [bind]. eauto.
Qed.

Lemma for_of_subagent_outcome es fs : forall byName,
  incl fs (List.map fst es) ->
  if existsb (unreadable_subagent es) fs
  then for_of (subagent_step es) (filter (fun f => endsWith f (js ".md")) fs) byName
       = Throw EISDIR
  else exists byName',
         for_of (subagent_step es) (filter (fun f => endsWith f (js ".md")) fs) byName
         = Ok byName'.
Proof.
  induction fs as [|f fs IH]; intros byName Hincl; [cbn; eauto|].
  assert (Hf : In f (List.map fst es)) by (apply Hincl; left; reflexivity).
  assert (Hfs : incl fs (List.map fst es)) by (intros g Hg; apply Hincl; right; exact Hg).
  cbn [existsb filter]. unfold unreadable_subagent at 1.
  destruct (endsWith f (js ".md")); cbn [andb orb].
  - cbn [for_of]. pose proof (subagent_step_outcome es byName f Hf) as H.
    destruct (is_dir (lookup f es)); cbn [orb].
    + rewrite H. reflexivity.
    + destruct H as [o ->]. cbn [bind]. apply IH, Hfs.
  - apply IH, Hfs.
Qed.

(** The outcome of the subagents builder, by what it finds. *)
Lemma subagents_outcome :
  forall root,
    (subagents_readable root = true -> exists sa, buildSubagents root = Ok sa)
    /\ (subagents_readable root = false ->
        buildSubagents root
        = Throw (if is_file (lookup (js "subagents") root) then ENOTDIR else EISDIR)).
Proof.
  intros root. unfold subagents_readable, buildSubagents, existsSync.
  destruct (lookup (js "subagents") root) as [[t|es]|]; cbn [negb is_file readdirSync bind].
  - split; [discriminate | reflexivity].
  - pose proof (for_of_subagent_outcome es (List.map fst es) [] (incl_refl _)) as H.
    destruct (existsb (unreadable_subagent es) (List.map fst es)); cbn [negb].
    + split; [discriminate|]. intros _. rewrite H. reflexivity.
    + split; [|discriminate]. intros _. destruct H as [o ->]. cbn [bind]. eauto.
  - split; [eauto | discriminate].
Qed.

(** X5: the subagents builder returns exactly when the subagents root is
    absent, or is a directory in which no entry named [*.md] is a directory.
    It throws ENOTDIR when the root is a file, EISDIR otherwise. *)
Theorem buildSubagents_outcome :
  forall root,
    (subagents_readable root = true -> exists sa, buildSubagents root = Ok sa)
    /\ (subagents_readable root = false ->
        buildSubagents root
        = Throw (if is_file (lookup (js "subagents") root) then ENOTDIR else EISDIR)).
Proof. exact subagents_outcome. Qed.

Lemma readWhenToUse_outcome root :
  if when_to_use_readable root then exists w, readWhenToUse root = Ok w
  else readWhenToUse root = Throw EISDIR.
Proof.
  unfold when_to_use_readable, readWhenToUse, existsSync.
  destruct (lookup (js "docs") root) as [[t|docs]|]; eauto.
  destruct (lookup (js "when-to-use.md") docs) as [[t|x]|]; cbn; eauto.
Qed.

(** The bundle is built exactly on the buildable inputs. *)
Lemma output_buildable input :
  if buildable input then exists out, output input = Ok out
  else exists e, output input = Throw e.
Proof.
  unfold buildable, output.
  destruct (skills_outcome (ROOT input)) as [Hs1 Hs2].
  destruct (subagents_outcome (ROOT input)) as [Ha1 Ha2].
  pose proof (readWhenToUse_outcome (ROOT input)) as Hw.
  destruct (skills_readable (ROOT input)); cbn [andb].
  2:{ rewrite Hs2 by reflexivity. cbn [bind]. eauto. }
  destruct (Hs1 eq_refl) as [sd ->]. cbn [bind].
  destruct (subagents_readable (ROOT input)); cbn [andb].
  2:{ rewrite Ha2 by reflexivity. cbn [bind]. eauto. }
  destruct (Ha1 eq_refl) as [sa ->]. cbn [bind].
  destruct (when_to_use_readable (ROOT input)); cbn [andb].
  2:{ rewrite Hw. cbn [bind]. eauto. }
  destruct Hw as [w ->]. cbn [bind].
  unfold buildOverview.
  destruct (package_json input) as [pkg|e]; cbn [bind]; eauto.
Qed.

(** ** Where the entries of a bundle come from *)

Lemma skill_provenance root sd k r :
  buildSkills root = Ok sd ->
  In (k, r) (sd_byName sd) ->
  exists es d children text fm,
    lookup (js "skills") root = Some (Dir es)
    /\ In d es /\ snd d = Dir children
    /\ lookup SKILL_md children = Some (File text)
    /\ extractFrontmatter text = Ok fm
    /\ r = mkSkillRecord (fst d) (or_else (fm_name fm) (fst d))
             (or_else (fm_description fm) []) text
             (match lookup REFERENCE_md children with
              | Some (File t) => Some t
              | _ => None
              end)
    /\ k = sr_name r.
Proof.
  intros Hsd Hin.
  destruct (buildSkills_wf _ _ Hsd) as [_ Hnamed].
  pose proof (Hnamed _ _ Hin) as Hk.
  destruct (buildSkills_inv _ _ Hsd) as [[_ ->]|(es & rs & Hes & Hrs & Hby & _)];
    [destruct Hin|].
  rewrite Hby in Hin. apply file_all_In in Hin; [|constructor].
  destruct Hin as [[]|(Hr & _ & _)].
  destruct (somes_In _ _ _ _ Hrs Hr) as (d & Hd & Hrec).
  apply filter_In in Hd. destruct Hd as [Hd _].
  destruct (skill_record_Some _ _ Hrec) as (children & text & fm & ref & H1 & H2 & H3 & H4 & H5).
  exists es, d, children, text, fm. repeat split; auto.
  rewrite H4. f_equal.
  destruct H5 as [[-> ->]|(t & -> & ->)]; reflexivity.
Qed.

Lemma subagent_provenance root sa k r :
  buildSubagents root = Ok sa ->
  In (k, r) (sa_byName sa) ->
  exists es f text fm,
    lookup (js "subagents") root = Some (Dir es)
    /\ In f (List.map fst es) /\ endsWith f (js ".md") = true
    /\ lookup f es = Some (File text)
    /\ extractFrontmatter text = Ok fm
    /\ r = mkSubagentRecord (basename_md f) (or_else (fm_name fm) (basename_md f))
             (or_else (fm_description fm) []) text
    /\ k = ar_name r.
Proof.
  intros Hsa Hin.
  destruct (buildSubagents_wf _ _ Hsa) as [_ Hnamed].
  pose proof (Hnamed _ _ Hin) as Hk.
  destruct (buildSubagents_inv _ _ Hsa) as [[_ ->]|(es & rs & Hes & Hrs & Hby & _)];
    [destruct Hin|].
  rewrite Hby in Hin. apply file_all_In in Hin; [|constructor].
  destruct Hin as [[]|(Hr & _ & _)].
  destruct (Forall2_In_r _ _ _ _ Hrs Hr) as (f & Hf & Hrec).
  apply filter_In in Hf. destruct Hf as [Hf Hmd].
  unfold subagent_record in Hrec.
  destruct (lookup f es) as [[text|y]|] eqn:Hl; try discriminate.
  cbn [readFileSync bind] in Hrec.
  destruct (extractFrontmatter text) as [fm|e] eqn:Hfm; [|discriminate].
  cbn [bind] in Hrec.
  exists es, f, text, fm. repeat split; auto. congruence.
Qed.

(** X7: every listed skill is a directory of the skills root that holds a
    file [SKILL.md]: its id is the directory's name, its name is the name the
    document declares or else the id, and the content stored under its name is
    the text of that file, with the text of the file [REFERENCE.md] beside it
    when there is one. *)
Theorem listed_skill_source :
  forall input out m,
    output input = Ok out ->
    In m (skills out) ->
    exists es children text fm c,
      lookup (js "skills") (ROOT input) = Some (Dir es)
      /\ In (sm_id m, Dir children) es
      /\ lookup SKILL_md children = Some (File text)
      /\ extractFrontmatter text = Ok fm
      /\ sm_name m = or_else (fm_name fm) (sm_id m)
      /\ JSObject.get (c_skills (content out)) (sm_name m) = Some c
      /\ sc_content c = text
      /\ sc_reference c = match lookup REFERENCE_md children with
                          | Some (File t) => Some t
                          | _ => None
                          end.
Proof.
  intros input out m Hout Hm.
  destruct (output_inv _ _ Hout) as (sd & sa & Hsd & _ & Hskills & _ & Hcs & _).
  destruct (buildSkills_wf _ _ Hsd) as [Hnd Hnamed].
  assert (Hsk : sd_skills sd = List.map skill_meta (JSObject.values (sd_byName sd))).
  { destruct (buildSkills_inv _ _ Hsd) as [[_ ->]|(_ & _ & _ & _ & _ & H)]; auto. }
  rewrite Hskills in Hm.
  destruct (skills_from_records _ _ Hsk Hm) as (k & r & Hin & ->).
  destruct (skill_provenance _ _ _ _ Hsd Hin)
    as (es & d & children & text & fm & Hes & Hd & Hch & Htext & Hfm & Hr & Hk).
  exists es, children, text, fm,
    (mkSkillContent (sr_content r) (sr_reference r)).
  rewrite Hcs, get_map_entries by exact Hnd.
  change (sm_name (skill_meta r)) with (sr_name r).
  rewrite <- Hk, (In_get _ _ _ Hnd Hin), Hk.
  rewrite Hr. cbn [skill_meta sm_id sm_name sr_id sr_name sr_content sr_reference
                   sc_content sc_reference option_map].
  repeat split; auto.
  destruct d as [n x]. cbn [fst snd] in *. subst x. exact Hd.
Qed.

Lemma listed_skill_source_witness :
  exists es children text fm c,
    lookup (js "skills") (ROOT sample_input) = Some (Dir es)
    /\ In (js "foo", Dir children) es
    /\ lookup SKILL_md children = Some (File text)
    /\ extractFrontmatter text = Ok fm
    /\ js "bar" = or_else (fm_name fm) (js "foo")
    /\ JSObject.get (c_skills (content (bundle_of sample_input))) (js "bar") = Some c
    /\ sc_content c = text
    /\ sc_reference c = match lookup REFERENCE_md children with
                        | Some (File t) => Some t
                        | _ => None
                        end.
Proof.
  apply (listed_skill_source sample_input (bundle_of sample_input)
           (mkSkillMeta (js "foo") (js "bar") true)).
  - vm_compute. reflexivity.
  - vm_compute. left. reflexivity.
Defined.

(** X8: every listed subagent is a file [<id>.md] of the subagents root:
    its name is the name the document declares or else the id, and the content
    stored under its name is the text of that file. *)
Theorem listed_subagent_source :
  forall input out m,
    output input = Ok out ->
    In m (subagents out) ->
    exists es text fm c,
      lookup (js "subagents") (ROOT input) = Some (Dir es)
      /\ In (am_id m ++ js ".md") (List.map fst es)
      /\ lookup (am_id m ++ js ".md") es = Some (File text)
      /\ extractFrontmatter text = Ok fm
      /\ am_name m = or_else (fm_name fm) (am_id m)
      /\ JSObject.get (c_subagents (content out)) (am_name m) = Some c
      /\ ac_content c = text.
Proof.
  intros input out m Hout Hm.
  destruct (output_inv _ _ Hout) as (sd & sa & _ & Hsa & _ & Hsubs & _ & Hca).
  destruct (buildSubagents_wf _ _ Hsa) as [Hnd Hnamed].
  assert (Hsk : sd_subagents sa = List.map subagent_meta (JSObject.values (sa_byName sa))).
  { destruct (buildSubagents_inv _ _ Hsa) as [[_ ->]|(_ & _ & _ & _ & _ & H)]; auto. }
  rewrite Hsubs, Hsk in Hm. apply in_map_iff in Hm. destruct Hm as (r & <- & Hm).
  unfold JSObject.values in Hm. apply in_map_iff in Hm. destruct Hm as ([k r'] & Hs & Hin).
  cbn [snd] in Hs. subst r'. apply (proj1 (In_entries _ _ _)) in Hin.
  destruct (subagent_provenance _ _ _ _ Hsa Hin)
    as (es & f & text & fm & Hes & Hf & Hmd & Htext & Hfm & Hr & Hk).
  destruct (endsWith_split _ _ Hmd) as [stem ->].
  rewrite basename_md_stem in Hr.
  exists es, text, fm, (mkSubagentContent (ar_content r)).
  rewrite Hca, get_map_entries by exact Hnd.
  change (am_name (subagent_meta r)) with (ar_name r).
  rewrite <- Hk, (In_get _ _ _ Hnd Hin), Hk.
  rewrite Hr. cbn [subagent_meta am_id am_name ar_id ar_name ar_content
                   ac_content option_map].
  repeat split; auto.
Qed.

Lemma listed_subagent_source_witness :
  exists es text fm c,
    lookup (js "subagents") (ROOT sample_input) = Some (Dir es)
    /\ In (js "verifier" ++ js ".md") (List.map fst es)
    /\ lookup (js "verifier" ++ js ".md") es = Some (File text)
    /\ extractFrontmatter text = Ok fm
    /\ js "verifier" = or_else (fm_name fm) (js "verifier")
    /\ JSObject.get (c_subagents (content (bundle_of sample_input))) (js "verifier") = Some c
    /\ ac_content c = text.
Proof.
  apply (listed_subagent_source sample_input (bundle_of sample_input)
           (mkSubagentMeta (js "verifier") (js "verifier"))).
  - vm_compute. reflexivity.
  - vm_compute. left. reflexivity.
Defined.
(** ** The order of the listing *)

Section Order.
Context {V : Type}.
Implicit Types l o : list (jsstring * V).

Lemma insert_ascending_head (p : jsstring * V) l :
  ascending (p :: l) -> JSObject.insert_by_index p l = p :: l.
Proof.
  destruct l as [|q l]; [reflexivity|].
  intros [H _]. cbn [JSObject.insert_by_index].
  apply N.leb_le in H. rewrite H. reflexivity.
Qed.

Lemma sort_ascending l : ascending l -> JSObject.sort_by_index l = l.
Proof.
  induction l as [|p l IH]; [reflexivity|].
  intros H. pose proof H as [_ Hl].
  unfold JSObject.sort_by_index in *. cbn [fold_right].
  rewrite (IH Hl). apply insert_ascending_head, H.
Qed.

Lemma insert_ascending (p : jsstring * V) l :
  ascending l -> ascending (JSObject.insert_by_index p l).
Proof.
  induction l as [|q l IH]; intros H; [cbn; auto|].
  cbn [JSObject.insert_by_index].
  destruct (JSObject.index_of (fst p) <=? JSObject.index_of (fst q)) eqn:E.
  - apply N.leb_le in E. split; [exact E | exact H].
  - apply N.leb_gt in E. destruct H as [Hq Hl].
    specialize (IH Hl). split; [|exact IH].
    destruct l as [|r l]; cbn [JSObject.insert_by_index].
    + lia.
    + destruct (JSObject.index_of (fst p) <=? JSObject.index_of (fst r)); [lia | exact Hq].
Qed.

Lemma sort_is_ascending l : ascending (JSObject.sort_by_index l).
Proof.
  induction l as [|p l IH]; [exact I|].
  unfold JSObject.sort_by_index in *. cbn [fold_right].
  apply insert_ascending, IH.
Qed.

Lemma filter_all {A} (f : A -> bool) (l : list A) :
  (forall x, In x l -> f x = true) -> filter f l = l.
Proof.
  induction l as [|a l IH]; intros H; [reflexivity|].
  cbn [filter]. rewrite (H a (or_introl eq_refl)).
  f_equal. apply IH. intros x Hx. apply H. right. exact Hx.
Qed.

Lemma filter_none {A} (f : A -> bool) (l : list A) :
  (forall x, In x l -> f x = false) -> filter f l = [].
Proof.
  induction l as [|a l IH]; intros H; [reflexivity|].
  cbn [filter]. rewrite (H a (or_introl eq_refl)).
  apply IH. intros x Hx. apply H. right. exact Hx.
Qed.

(** Listing the properties of a listing changes nothing. *)
Lemma entries_idem o : JSObject.entries (JSObject.entries o) = JSObject.entries o.
Proof.
  unfold JSObject.entries at 1.
  set (A := JSObject.sort_by_index (filter (fun p => JSObject.is_index (fst p)) o)).
  set (B := filter (fun p => negb (JSObject.is_index (fst p))) o).
  assert (E : JSObject.entries o = A ++ B) by reflexivity.
  rewrite E.
  assert (HA : forall x, In x A -> JSObject.is_index (fst x) = true).
  { intros x Hx. unfold A in Hx.
    eapply Permutation_in in Hx; [|apply sort_by_index_perm].
    apply filter_In in Hx. apply Hx. }
  assert (HB : forall x, In x B -> JSObject.is_index (fst x) = false).
  { intros x Hx. unfold B in Hx. apply filter_In in Hx. destruct Hx as [_ Hx].
    destruct (JSObject.is_index (fst x)); [discriminate | reflexivity]. }
  rewrite !filter_app.
  rewrite (filter_all _ A HA), (filter_none _ B HB), app_nil_r.
  rewrite (filter_none _ A), (filter_all _ B); cbn [app].
  - rewrite sort_ascending; [reflexivity|]. apply sort_is_ascending.
  - intros x Hx. rewrite (HB x Hx). reflexivity.
  - intros x Hx. rewrite (HA x Hx). reflexivity.
Qed.

End Order.

Section OrderMap.
Context {V W : Type} (g : jsstring * V -> jsstring * W).
Hypothesis g_key : forall p, fst (g p) = fst p.

Lemma insert_map p l :
  JSObject.insert_by_index (g p) (List.map g l)
  = List.map g (JSObject.insert_by_index p l).
Proof.
  induction l as [|q l IH]; [reflexivity|].
  cbn [List.map JSObject.insert_by_index]. rewrite !g_key.
  destruct (JSObject.index_of (fst p) <=? JSObject.index_of (fst q)); [reflexivity|].
  cbn [List.map]. rewrite IH. reflexivity.
Qed.

Lemma sort_map l :
  JSObject.sort_by_index (List.map g l) = List.map g (JSObject.sort_by_index l).
Proof.
  induction l as [|p l IH]; [reflexivity|].
  unfold JSObject.sort_by_index in *. cbn [List.map fold_right].
  rewrite IH. apply insert_map.
Qed.

Lemma filter_map_key (h : jsstring -> bool) l :
  filter (fun p => h (fst p)) (List.map g l)
  = List.map g (filter (fun p => h (fst p)) l).
Proof.
  induction l as [|p l IH]; [reflexivity|].
  cbn [List.map filter]. rewrite g_key.
  destruct (h (fst p)); cbn [List.map]; rewrite IH; reflexivity.
Qed.

Lemma entries_map l : JSObject.entries (List.map g l) = List.map g (JSObject.entries l).
Proof.
  unfold JSObject.entries.
  rewrite (filter_map_key JSObject.is_index),
          (filter_map_key (fun k => negb (JSObject.is_index k))).
  rewrite sort_map, map_app. reflexivity.
Qed.

End OrderMap.

(** The keys of the rebuilt map, in order, are the keys of the map. *)
Lemma keys_map_entries_eq {V W} (f : V -> W) (o : JSObject.obj V) :
  NoDup (List.map fst o) ->
  JSObject.keys (map_entries f o) = JSObject.keys o.
Proof.
  intros Hnd. unfold JSObject.keys.
  rewrite map_entries_NoDup by exact Hnd.
  rewrite (entries_map (fun kv => (fst kv, f (snd kv)))) by reflexivity.
  rewrite entries_idem, map_map. reflexivity.
Qed.

(** X9: the names of the listed skills are the keys of the stored skill
    contents, in the same order, and no name is listed twice; and the same for
    the subagents. *)
Theorem listing_follows_content_keys :
  forall input out,
    output input = Ok out ->
    List.map sm_name (skills out) = JSObject.keys (c_skills (content out))
    /\ List.map am_name (subagents out) = JSObject.keys (c_subagents (content out))
    /\ NoDup (List.map sm_name (skills out))
    /\ NoDup (List.map am_name (subagents out)).
Proof.
  intros input out Hout.
  destruct (output_inv _ _ Hout) as (sd & sa & Hsd & Hsa & Hskills & Hsubs & Hcs & Hca).
  destruct (buildSkills_wf _ _ Hsd) as [Hnd Hnamed].
  destruct (buildSubagents_wf _ _ Hsa) as [Hnd' Hnamed'].
  assert (Hsk : sd_skills sd = List.map skill_meta (JSObject.values (sd_byName sd))).
  { destruct (buildSkills_inv _ _ Hsd) as [[_ ->]|(_ & _ & _ & _ & _ & H)]; auto. }
  assert (Hsu : sd_subagents sa = List.map subagent_meta (JSObject.values (sa_byName sa))).
  { destruct (buildSubagents_inv _ _ Hsa) as [[_ ->]|(_ & _ & _ & _ & _ & H)]; auto. }
  assert (H1 : List.map sm_name (skills out) = JSObject.keys (sd_byName sd)).
  { rewrite Hskills. apply skills_names; assumption. }
  assert (H2 : List.map am_name (subagents out) = JSObject.keys (sa_byName sa)).
  { rewrite Hsubs. apply subagents_names; assumption. }
  rewrite Hcs, Hca, !keys_map_entries_eq by assumption.
  rewrite H1, H2.
  repeat split; try reflexivity; unfold JSObject.keys; apply NoDup_keys_entries; assumption.
Qed.

Lemma listing_follows_content_keys_witness :
  List.map sm_name (skills (bundle_of sample_input))
  = JSObject.keys (c_skills (content (bundle_of sample_input)))
  /\ List.map am_name (subagents (bundle_of sample_input))
     = JSObject.keys (c_subagents (content (bundle_of sample_input)))
  /\ NoDup (List.map sm_name (skills (bundle_of sample_input)))
  /\ NoDup (List.map am_name (subagents (bundle_of sample_input))).
Proof.
  apply (listing_follows_content_keys sample_input (bundle_of sample_input)).
  vm_compute. reflexivity.
Defined.
(** ** The ids of the listing *)

Section Values.
Context {V : Type} (name id : V -> jsstring).
Implicit Types (o : JSObject.obj V) (rs : list V).

Lemma define_split o k v :
  JSObject.define o k v = o ++ [(k, v)]
  \/ exists o1 v0 o2, o = o1 ++ (k, v0) :: o2 /\ JSObject.define o k v = o1 ++ (k, v) :: o2.
Proof.
  induction o as [|[k' v'] o IH]; [left; reflexivity|].
  cbn [JSObject.define]. destruct (jsstring_eqb k' k) eqn:E.
  - apply jsstring_eqb_eq in E. subst k'. right. exists [], v', o. auto.
  - destruct IH as [->|(o1 & v0 & o2 & -> & ->)]; [left; reflexivity|].
    right. exists ((k', v') :: o1), v0, o2. auto.
Qed.

Lemma set_values_NoDup o r ids :
  NoDup (List.map id (List.map snd o) ++ id r :: ids) ->
  NoDup (List.map id (List.map snd (JSObject.set o (name r) r)) ++ ids).
Proof.
  intros H. unfold JSObject.set. destruct (jsstring_eqb (name r) (js "__proto__")).
  - apply NoDup_remove_1 in H. exact H.
  - destruct (define_split o (name r) r) as [->|(o1 & v0 & o2 & -> & ->)].
    + rewrite !map_app, <- app_assoc. exact H.
    + rewrite !map_app in *. cbn [List.map snd] in *.
      rewrite <- !app_assoc in *. cbn [app] in *.
      apply NoDup_remove_1 in H.
      eapply Permutation_NoDup; [|exact H].
      apply Permutation_app_head. symmetry. apply Permutation_middle.
Qed.

Lemma file_all_values_NoDup rs : forall o,
  NoDup (List.map id (List.map snd o) ++ List.map id rs) ->
  NoDup (List.map id (List.map snd (file_all name rs o))).
Proof.
  induction rs as [|r rs IH]; intros o H.
  - cbn in *. rewrite app_nil_r in H. exact H.
  - cbn [file_all fold_left]. apply IH. apply set_values_NoDup. exact H.
Qed.

End Values.

Lemma NoDup_map_on {A B} (f : A -> B) (l : list A) :
  (forall x y, In x l -> In y l -> f x = f y -> x = y) ->
  NoDup l -> NoDup (List.map f l).
Proof.
  induction l as [|a l IH]; intros Hinj Hnd; [constructor|].
  inversion Hnd as [|? ? Hfresh Hrest]; subst. cbn [List.map]. constructor.
  - intros Hin. apply in_map_iff in Hin. destruct Hin as (b & Hb & Hin).
    assert (b = a) by (apply Hinj; [right; exact Hin | left; reflexivity | exact Hb]).
    subst b. contradiction.
  - apply IH; [|assumption]. intros x y Hx Hy. apply Hinj; right; assumption.
Qed.

Lemma NoDup_filter {A} (f : A -> bool) (l : list A) : NoDup l -> NoDup (filter f l).
Proof.
  induction l as [|a l IH]; intros H; [constructor|].
  inversion H as [|? ? Hfresh Hrest]; subst. cbn [filter]. destruct (f a); [|auto].
  constructor; [|auto]. intros Hin. apply filter_In in Hin. tauto.
Qed.

Lemma skill_record_ids l rs :
  Forall2 (fun d r => skill_record d = Ok r) l rs ->
  NoDup (List.map fst l) ->
  NoDup (List.map sr_id (somes rs)).
Proof.
  intros H. induction H as [|d r l rs Hd Hrs IH]; intros Hnd; [constructor|].
  cbn [List.map] in Hnd. inversion Hnd as [|? ? Hfresh Hrest]; subst.
  unfold somes in *. cbn [flat_map].
  destruct r as [v|]; cbn [app List.map]; [|auto].
  constructor; [|auto].
  intros Hin. apply in_map_iff in Hin. destruct Hin as (v' & Hid & Hin).
  destruct (somes_In _ _ _ _ Hrs Hin) as (d' & Hd' & Hrec').
  destruct (skill_record_Some _ _ Hd) as (? & ? & ? & ? & _ & _ & _ & -> & _).
  destruct (skill_record_Some _ _ Hrec') as (? & ? & ? & ? & _ & _ & _ & -> & _).
  cbn [sr_id] in Hid. apply Hfresh. rewrite <- Hid. apply in_map. exact Hd'.
Qed.

Lemma subagent_record_ids es l rs :
  Forall2 (fun f r => subagent_record es f = Ok r) l rs ->
  List.map ar_id rs = List.map basename_md l.
Proof.
  intros H. induction H as [|f r l rs Hf Hrs IH]; [reflexivity|].
  cbn [List.map]. rewrite IH. f_equal.
  unfold subagent_record in Hf.
  destruct (readFileSync (lookup f es)) as [text|]; [|discriminate]. cbn [bind] in Hf.
  destruct (extractFrontmatter text) as [fm|]; [|discriminate]. cbn [bind] in Hf.
  inversion Hf. reflexivity.
Qed.

(** X10: in a directory no two entries have the same name; then no two
    listed skills have the same id, and no two listed subagents. *)
Theorem ids_are_unique :
  forall input out,
    output input = Ok out ->
    (forall es, lookup (js "skills") (ROOT input) = Some (Dir es) ->
                NoDup (List.map fst es) ->
                NoDup (List.map sm_id (skills out)))
    /\ (forall es, lookup (js "subagents") (ROOT input) = Some (Dir es) ->
                   NoDup (List.map fst es) ->
                   NoDup (List.map am_id (subagents out))).
Proof.
  intros input out Hout.
  destruct (output_inv _ _ Hout) as (sd & sa & Hsd & Hsa & Hskills & Hsubs & _ & _).
  split; intros es Hes Hnd.
  - destruct (buildSkills_inv _ _ Hsd) as [[E _]|(es' & rs & Hes' & Hrs & Hby & Hsk)];
      [congruence|].
    assert (es' = es) by congruence. subst es'.
    rewrite Hskills, Hsk, map_map.
    change (fun x => sm_id (skill_meta x)) with sr_id.
    eapply Permutation_NoDup;
      [symmetry; apply Permutation_map, values_perm|].
    rewrite Hby. apply (file_all_values_NoDup sr_name sr_id).
    cbn [List.map app].
    apply (skill_record_ids _ _ Hrs).
    assert (Hf : forall l : dirents, NoDup (List.map fst l) ->
                   NoDup (List.map fst (filter isDirectory l))).
    { induction l as [|a l IH]; intros H; [constructor|].
      cbn [List.map] in H. inversion H as [|? ? Hfresh Hrest]; subst. cbn [filter].
      destruct (isDirectory a); [|auto]. cbn [List.map]. constructor; [|auto].
      intros Hin. apply Hfresh. apply in_map_iff in Hin. destruct Hin as (b & <- & Hb).
      apply filter_In in Hb. apply in_map, Hb. }
    apply Hf, Hnd.
  - destruct (buildSubagents_inv _ _ Hsa) as [[E _]|(es' & rs & Hes' & Hrs & Hby & Hsk)];
      [congruence|].
    assert (es' = es) by congruence. subst es'.
    rewrite Hsubs, Hsk, map_map.
    change (fun x => am_id (subagent_meta x)) with ar_id.
    eapply Permutation_NoDup;
      [symmetry; apply Permutation_map, values_perm|].
    rewrite Hby. apply (file_all_values_NoDup ar_name ar_id).
    cbn [List.map app].
    rewrite (subagent_record_ids _ _ _ Hrs).
    apply NoDup_map_on; [|apply NoDup_filter, Hnd].
    intros x y Hx Hy Hxy.
    apply filter_In in Hx. destruct Hx as [_ Hx].
    apply filter_In in Hy. destruct Hy as [_ Hy].
    destruct (endsWith_split _ _ Hx) as [sx ->].
    destruct (endsWith_split _ _ Hy) as [sy ->].
    rewrite !basename_md_stem in Hxy. congruence.
Qed.

Lemma ids_are_unique_witness :
  (forall es, lookup (js "skills") (ROOT sample_input) = Some (Dir es) ->
              NoDup (List.map fst es) ->
              NoDup (List.map sm_id (skills (bundle_of sample_input))))
  /\ (forall es, lookup (js "subagents") (ROOT sample_input) = Some (Dir es) ->
                 NoDup (List.map fst es) ->
                 NoDup (List.map am_id (subagents (bundle_of sample_input)))).
Proof.
  apply (ids_are_unique sample_input (bundle_of sample_input)).
  vm_compute. reflexivity.
Defined.
(** ** The catalog *)

Lemma listed_skill_record root sd m :
  buildSkills root = Ok sd ->
  In m (sd_skills sd) ->
  exists r fm,
    JSObject.get (sd_byName sd) (sm_name m) = Some r
    /\ m = skill_meta r
    /\ extractFrontmatter (sr_content r) = Ok fm
    /\ sr_description r = or_else (fm_description fm) []
    /\ sr_name r = or_else (fm_name fm) (sr_id r).
Proof.
  intros Hsd Hm.
  destruct (buildSkills_wf _ _ Hsd) as [Hnd Hnamed].
  assert (Hsk : sd_skills sd = List.map skill_meta (JSObject.values (sd_byName sd))).
  { destruct (buildSkills_inv _ _ Hsd) as [[_ ->]|(_ & _ & _ & _ & _ & H)]; auto. }
  destruct (skills_from_records _ _ Hsk Hm) as (k & r & Hin & ->).
  destruct (skill_provenance _ _ _ _ Hsd Hin)
    as (es & d & children & text & fm & _ & _ & _ & _ & Hfm & Hr & Hk).
  exists r, fm.
  change (sm_name (skill_meta r)) with (sr_name r).
  split; [rewrite <- Hk; apply (In_get _ _ _ Hnd Hin)|].
  rewrite Hr. cbn [sr_content sr_description sr_name sr_id]. repeat split; auto.
Qed.

Lemma listed_subagent_record root sa m :
  buildSubagents root = Ok sa ->
  In m (sd_subagents sa) ->
  exists r fm,
    JSObject.get (sa_byName sa) (am_name m) = Some r
    /\ m = subagent_meta r
    /\ extractFrontmatter (ar_content r) = Ok fm
    /\ ar_description r = or_else (fm_description fm) []
    /\ ar_name r = or_else (fm_name fm) (ar_id r).
Proof.
  intros Hsa Hm.
  destruct (buildSubagents_wf _ _ Hsa) as [Hnd Hnamed].
  assert (Hsk : sd_subagents sa = List.map subagent_meta (JSObject.values (sa_byName sa))).
  { destruct (buildSubagents_inv _ _ Hsa) as [[_ ->]|(_ & _ & _ & _ & _ & H)]; auto. }
  rewrite Hsk in Hm. apply in_map_iff in Hm. destruct Hm as (r & <- & Hm).
  unfold JSObject.values in Hm. apply in_map_iff in Hm. destruct Hm as ([k r'] & Hs & Hin).
  cbn [snd] in Hs. subst r'. apply (proj1 (In_entries _ _ _)) in Hin.
  destruct (subagent_provenance _ _ _ _ Hsa Hin)
    as (es & f & text & fm & _ & _ & _ & _ & Hfm & Hr & Hk).
  exists r, fm.
  change (am_name (subagent_meta r)) with (ar_name r).
  split; [rewrite <- Hk; apply (In_get _ _ _ Hnd Hin)|].
  rewrite Hr. cbn [ar_content ar_description ar_name ar_id]. repeat split; auto.
Qed.

Lemma or_else_or_else a b : or_else (Some (or_else a [])) b = or_else a b.
Proof. destruct a as [[|c s]|]; reflexivity. Qed.

Lemma output_catalog input out :
  output input = Ok out ->
  exists sd sa,
    buildSkills (ROOT input) = Ok sd /\ buildSubagents (ROOT input) = Ok sa
    /\ c_catalog (content out) = buildCatalog sd sa
    /\ readWhenToUse (ROOT input) = Ok (c_whenToUse (content out))
    /\ buildOverview input = Ok (c_overview (content out)).
Proof.
  intros Hout. unfold output in Hout.
  destruct (buildSkills (ROOT input)) as [sd|] eqn:Hsd; [|discriminate].
  destruct (buildSubagents (ROOT input)) as [sa|] eqn:Hsa; [|discriminate].
  cbn [bind] in Hout.
  destruct (readWhenToUse (ROOT input)) as [w|] eqn:Hw; [|discriminate].
  destruct (buildOverview input) as [ov|] eqn:Hov; [|discriminate].
  cbn [bind] in Hout. exists sd, sa.
  match type of Hout with Ok ?x = Ok _ => assert (E : x = out) by congruence end.
  rewrite <- E. cbn [content c_catalog c_whenToUse c_overview]. repeat split; auto.
Qed.

Lemma catalog_joined input out :
  output input = Ok out ->
  c_catalog (content out) = join [10] (catalog_lines out).
Proof.
  intros Hout.
  destruct (output_catalog _ _ Hout) as (sd & sa & Hsd & Hsa & Hcat & _ & _).
  destruct (output_inv _ _ Hout) as (sd' & sa' & Hsd' & Hsa' & Hskills & Hsubs & Hcs & Hca).
  assert (sd' = sd) by congruence. assert (sa' = sa) by congruence. subst sd' sa'.
  destruct (buildSkills_wf _ _ Hsd) as [Hnd _].
  destruct (buildSubagents_wf _ _ Hsa) as [Hnd' _].
  rewrite Hcat. unfold buildCatalog, catalog_lines. cbv zeta.
  rewrite Hskills, Hsubs, Hcs, Hca. rewrite <- !app_assoc.
  f_equal. f_equal. f_equal; [|f_equal].
  - apply map_ext_in. intros m Hm.
    destruct (listed_skill_record _ _ _ Hsd Hm) as (r & fm & Hg & _ & Hfm & Hd & _).
    rewrite get_map_entries by exact Hnd. rewrite Hg. cbn [option_map sc_content].
    unfold shown_description. rewrite Hfm, Hd. rewrite or_else_or_else. reflexivity.
  - apply map_ext_in. intros m Hm.
    destruct (listed_subagent_record _ _ _ Hsa Hm) as (r & fm & Hg & _ & Hfm & Hd & _).
    rewrite get_map_entries by exact Hnd'. rewrite Hg. cbn [option_map ac_content].
    unfold shown_description. rewrite Hfm, Hd. rewrite or_else_or_else. reflexivity.
Qed.

(** X11: the catalog can be read off the rest of the bundle: after the
    heading, one line per listed skill and per listed subagent, in the order
    of the listing, each with the name, the id, and the description that the
    content stored under the name declares, or a placeholder when it declares
    none or an empty one. *)
Theorem catalog_from_bundle :
  forall input out,
    output input = Ok out ->
    c_catalog (content out) = join [10] (catalog_lines out).
Proof. intros input out Hout. exact (catalog_joined input out Hout). Qed.

Lemma catalog_from_bundle_witness :
  c_catalog (content (bundle_of sample_input))
  = join [10] (catalog_lines (bundle_of sample_input)).
Proof.
  apply (catalog_from_bundle sample_input (bundle_of sample_input)).
  vm_compute. reflexivity.
Defined.

(** ** Lines *)

Lemma lines_of_line l : no_line_feed l -> lines_of l = [l].
Proof.
  induction l as [|c l IH]; intros H; [reflexivity|].
  inversion H as [|? ? Hc Hl]; subst. cbn [lines_of]. rewrite Hc, (IH Hl). reflexivity.
Qed.

Lemma lines_of_cons l s : no_line_feed l -> lines_of (l ++ 10 :: s) = l :: lines_of s.
Proof.
  induction l as [|c l IH]; intros H; [reflexivity|].
  inversion H as [|? ? Hc Hl]; subst. cbn [app lines_of]. rewrite Hc, (IH Hl). reflexivity.
Qed.

Lemma lines_of_join l ls :
  Forall no_line_feed (l :: ls) -> lines_of (join [10] (l :: ls)) = l :: ls.
Proof.
  revert l. induction ls as [|l' ls IH]; intros l H.
  - inversion H; subst. apply lines_of_line. assumption.
  - inversion H as [|? ? Hl Hls]; subst.
    change (join [10] (l :: l' :: ls)) with (l ++ 10 :: join [10] (l' :: ls)).
    rewrite (lines_of_cons _ _ Hl), (IH _ Hls). reflexivity.
Qed.

Lemma no_line_feed_js s :
  forallb (fun c => negb (c =? 10)) (js s) = true -> no_line_feed (js s).
Proof.
  intros H. apply Forall_forall. intros c Hc.
  rewrite forallb_forall in H. specialize (H c Hc).
  destruct (c =? 10); [discriminate | reflexivity].
Qed.

Lemma no_line_feed_app a b : no_line_feed a -> no_line_feed b -> no_line_feed (a ++ b).
Proof. intros Ha Hb. apply Forall_app. auto. Qed.

Lemma one_line_no_line_feed s : one_line s -> no_line_feed s.
Proof.
  intros H. eapply Forall_impl; [|exact H].
  intros c Hc. unfold is_line_terminator in Hc.
  destruct (c =? 10); [discriminate | reflexivity].
Qed.

Lemma frontmatter_one_line content fm :
  extractFrontmatter content = Ok fm ->
  (forall n, fm_name fm = Some n -> one_line n)
  /\ (forall d, fm_description fm = Some d -> one_line d).
Proof.
  intros Hfm.
  destruct (extractFrontmatter_fields content) as (fm' & Hfm' & Hname & Hdesc).
  assert (fm' = fm) by congruence. subst fm'. split.
  - intros n Hn. destruct (Hname n Hn) as (block & v & _ & Hm & ->).
    rewrite re_name_field in Hm. apply field_value_one_line in Hm.
    apply Forall_delete_all, Forall_trim, Hm.
  - intros d Hd. destruct (Hdesc d Hd) as (block & v & _ & Hm & Hv).
    rewrite re_description_field in Hm. apply field_value_one_line in Hm.
    destruct Hv as [->| ->]; [|apply Forall_slice]; apply Forall_trim, Hm.
Qed.

Lemma no_line_feed_or_else a b :
  (forall s, a = Some s -> no_line_feed s) -> no_line_feed b -> no_line_feed (or_else a b).
Proof.
  intros Ha Hb. destruct a as [[|c s]|]; cbn [or_else]; auto.
Qed.

Lemma no_line_feed_catalog_line name id desc :
  no_line_feed name -> no_line_feed id -> no_line_feed desc ->
  no_line_feed (catalog_line name id desc).
Proof.
  intros Hn Hi Hd. unfold catalog_line.
  repeat (apply no_line_feed_app;
          [first [assumption | apply no_line_feed_js; reflexivity
                 | apply Forall_cons; [reflexivity | apply Forall_nil]]|]).
  exact Hd.
Qed.

(** X12: when no id holds a line feed, the catalog has one line for each
    entry of the listing: four lines of heading, a line per skill, three
    lines of heading, a line per subagent. *)
Theorem catalog_line_per_entry :
  forall input out,
    output input = Ok out ->
    Forall (fun m => no_line_feed (sm_id m)) (skills out) ->
    Forall (fun m => no_line_feed (am_id m)) (subagents out) ->
    lines_of (c_catalog (content out)) = catalog_lines out
    /\ List.length (lines_of (c_catalog (content out)))
       = (7 + List.length (skills out) + List.length (subagents out))%nat.
Proof.
  intros input out Hout Hids Hida.
  pose proof (catalog_joined input out Hout) as Hc.
  assert (Hshown : forall t, no_line_feed (shown_description t)).
  { intros [t|]; unfold shown_description; [|apply no_line_feed_js; reflexivity].
    destruct (extractFrontmatter t) as [fm|] eqn:Hfm; [|apply no_line_feed_js; reflexivity].
    apply no_line_feed_or_else; [|apply no_line_feed_js; reflexivity].
    intros s Hs. apply one_line_no_line_feed.
    apply (proj2 (frontmatter_one_line _ _ Hfm)), Hs. }
  destruct (output_inv _ _ Hout) as (sd & sa & Hsd & Hsa & Hskills & Hsubs & _ & _).
  assert (Hlines : Forall no_line_feed (catalog_lines out)).
  { unfold catalog_lines.
    repeat (apply Forall_cons; [first [apply no_line_feed_js; reflexivity | apply Forall_nil]|]).
    apply Forall_app. split.
    - apply Forall_map, Forall_forall. intros m Hm.
      rewrite Forall_forall in Hids. pose proof (Hids m Hm) as Hid.
      rewrite Hskills in Hm.
      destruct (listed_skill_record _ _ _ Hsd Hm) as (r & fm & _ & -> & Hfm & _ & Hn).
      apply no_line_feed_catalog_line; [|exact Hid|apply Hshown].
      change (sm_name (skill_meta r)) with (sr_name r). rewrite Hn.
      apply no_line_feed_or_else; [|exact Hid].
      intros s Hs. apply one_line_no_line_feed.
      apply (proj1 (frontmatter_one_line _ _ Hfm)), Hs.
    - repeat (apply Forall_cons;
              [first [apply no_line_feed_js; reflexivity | apply Forall_nil]|]).
      apply Forall_map, Forall_forall. intros m Hm.
      rewrite Forall_forall in Hida. pose proof (Hida m Hm) as Hid.
      rewrite Hsubs in Hm.
      destruct (listed_subagent_record _ _ _ Hsa Hm) as (r & fm & _ & -> & Hfm & _ & Hn).
      apply no_line_feed_catalog_line; [|exact Hid|apply Hshown].
      change (am_name (subagent_meta r)) with (ar_name r). rewrite Hn.
      apply no_line_feed_or_else; [|exact Hid].
      intros s Hs. apply one_line_no_line_feed.
      apply (proj1 (frontmatter_one_line _ _ Hfm)), Hs. }
  assert (Hl : lines_of (c_catalog (content out)) = catalog_lines out).
  { rewrite Hc. unfold catalog_lines in *. cbn [app] in *. apply lines_of_join, Hlines. }
  split; [exact Hl|].
  rewrite Hl. unfold catalog_lines. cbn [app List.length].
  rewrite length_app. cbn [List.length]. rewrite !length_map. lia.
Qed.

Lemma catalog_line_per_entry_witness :
  lines_of (c_catalog (content (bundle_of sample_input)))
  = catalog_lines (bundle_of sample_input)
  /\ List.length (lines_of (c_catalog (content (bundle_of sample_input))))
     = (7 + List.length (skills (bundle_of sample_input))
        + List.length (subagents (bundle_of sample_input)))%nat.
Proof.
  apply (catalog_line_per_entry sample_input (bundle_of sample_input)).
  - vm_compute. reflexivity.
  - vm_compute. repeat constructor.
  - vm_compute. repeat constructor.
Defined.
(** ** The other texts *)

(** X13: the bundle's when-to-use text is the text of the file
    [docs/when-to-use.md], and it is empty when there is no such file. *)
Theorem bundle_when_to_use :
  forall input out,
    output input = Ok out ->
    c_whenToUse (content out)
    = match when_to_use_file (ROOT input) with Some t => t | None => [] end.
Proof.
  intros input out Hout.
  destruct (output_catalog _ _ Hout) as (_ & _ & _ & _ & _ & Hw & _).
  unfold readWhenToUse, when_to_use_file, existsSync in *.
  destruct (lookup (js "docs") (ROOT input)) as [[t|docs]|]; try congruence.
  destruct (lookup (js "when-to-use.md") docs) as [[t|x]|];
    cbn [readFileSync] in Hw; congruence.
Qed.

Lemma bundle_when_to_use_witness :
  c_whenToUse (content (bundle_of sample_input))
  = match when_to_use_file (ROOT sample_input) with Some t => t | None => [] end.
Proof.
  apply (bundle_when_to_use sample_input (bundle_of sample_input)).
  vm_compute. reflexivity.
Defined.

Lemma no_line_feed_to_string a : prints_on_one_line a -> no_line_feed (to_string a).
Proof.
  destruct a as [s|]; cbn [prints_on_one_line to_string]; [auto|].
  intros _. apply (no_line_feed_js "undefined"). reflexivity.
Qed.

(** X14: when no property of [package.json] holds a line feed, the overview
    has seven lines, and the fifth gives the version: the version of the
    package when it has one that is not empty, [unknown] otherwise. *)
Theorem overview_version_line :
  forall input out pkg,
    output input = Ok out ->
    package_json input = Ok pkg ->
    prints_on_one_line (pkg_name pkg) ->
    prints_on_one_line (pkg_description pkg) ->
    prints_on_one_line (pkg_version pkg) ->
    List.length (lines_of (c_overview (content out))) = 7%nat
    /\ exists v,
         nth 4 (lines_of (c_overview (content out))) [] = js "Version: `" ++ v ++ js "`"
         /\ v <> []
         /\ (pkg_version pkg = Some v
             \/ (v = js "unknown"
                 /\ (pkg_version pkg = None \/ pkg_version pkg = Some []))).
Proof.
  intros input out pkg Hout Hpkg Hn Hd Hv.
  destruct (output_catalog _ _ Hout) as (_ & _ & _ & _ & _ & _ & Hov).
  unfold buildOverview in Hov. rewrite Hpkg in Hov. cbn [bind] in Hov.
  match type of Hov with Ok ?x = Ok _ => assert (E : c_overview (content out) = x) by congruence end.
  rewrite E. clear E Hov.
  assert (Hver : no_line_feed (or_else (pkg_version pkg) (js "unknown"))).
  { apply no_line_feed_or_else; [|apply no_line_feed_js; reflexivity].
    intros s Hs. rewrite Hs in Hv. exact Hv. }
  rewrite lines_of_join.
  - split; [reflexivity|]. cbn [nth].
    exists (or_else (pkg_version pkg) (js "unknown")).
    split; [reflexivity|]. split.
    + apply or_else_nonempty. discriminate.
    + destruct (pkg_version pkg) as [[|c s]|]; cbn [or_else]; auto.
  - repeat (apply Forall_cons;
            [repeat (first [ apply no_line_feed_js; reflexivity
                           | apply no_line_feed_to_string; assumption
                           | exact Hver
                           | apply Forall_nil
                           | apply Forall_cons; [reflexivity | apply Forall_nil]
                           | apply no_line_feed_app ])|]).
    apply Forall_nil.
Qed.

Lemma overview_version_line_witness :
  List.length (lines_of (c_overview (content (bundle_of sample_input)))) = 7%nat
  /\ exists v,
       nth 4 (lines_of (c_overview (content (bundle_of sample_input)))) []
       = js "Version: `" ++ v ++ js "`"
       /\ v <> []
       /\ (pkg_version sample_pkg = Some v
           \/ (v = js "unknown"
               /\ (pkg_version sample_pkg = None \/ pkg_version sample_pkg = Some []))).
Proof.
  apply (overview_version_line sample_input (bundle_of sample_input) sample_pkg).
  - vm_compute. reflexivity.
  - reflexivity.
  - vm_compute. repeat constructor.
  - vm_compute. repeat constructor.
  - vm_compute. repeat constructor.
Defined.
(** ** The shape of the artifact *)

Lemma no_control_js s : forallb (fun c => 32 <=? c) (js s) = true -> no_control (js s).
Proof.
  intros H. apply Forall_forall. intros c Hc.
  rewrite forallb_forall in H. apply N.leb_le, H, Hc.
Qed.

Lemma no_control_app a b : no_control a -> no_control b -> no_control (a ++ b).
Proof. intros Ha Hb. apply Forall_app. auto. Qed.

Lemma no_control_join sep ls :
  no_control sep -> Forall no_control ls -> no_control (join sep ls).
Proof.
  intros Hsep H. induction H as [|l ls Hl Hls IH]; [constructor|].
  destruct ls as [|l' ls]; [exact Hl|].
  change (join sep (l :: l' :: ls)) with (l ++ sep ++ join sep (l' :: ls)).
  apply no_control_app; [exact Hl|]. apply no_control_app; [exact Hsep | exact IH].
Qed.

Lemma hex_digit_no_control n : 32 <= hex_digit n.
Proof. unfold hex_digit. destruct (n <? 10); lia. Qed.

Lemma no_control_quote_unit c : no_control (quote_unit c).
Proof.
  unfold quote_unit, unicode_escape.
  repeat (match goal with |- context [if ?b then _ else _] => destruct b eqn:? end);
    repeat (apply Forall_cons; [|]); try apply Forall_nil;
    try apply hex_digit_no_control; try lia.
  match goal with
  | H : (c <? 32) || _ || _ = false |- _ =>
      apply orb_false_iff in H; destruct H as [H _];
      apply orb_false_iff in H; destruct H as [H _]; apply N.ltb_ge in H; exact H
  end.
Qed.

Lemma no_control_quote_units_le n : forall s,
  (List.length s <= n)%nat -> no_control (quote_units s).
Proof.
  induction n as [|n IH]; intros s Hlen.
  - destruct s; [constructor | simpl in Hlen; lia].
  - destruct s as [|c s]; [constructor|].
    simpl in Hlen. cbn [quote_units].
    destruct (is_high_surrogate c) eqn:Hc.
    + destruct s as [|d s]; [apply no_control_quote_unit|].
      destruct (is_low_surrogate d) eqn:Hd.
      * unfold is_high_surrogate in Hc. unfold is_low_surrogate in Hd.
        apply andb_true_iff in Hc. apply andb_true_iff in Hd.
        rewrite !N.leb_le in *.
        constructor; [lia|]. constructor; [lia|].
        apply IH. simpl in Hlen. lia.
      * apply no_control_app; [apply no_control_quote_unit|]. apply IH. lia.
    + apply no_control_app; [apply no_control_quote_unit|]. apply IH. lia.
Qed.

Lemma no_control_QuoteJSONString s : no_control (QuoteJSONString s).
Proof.
  unfold QuoteJSONString.
  apply no_control_app; [repeat constructor; lia|].
  apply no_control_app; [|repeat constructor; lia].
  apply (no_control_quote_units_le (List.length s)). lia.
Qed.

Lemma no_control_serialize v : no_control (serialize [] [] v).
Proof.
  induction v as [| b | s | items IH | members IH] using json_ind'.
  - apply no_control_js. reflexivity.
  - destruct b; apply no_control_js; reflexivity.
  - apply no_control_QuoteJSONString.
  - cbn [serialize app]. destruct (List.map (serialize [] []) items) eqn:E;
      [apply no_control_js; reflexivity|].
    rewrite <- E. apply no_control_app; [apply no_control_js; reflexivity|].
    apply no_control_app; [|apply no_control_js; reflexivity].
    apply no_control_join; [apply no_control_js; reflexivity|]. apply Forall_map.
    exact IH.
  - cbn [serialize app]. destruct (List.map _ members) eqn:E;
      [apply no_control_js; reflexivity|].
    rewrite <- E. apply no_control_app; [apply no_control_js; reflexivity|].
    apply no_control_app; [|apply no_control_js; reflexivity].
    apply no_control_join; [apply no_control_js; reflexivity|]. apply Forall_map.
    eapply Forall_impl; [|exact IH]. intros m Hm.
    apply no_control_app; [apply no_control_QuoteJSONString|].
    apply no_control_app; [apply no_control_js; reflexivity|]. cbn [app]. exact Hm.
Qed.

Lemma no_control_no_line_feed s : no_control s -> no_line_feed s.
Proof.
  intros H. eapply Forall_impl; [|exact H].
  intros c Hc. cbv beta in Hc. apply N.eqb_neq. lia.
Qed.

(** X15: the serialized bundle holds no control character, whatever the
    documents hold: it is one line of text.  The digest holds no line feed, so
    the sidecar is that one line and the line feed that ends it. *)
Theorem artifact_is_one_line :
  forall out,
    no_control (jsonContent out)
    /\ lines_of (jsonContent out) = [jsonContent out]
    /\ lines_of (hash out ++ [10]) = [hash out; []].
Proof.
  intros out.
  assert (H : no_control (jsonContent out)) by apply no_control_serialize.
  split; [exact H|]. split.
  - apply lines_of_line, no_control_no_line_feed, H.
  - apply (lines_of_cons (hash out) []).
    eapply Forall_impl; [|apply hexdigest_lower].
    intros c Hc. cbv beta in Hc. apply lower_hex_ascii in Hc as Hlt.
    unfold is_lower_hex in Hc. apply N.eqb_neq. intros ->. discriminate.
Qed.

(** ** The bytes of the artifact *)

Lemma bytes_utf8_le n : forall s,
  (List.length s <= n)%nat -> code_units s -> bytes (utf8 s).
Proof.
  induction n as [|n IH]; intros s Hlen Hs.
  - destruct s; [constructor | simpl in Hlen; lia].
  - destruct s as [|c s]; [constructor|].
    simpl in Hlen. inversion Hs as [|? ? Hc Hs']; subst. cbn [utf8].
    destruct (c <? 128) eqn:H1.
    { apply N.ltb_lt in H1. constructor; [lia|]. apply IH; [lia | exact Hs']. }
    destruct (c <? 2048) eqn:H2.
    { apply N.ltb_lt in H2.
      assert (Hb : 192 + c / 64 < 256 /\ 128 + c mod 64 < 256) by (base64 c; lia).
      constructor; [apply Hb|]. constructor; [apply Hb|].
      apply IH; [lia | exact Hs']. }
    destruct (is_high_surrogate c) eqn:H3.
    { destruct s as [|d s]; [repeat constructor; lia|].
      inversion Hs' as [|? ? Hd Hs'']; subst.
      destruct (is_low_surrogate d) eqn:H4.
      - unfold is_high_surrogate in H3. unfold is_low_surrogate in H4.
        apply andb_true_iff in H3. apply andb_true_iff in H4.
        rewrite !N.leb_le in *.
        cbv zeta.
        set (cp := 65536 + (c - 55296) * 1024 + (d - 56320)).
        assert (Hcp : cp < 1114112) by (unfold cp; lia).
        clearbody cp.
        assert (Hb : 240 + cp / 262144 < 256 /\ 128 + (cp / 4096) mod 64 < 256
                     /\ 128 + (cp / 64) mod 64 < 256 /\ 128 + cp mod 64 < 256)
          by (base64 cp; lia).
        constructor; [apply Hb|]. constructor; [apply Hb|].
        constructor; [apply Hb|]. constructor; [apply Hb|].
        apply IH; [simpl in Hlen; lia | exact Hs''].
      - constructor; [lia|]. constructor; [lia|]. constructor; [lia|].
        apply IH; [lia | exact Hs']. }
    destruct (is_low_surrogate c) eqn:H4.
    { constructor; [lia|]. constructor; [lia|]. constructor; [lia|].
      apply IH; [lia | exact Hs']. }
    assert (Hb : 224 + c / 4096 < 256 /\ 128 + (c / 64) mod 64 < 256
                 /\ 128 + c mod 64 < 256) by (base64 c; lia).
    constructor; [apply Hb|]. constructor; [apply Hb|]. constructor; [apply Hb|].
    apply IH; [lia | exact Hs'].
Qed.

(** X16: on an input made of code units, what a run writes to the artifact
    is a sequence of bytes, and the encoding loses nothing: the serialized
    text holds no lone surrogate, and two runs that write the same bytes
    serialized the same text. *)
Theorem artifact_bytes_determine_text :
  forall input out input' out',
    valid_input input = true ->
    output input = Ok out ->
    valid_input input' = true ->
    output input' = Ok out' ->
    bytes (utf8 (jsonContent out))
    /\ paired (jsonContent out) = true
    /\ (utf8 (jsonContent out) = utf8 (jsonContent out') ->
        jsonContent out = jsonContent out').
Proof.
  intros input out input' out' Hv Hout Hv' Hout'.
  pose proof (code_units_jsonContent _ _ (valid_input_wf _ Hv) Hout) as Hc.
  pose proof (code_units_jsonContent _ _ (valid_input_wf _ Hv') Hout') as Hc'.
  assert (Hp : forall b, paired (jsonContent b) = true) by (intros b; apply paired_serialize).
  split; [apply (bytes_utf8_le (List.length (jsonContent out))); [lia | exact Hc]|].
  split; [apply Hp|].
  intros E.
  rewrite <- (utf8_decode_encode (jsonContent out) (Hp out) Hc).
  rewrite <- (utf8_decode_encode (jsonContent out') (Hp out') Hc').
  rewrite E. reflexivity.
Qed.

Lemma artifact_bytes_determine_text_witness :
  bytes (utf8 (jsonContent (bundle_of bare_input)))
  /\ paired (jsonContent (bundle_of bare_input)) = true
  /\ (utf8 (jsonContent (bundle_of bare_input))
      = utf8 (jsonContent (bundle_of empty_docs_input)) ->
      jsonContent (bundle_of bare_input) = jsonContent (bundle_of empty_docs_input)).
Proof.
  apply (artifact_bytes_determine_text bare_input (bundle_of bare_input)
           empty_docs_input (bundle_of empty_docs_input)).
  - vm_compute. reflexivity.
  - vm_compute. reflexivity.
  - vm_compute. reflexivity.
  - vm_compute. reflexivity.
Defined.
(** ** The order of the listing and the order of the directory *)

Section Fresh.
Context {V : Type} (name : V -> jsstring).

Lemma file_all_fresh rs : forall o,
  NoDup (List.map fst o ++ List.map name rs) ->
  Forall (fun r => name r <> proto) rs ->
  file_all name rs o = o ++ List.map (fun r => (name r, r)) rs.
Proof.
  induction rs as [|r rs IH]; intros o Hnd Hp.
  - cbn. rewrite app_nil_r. reflexivity.
  - inversion Hp as [|? ? Hr Hrs]; subst.
    cbn [file_all fold_left List.map].
    change (fold_left (fun o r => JSObject.set o (name r) r) rs ?x)
      with (file_all name rs x).
    unfold JSObject.set.
    destruct (jsstring_eqb (name r) (js "__proto__")) eqn:E.
    { apply jsstring_eqb_eq in E. contradiction. }
    rewrite define_fresh.
    + rewrite IH; [rewrite <- app_assoc; reflexivity| |exact Hrs].
      rewrite map_app. cbn [List.map fst]. rewrite <- app_assoc. exact Hnd.
    + cbn [List.map] in Hnd. apply NoDup_remove_2 in Hnd.
      intros Hin. apply Hnd. apply in_or_app. left. exact Hin.
Qed.

Lemma entries_plain (o : JSObject.obj V) :
  Forall (fun p => JSObject.is_index (fst p) = false) o -> JSObject.entries o = o.
Proof.
  intros H. unfold JSObject.entries. rewrite Forall_forall in H.
  rewrite filter_none, filter_all; [reflexivity| |exact H].
  intros x Hx. rewrite (H x Hx). reflexivity.
Qed.

Lemma values_file_all_plain rs :
  NoDup (List.map name rs) ->
  Forall (fun r => plain_name (name r)) rs ->
  JSObject.values (file_all name rs []) = rs.
Proof.
  intros Hnd Hp.
  rewrite file_all_fresh; [|exact Hnd|].
  - cbn [app]. unfold JSObject.values. rewrite entries_plain.
    + rewrite map_map. cbn [snd]. apply map_id.
    + apply Forall_map. eapply Forall_impl; [|exact Hp]. intros r [H _]. exact H.
  - eapply Forall_impl; [|exact Hp]. intros r [_ H]. exact H.
Qed.

End Fresh.

Lemma skill_records_of_eq es rs :
  Forall2 (fun d r => skill_record d = Ok r) (filter isDirectory es) rs ->
  somes rs = skill_records_of es.
Proof.
  unfold skill_records_of. generalize (filter isDirectory es). intros l H.
  induction H as [|d r l rs Hd Hrs IH]; [reflexivity|].
  unfold somes in *. cbn [List.map flat_map]. rewrite Hd, IH. reflexivity.
Qed.

Lemma subagent_records_of_eq es rs :
  Forall2 (fun f r => subagent_record es f = Ok r)
    (filter (fun f => endsWith f (js ".md")) (List.map fst es)) rs ->
  rs = subagent_records_of es.
Proof.
  unfold subagent_records_of.
  generalize (filter (fun f => endsWith f (js ".md")) (List.map fst es)). intros l H.
  induction H as [|f r l rs Hf Hrs IH]; [reflexivity|].
  cbn [flat_map]. rewrite Hf, <- IH. reflexivity.
Qed.

(** X17: when the names of the records of a directory are pairwise
    distinct, and none is an array index or the key [__proto__], the listing
    has one entry for each record, in the order in which the directory is
    read. *)
Theorem listing_in_directory_order :
  forall input out,
    output input = Ok out ->
    (forall es,
        lookup (js "skills") (ROOT input) = Some (Dir es) ->
        NoDup (List.map sr_name (skill_records_of es)) ->
        Forall (fun r => plain_name (sr_name r)) (skill_records_of es) ->
        skills out = List.map skill_meta (skill_records_of es))
    /\ (forall es,
          lookup (js "subagents") (ROOT input) = Some (Dir es) ->
          NoDup (List.map ar_name (subagent_records_of es)) ->
          Forall (fun r => plain_name (ar_name r)) (subagent_records_of es) ->
          subagents out = List.map subagent_meta (subagent_records_of es)).
Proof.
  intros input out Hout.
  destruct (output_inv _ _ Hout) as (sd & sa & Hsd & Hsa & Hskills & Hsubs & _ & _).
  split; intros es Hes Hnd Hp.
  - destruct (buildSkills_inv _ _ Hsd) as [[E _]|(es' & rs & Hes' & Hrs & Hby & Hsk)];
      [congruence|].
    assert (es' = es) by congruence. subst es'.
    rewrite Hskills, Hsk, Hby, (skill_records_of_eq _ _ Hrs).
    rewrite values_file_all_plain by assumption. reflexivity.
  - destruct (buildSubagents_inv _ _ Hsa) as [[E _]|(es' & rs & Hes' & Hrs & Hby & Hsk)];
      [congruence|].
    assert (es' = es) by congruence. subst es'.
    rewrite Hsubs, Hsk, Hby, (subagent_records_of_eq _ _ Hrs).
    rewrite values_file_all_plain by assumption. reflexivity.
Qed.

Lemma listing_in_directory_order_witness :
  (forall es,
      lookup (js "skills") (ROOT sample_input) = Some (Dir es) ->
      NoDup (List.map sr_name (skill_records_of es)) ->
      Forall (fun r => plain_name (sr_name r)) (skill_records_of es) ->
      skills (bundle_of sample_input) = List.map skill_meta (skill_records_of es))
  /\ (forall es,
        lookup (js "subagents") (ROOT sample_input) = Some (Dir es) ->
        NoDup (List.map ar_name (subagent_records_of es)) ->
        Forall (fun r => plain_name (ar_name r)) (subagent_records_of es) ->
        subagents (bundle_of sample_input)
        = List.map subagent_meta (subagent_records_of es)).
Proof.
  apply (listing_in_directory_order sample_input (bundle_of sample_input)).
  vm_compute. reflexivity.
Defined.

(** A name that is an array index is listed first, wherever its directory
    stands. *)
Lemma index_name_is_listed_first :
  List.map sm_id
    (skills (bundle_of
       (mkBuildInput
          [ (js "skills",
              Dir [ (js "b", Dir [ (js "SKILL.md", File (js "# B")) ]);
                    (js "7", Dir [ (js "SKILL.md", File (js "# Seven")) ]) ]) ]
          (Ok sample_pkg))))
  = [js "7"; js "b"].
Proof. vm_compute. reflexivity. Qed.
(** ** The recursive reader *)

Lemma node_ind' (P : node -> Prop) :
  (forall text, P (File text)) ->
  (forall children, Forall (fun e => P (snd e)) children -> P (Dir children)) ->
  forall x, P x.
Proof.
  intros Hf Hd. fix IH 1. intros [text|children].
  - apply Hf.
  - apply Hd. induction children as [|[n y] es IHes]; constructor; [apply IH | exact IHes].
Qed.

Section Assign.
Context {V : Type}.
Implicit Types (o : JSObject.obj V).

Lemma fold_set_NoDup (l : list (jsstring * V)) : forall o,
  NoDup (List.map fst o) ->
  NoDup (List.map fst (fold_left (fun o p => JSObject.set o (fst p) (snd p)) l o)).
Proof.
  induction l as [|p l IH]; intros o H; [exact H|].
  cbn [fold_left]. apply IH, set_NoDup, H.
Qed.

Lemma assign_NoDup o s : NoDup (List.map fst o) -> NoDup (List.map fst (assign o s)).
Proof. apply fold_set_NoDup. Qed.

Lemma In_fold_set (l : list (jsstring * V)) : forall o k v,
  NoDup (List.map fst o) ->
  In (k, v) (fold_left (fun o p => JSObject.set o (fst p) (snd p)) l o) ->
  In (k, v) o \/ In (k, v) l.
Proof.
  induction l as [|p l IH]; intros o k v Hnd H; [left; exact H|].
  cbn [fold_left] in H. apply IH in H; [|apply set_NoDup, Hnd].
  destruct H as [H|H]; [|right; right; exact H].
  apply In_set in H; [|exact Hnd].
  destruct H as [(-> & -> & _)|H]; [|left; exact H].
  right. left. destruct p; reflexivity.
Qed.

Lemma In_assign o s k v :
  NoDup (List.map fst o) -> In (k, v) (assign o s) -> In (k, v) o \/ In (k, v) s.
Proof.
  intros Hnd H. apply In_fold_set in H; [|exact Hnd].
  destruct H as [H|H]; [left; exact H|].
  right. apply (proj1 (In_entries _ _ _)). exact H.
Qed.

Lemma get_set_grows o k v k' :
  JSObject.get o k' <> None -> JSObject.get (JSObject.set o k v) k' <> None.
Proof.
  intros H. destruct (list_eq_dec N.eq_dec k' k) as [->|Hne].
  - unfold JSObject.set. destruct (jsstring_eqb k (js "__proto__")); [exact H|].
    rewrite get_define_same. discriminate.
  - rewrite get_set_other by exact Hne. exact H.
Qed.

Lemma get_fold_set_grows (l : list (jsstring * V)) : forall o k,
  JSObject.get o k <> None ->
  JSObject.get (fold_left (fun o p => JSObject.set o (fst p) (snd p)) l o) k <> None.
Proof.
  induction l as [|p l IH]; intros o k H; [exact H|].
  cbn [fold_left]. apply IH, get_set_grows, H.
Qed.

Lemma get_fold_set_In (l : list (jsstring * V)) : forall o k v,
  In (k, v) l -> k <> proto ->
  JSObject.get (fold_left (fun o p => JSObject.set o (fst p) (snd p)) l o) k <> None.
Proof.
  induction l as [|p l IH]; intros o k v Hin Hp; [destruct Hin|].
  cbn [fold_left]. destruct Hin as [->|Hin].
  - apply get_fold_set_grows. cbn [fst snd]. rewrite get_set_same by exact Hp. discriminate.
  - eapply IH; eassumption.
Qed.

Lemma get_assign_left o s k :
  JSObject.get o k <> None -> JSObject.get (assign o s) k <> None.
Proof. apply get_fold_set_grows. Qed.

Lemma get_assign_right o s k :
  JSObject.get s k <> None -> k <> proto -> JSObject.get (assign o s) k <> None.
Proof.
  intros H Hp. destruct (JSObject.get s k) as [v|] eqn:Hg; [|congruence].
  apply get_Some_In in Hg. apply (proj2 (In_entries _ _ _)) in Hg.
  unfold assign. eapply get_fold_set_In; eassumption.
Qed.

End Assign.

(** The text of a path ends with its last name. *)
Lemma join_last sep path :
  path <> [] -> exists pre, join sep path = pre ++ last path [].
Proof.
  induction path as [|n path IH]; intros H; [congruence|].
  destruct path as [|n' path]; [exists []; reflexivity|].
  destruct IH as [pre Hpre]; [discriminate|].
  exists (n ++ sep ++ pre).
  change (join sep (n :: n' :: path)) with (n ++ sep ++ join sep (n' :: path)).
  rewrite Hpre, <- !app_assoc. reflexivity.
Qed.

Lemma to_slashes_app a b : to_slashes (a ++ b) = to_slashes a ++ to_slashes b.
Proof. apply map_app. Qed.

Lemma is_markdown_slashes pre name :
  is_markdown name = true -> is_markdown (to_slashes (pre ++ name)) = true.
Proof.
  unfold is_markdown. intros H. apply orb_true_iff in H. apply orb_true_iff.
  destruct H as [H|H]; [left|right];
    apply endsWith_split in H; destruct H as [stem ->];
    rewrite app_assoc, to_slashes_app.
  - change (to_slashes (js ".md")) with (js ".md"). apply endsWith_app.
  - change (to_slashes (js ".markdown")) with (js ".markdown"). apply endsWith_app.
Qed.

Lemma is_markdown_path_key win32 path :
  path <> [] -> is_markdown (last path []) = true ->
  is_markdown (path_key win32 path) = true.
Proof.
  intros Hne H. unfold path_key.
  destruct (join_last [path_sep win32] path Hne) as [pre ->].
  apply is_markdown_slashes, H.
Qed.

Lemma is_markdown_not_proto k : is_markdown k = true -> k <> proto.
Proof. intros H ->. discriminate. Qed.

Lemma last_app_nonempty (a b : list jsstring) : b <> [] -> last (a ++ b) [] = last b [].
Proof.
  intros H. induction a as [|x a IH]; [reflexivity|].
  cbn [app]. rewrite <- IH. cbn [last].
  destruct (a ++ b) eqn:E; [|reflexivity].
  apply app_eq_nil in E. destruct E. contradiction.
Qed.

Lemma readDir_sound win32 : forall x rel, read_sound win32 x rel (readDir win32 x rel).
Proof.
  induction x as [text|children IH] using node_ind'; intros rel.
  - split; [constructor | intros k v []].
  - cbn [readDir].
    set (step := fun (result : JSObject.obj jsstring) (e : jsstring * node) =>
                   match snd e with
                   | Dir _ => assign result (readDir win32 (snd e) (rel ++ [fst e]))
                   | File text =>
                       if is_markdown (fst e)
                       then JSObject.set result (path_key win32 (rel ++ [fst e])) text
                       else result
                   end).
    assert (H : forall l result,
               (forall e, In e l -> In e children) ->
               read_sound win32 (Dir children) rel result ->
               read_sound win32 (Dir children) rel (fold_left step l result)).
    { induction l as [|[n y] l IHl]; intros result Hl Hres; [exact Hres|].
      cbn [fold_left]. apply IHl; [intros e He; apply Hl; right; exact He|].
      assert (Hin : In (n, y) children) by (apply Hl; left; reflexivity).
      destruct Hres as [Hnd Hres]. unfold step. cbn [fst snd].
      destruct y as [text|sub].
      - destruct (is_markdown n) eqn:Hmd; [|split; assumption].
        split; [apply set_NoDup, Hnd|].
        intros k v Hkv. apply In_set in Hkv; [|exact Hnd].
        destruct Hkv as [(-> & -> & _)|Hkv]; [|apply Hres, Hkv].
        exists [n]. split; [discriminate|]. split; [|split; [exact Hmd | reflexivity]].
        cbn [file_at]. exists children, (File text). auto.
      - rewrite Forall_forall in IH.
        destruct (IH (n, Dir sub) Hin (rel ++ [n])) as [Hnd' Hsub].
        split; [apply assign_NoDup, Hnd|].
        intros k v Hkv. apply In_assign in Hkv; [|exact Hnd].
        destruct Hkv as [Hkv|Hkv]; [apply Hres, Hkv|].
        cbn [snd] in Hsub.
        destruct (Hsub k v Hkv) as (path & Hne & Hfile & Hmd & ->).
        exists (n :: path). split; [discriminate|]. split; [|split].
        + cbn [file_at]. exists children, (Dir sub). auto.
        + destruct path; [congruence | exact Hmd].
        + rewrite <- app_assoc. reflexivity. }
    apply H; [auto|]. split; [constructor | intros k v []].
Qed.

(** X18: the recursive reader throws on what is no directory.  On a
    directory it returns an object in which every value is the text of a
    markdown file below the directory, under the key of its path: the names
    from the directory down, joined by the separator, every backslash turned
    into a slash.  Every key ends with [.md] or [.markdown]. *)
Theorem readDirRecursive_sound :
  forall win32 dir,
    match dir with
    | Some (Dir es) =>
        exists o,
          readDirRecursive win32 dir = Ok o
          /\ forall k v, In (k, v) o ->
               is_markdown k = true
               /\ exists path,
                    file_at path (Dir es) v
                    /\ is_markdown (last path []) = true
                    /\ k = path_key win32 path
    | Some (File _) => readDirRecursive win32 dir = Throw ENOTDIR
    | None => readDirRecursive win32 dir = Throw ENOENT
    end.
Proof.
  intros win32 [[text|es]|]; [reflexivity| |reflexivity].
  exists (readDir win32 (Dir es) []). split; [reflexivity|].
  intros k v Hkv.
  destruct (readDir_sound win32 (Dir es) []) as [_ H].
  destruct (H k v Hkv) as (path & Hne & Hfile & Hmd & ->). cbn [app].
  split; [apply is_markdown_path_key; assumption|].
  exists path. auto.
Qed.

Lemma readDir_complete win32 : forall path x rel text,
  file_at path x text ->
  path <> [] ->
  is_markdown (last path []) = true ->
  JSObject.get (readDir win32 x rel) (path_key win32 (rel ++ path)) <> None.
Proof.
  induction path as [|n path IH]; intros x rel text Hfile Hne Hmd; [congruence|].
  cbn [file_at] in Hfile. destruct Hfile as (children & y & -> & Hin & Hy).
  cbn [readDir].
  set (step := fun (result : JSObject.obj jsstring) (e : jsstring * node) =>
                 match snd e with
                 | Dir _ => assign result (readDir win32 (snd e) (rel ++ [fst e]))
                 | File text =>
                     if is_markdown (fst e)
                     then JSObject.set result (path_key win32 (rel ++ [fst e])) text
                     else result
                 end).
  set (key := path_key win32 (rel ++ n :: path)).
  assert (Hkey : key <> proto).
  { apply is_markdown_not_proto. unfold key. apply is_markdown_path_key.
    - intros E. apply app_eq_nil in E. destruct E. discriminate.
    - rewrite last_app_nonempty by discriminate. exact Hmd. }
  assert (Hgrow : forall l result,
            JSObject.get result key <> None ->
            JSObject.get (fold_left step l result) key <> None).
  { induction l as [|e l IHl]; intros result H; [exact H|].
    cbn [fold_left]. apply IHl. unfold step.
    destruct (snd e); [|apply get_assign_left, H].
    destruct (is_markdown (fst e)); [apply get_set_grows, H | exact H]. }
  assert (Hstep : forall result, JSObject.get (step result (n, y)) key <> None).
  { intros result. unfold step. cbn [fst snd].
    destruct path as [|n' path].
    - cbn [file_at] in Hy. subst y. cbn [last] in Hmd. rewrite Hmd.
      unfold key. rewrite get_set_same by exact Hkey. discriminate.
    - assert (Hd : exists sub, y = Dir sub).
      { cbn [file_at] in Hy. destruct Hy as (sub & ? & -> & _). eauto. }
      destruct Hd as [sub ->].
      apply get_assign_right; [|exact Hkey].
      unfold key. replace (rel ++ n :: n' :: path) with ((rel ++ [n]) ++ n' :: path)
        by (rewrite <- app_assoc; reflexivity).
      apply (IH _ _ text Hy); [discriminate|].
      exact Hmd. }
  assert (Hall : forall l result,
            In (n, y) l -> JSObject.get (fold_left step l result) key <> None).
  { induction l as [|e l IHl]; intros result Hl; [destruct Hl|].
    cbn [fold_left]. destruct Hl as [->|Hl]; [apply Hgrow, Hstep | apply IHl, Hl]. }
  apply Hall, Hin.
Qed.

(** X19: the recursive reader leaves no markdown file out: for every file
    below the directory whose name ends with [.md] or [.markdown], the object
    has a property under the key of its path. *)
Theorem readDirRecursive_complete :
  forall win32 es path text,
    file_at path (Dir es) text ->
    is_markdown (last path []) = true ->
    exists o v,
      readDirRecursive win32 (Some (Dir es)) = Ok o
      /\ JSObject.get o (path_key win32 path) = Some v.
Proof.
  intros win32 es path text Hfile Hmd.
  assert (Hne : path <> []) by (intros ->; discriminate).
  pose proof (readDir_complete win32 path (Dir es) [] text Hfile Hne Hmd) as H.
  cbn [app] in H.
  destruct (JSObject.get (readDir win32 (Dir es) []) (path_key win32 path)) as [v|] eqn:E;
    [|congruence].
  exists (readDir win32 (Dir es) []), v. split; [reflexivity | exact E].
Qed.

Lemma readDirRecursive_complete_witness :
  exists o v,
    readDirRecursive false (Some (Dir sample_skills)) = Ok o
    /\ JSObject.get o (path_key false [js "foo"; js "SKILL.md"]) = Some v.
Proof.
  apply (readDirRecursive_complete false sample_skills [js "foo"; js "SKILL.md"]
           (document [js "name: bar"; js "description: " ++ [34] ++ js "does bar" ++ [34]]
              (js "# Bar"))).
  - cbn [file_at]. eexists. eexists. split; [reflexivity|].
    split; [left; reflexivity|].
    eexists. eexists. split; [reflexivity|]. split; [left; reflexivity | reflexivity].
  - vm_compute. reflexivity.
Defined.
(** ** What a run reads *)

Lemma lookup_filter (P : jsstring -> bool) name es :
  P name = true ->
  lookup name (filter (fun e => P (fst e)) es) = lookup name es.
Proof.
  intros HP. induction es as [|[n x] es IH]; [reflexivity|].
  cbn [filter fst lookup].
  destruct (jsstring_eqb n name) eqn:E.
  - apply jsstring_eqb_eq in E. subst n. rewrite HP. cbn [lookup].
    rewrite jsstring_eqb_refl. reflexivity.
  - destruct (P n); [cbn [lookup]; rewrite E|]; exact IH.
Qed.

Lemma lookup_keep_names names name es :
  existsb (jsstring_eqb name) names = true ->
  lookup name (keep_names names es) = lookup name es.
Proof.
  intros H. unfold keep_names.
  apply (lookup_filter (fun n => existsb (jsstring_eqb n) names) name es H).
Qed.

Lemma lookup_read_set root :
  lookup (js "skills") (read_set root)
  = option_map read_skills (lookup (js "skills") root)
  /\ lookup (js "subagents") (read_set root)
     = option_map read_subagents (lookup (js "subagents") root)
  /\ lookup (js "docs") (read_set root)
     = option_map read_docs (lookup (js "docs") root)
  /\ lookup (js "dist") (read_set root)
     = option_map read_dist (lookup (js "dist") root).
Proof.
  unfold read_set.
  destruct (lookup (js "skills") root), (lookup (js "subagents") root),
    (lookup (js "docs") root), (lookup (js "dist") root); repeat split; reflexivity.
Qed.

Lemma skill_step_read_skill byName d :
  isDirectory d = true -> skill_step byName (read_skill d) = skill_step byName d.
Proof.
  unfold isDirectory, read_skill, skill_step, existsSync. destruct d as [n [t|ch]];
    cbn [fst snd]; [discriminate|]. intros _.
  rewrite !lookup_keep_names by reflexivity. reflexivity.
Qed.

Lemma for_of_ext_in {A S} (f g : S -> A -> result S) (l : list A) :
  (forall s a, In a l -> f s a = g s a) ->
  forall s, for_of f l s = for_of g l s.
Proof.
  induction l as [|a l IH]; intros H s; [reflexivity|].
  cbn [for_of]. rewrite (H s a (or_introl eq_refl)).
  destruct (g s a); cbn [bind]; [|reflexivity].
  apply IH. intros s' a' Ha. apply H. right. exact Ha.
Qed.

Lemma for_of_map {A B S} (f : S -> B -> result S) (h : A -> B) (l : list A) :
  forall s, for_of f (List.map h l) s = for_of (fun s a => f s (h a)) l s.
Proof.
  induction l as [|a l IH]; intros s; [reflexivity|].
  cbn [List.map for_of]. destruct (f s (h a)); cbn [bind]; [apply IH | reflexivity].
Qed.

Lemma buildSkills_read_set root : buildSkills (read_set root) = buildSkills root.
Proof.
  unfold buildSkills, existsSync.
  rewrite (proj1 (lookup_read_set root)).
  destruct (lookup (js "skills") root) as [[t|es]|]; cbn [option_map read_skills];
    try reflexivity.
  cbn [negb readdirSync bind].
  assert (Hf : filter isDirectory (List.map read_skill (filter isDirectory es))
               = List.map read_skill (filter isDirectory es)).
  { apply filter_all. intros d Hd. apply in_map_iff in Hd.
    destruct Hd as (d' & <- & Hd'). apply filter_In in Hd'. destruct Hd' as [_ Hd'].
    unfold isDirectory, read_skill in *. destruct (snd d'); [discriminate | reflexivity]. }
  rewrite Hf, for_of_map.
  rewrite (for_of_ext_in _ skill_step); [reflexivity|].
  intros s d Hd. apply filter_In in Hd. apply skill_step_read_skill, Hd.
Qed.

Lemma filter_idem {A} (f : A -> bool) (l : list A) : filter f (filter f l) = filter f l.
Proof.
  apply filter_all. intros x Hx. apply filter_In in Hx. apply Hx.
Qed.

Lemma map_fst_filter (P : jsstring -> bool) (es : dirents) :
  List.map fst (filter (fun e => P (fst e)) es) = filter P (List.map fst es).
Proof.
  induction es as [|e es IH]; [reflexivity|].
  cbn [filter List.map]. destruct (P (fst e)); cbn [List.map]; rewrite IH; reflexivity.
Qed.

Lemma buildSubagents_read_set root : buildSubagents (read_set root) = buildSubagents root.
Proof.
  unfold buildSubagents, existsSync.
  rewrite (proj1 (proj2 (lookup_read_set root))).
  destruct (lookup (js "subagents") root) as [[t|es]|]; cbn [option_map read_subagents];
    try reflexivity.
  cbn [negb readdirSync bind].
  rewrite (map_fst_filter (fun f => endsWith f (js ".md"))), filter_idem.
  rewrite (for_of_ext_in _ (subagent_step es)); [reflexivity|].
  intros s f Hf. apply filter_In in Hf. destruct Hf as [_ Hf].
  unfold subagent_step.
  rewrite (lookup_filter (fun f => endsWith f (js ".md")) f es Hf). reflexivity.
Qed.

Lemma readWhenToUse_read_set root : readWhenToUse (read_set root) = readWhenToUse root.
Proof.
  unfold readWhenToUse, existsSync.
  rewrite (proj1 (proj2 (proj2 (lookup_read_set root)))).
  destruct (lookup (js "docs") root) as [[t|es]|]; cbn [option_map read_docs];
    try reflexivity.
  rewrite !lookup_keep_names by reflexivity. reflexivity.
Qed.

Lemma output_read_set input :
  output (mkBuildInput (read_set (ROOT input)) (package_json input)) = output input.
Proof.
  unfold output, buildOverview. cbn [ROOT package_json].
  rewrite buildSkills_read_set, buildSubagents_read_set, readWhenToUse_read_set.
  reflexivity.
Qed.

(** X20: a run depends on nothing but what it touches: the directories of
    the skills root with their files [SKILL.md] and [REFERENCE.md], the
    entries [*.md] of the subagents root, the file [docs/when-to-use.md],
    [package.json], and in the output directory the two paths it writes to.
    With everything else removed, it writes the same files and ends the same
    way. *)
Theorem main_reads_only_its_sources :
  forall input,
    script (mkBuildInput (read_set (ROOT input)) (package_json input)) = script input
    /\ main (mkBuildInput (read_set (ROOT input)) (package_json input)) = main input.
Proof.
  intros input.
  assert (H : script (mkBuildInput (read_set (ROOT input)) (package_json input))
              = script input).
  { unfold script. rewrite output_read_set. cbn [ROOT]. unfold OUT_DIR.
    rewrite (proj2 (proj2 (proj2 (lookup_read_set (ROOT input))))).
    destruct (output input) as [out|]; [|reflexivity].
    destruct (lookup (js "dist") (ROOT input)) as [[t|dist]|];
      cbn [option_map read_dist mkdirSync]; try reflexivity.
    rewrite !lookup_keep_names by reflexivity. reflexivity. }
  split; [exact H|]. unfold main. rewrite H. reflexivity.
Qed.

(** ** The key [__proto__] *)

(** X21: no entry of a bundle is named [__proto__]: a document that
    declares this name, or that stands under it and declares none, is left out
    of the listing and of the stored contents, and the run goes on. *)
Theorem no_entry_named_proto :
  forall input out,
    output input = Ok out ->
    (forall m, In m (skills out) -> sm_name m <> proto)
    /\ ~ In proto (JSObject.keys (c_skills (content out)))
    /\ (forall m, In m (subagents out) -> am_name m <> proto)
    /\ ~ In proto (JSObject.keys (c_subagents (content out))).
Proof.
  intros input out Hout.
  destruct (output_inv _ _ Hout) as (sd & sa & Hsd & Hsa & Hskills & Hsubs & Hcs & Hca).
  destruct (buildSkills_wf _ _ Hsd) as [Hnd Hnamed].
  destruct (buildSubagents_wf _ _ Hsa) as [Hnd' Hnamed'].
  assert (Hsk : sd_skills sd = List.map skill_meta (JSObject.values (sd_byName sd))).
  { destruct (buildSkills_inv _ _ Hsd) as [[_ ->]|(_ & _ & _ & _ & _ & H)]; auto. }
  assert (Hsu : sd_subagents sa = List.map subagent_meta (JSObject.values (sa_byName sa))).
  { destruct (buildSubagents_inv _ _ Hsa) as [[_ ->]|(_ & _ & _ & _ & _ & H)]; auto. }
  assert (Hks : ~ In proto (JSObject.keys (sd_byName sd))).
  { intros Hin. unfold JSObject.keys in Hin. apply in_map_iff in Hin.
    destruct Hin as ([k r] & Hk & Hin). cbn [fst] in Hk. subst k.
    apply (proj1 (In_entries _ _ _)) in Hin.
    destruct (buildSkills_inv _ _ Hsd) as [[_ ->]|(es & rs & _ & _ & Hby & _)];
      [destruct Hin|].
    rewrite Hby in Hin. apply file_all_In in Hin; [|constructor].
    destruct Hin as [[]|(_ & _ & Hp)]. apply Hp. reflexivity. }
  assert (Hka : ~ In proto (JSObject.keys (sa_byName sa))).
  { intros Hin. unfold JSObject.keys in Hin. apply in_map_iff in Hin.
    destruct Hin as ([k r] & Hk & Hin). cbn [fst] in Hk. subst k.
    apply (proj1 (In_entries _ _ _)) in Hin.
    destruct (buildSubagents_inv _ _ Hsa) as [[_ ->]|(es & rs & _ & _ & Hby & _)];
      [destruct Hin|].
    rewrite Hby in Hin. apply file_all_In in Hin; [|constructor].
    destruct Hin as [[]|(_ & _ & Hp)]. apply Hp. reflexivity. }
  rewrite Hcs, Hca, !keys_map_entries_eq by assumption.
  repeat split; try assumption.
  - intros m Hm E. apply Hks. rewrite <- E.
    rewrite <- (skills_names sd Hnamed Hsk), <- Hskills. apply in_map, Hm.
  - intros m Hm E. apply Hka. rewrite <- E.
    rewrite <- (subagents_names sa Hnamed' Hsu), <- Hsubs. apply in_map, Hm.
Qed.

Lemma no_entry_named_proto_witness :
  (forall m, In m (skills (bundle_of sample_input)) -> sm_name m <> proto)
  /\ ~ In proto (JSObject.keys (c_skills (content (bundle_of sample_input))))
  /\ (forall m, In m (subagents (bundle_of sample_input)) -> am_name m <> proto)
  /\ ~ In proto (JSObject.keys (c_subagents (content (bundle_of sample_input)))).
Proof.
  apply (no_entry_named_proto sample_input (bundle_of sample_input)).
  vm_compute. reflexivity.
Defined.

(** A skill directory named [__proto__] whose document declares no name:
    the run succeeds and the bundle lists nothing. *)
Lemma proto_directory_is_left_out :
  exists out,
    output (mkBuildInput
              [ (js "skills",
                  Dir [ (js "__proto__", Dir [ (js "SKILL.md", File (js "# P")) ]) ]) ]
              (Ok sample_pkg)) = Ok out
    /\ skills out = [] /\ c_skills (content out) = [].
Proof. eexists. split; [vm_compute; reflexivity|]. split; reflexivity. Qed.
